(** * OOPAO: field propagation, PSF synthesis and extended-source mosaicking

    A shallow embedding of [OOPAO/Telescope.py] and
    [OOPAO/ExtendedSource.py].  Python objects become records, methods
    become computations in a state-and-exception monad (a [raise] keeps the
    attribute writes made before it, as in Python), numpy arrays become a
    shape together with an indexing function.

    Numbers.  Python [int] is [Z]; Python and numpy [float] are modelled by
    exact rationals [Q], so every statement below is about exact arithmetic
    and is silent on floating-point rounding.  The transcendental functions
    and the Fourier transforms of the numeric backend are taken through the
    interface [Backend]. *)

From Stdlib Require Import String.
From Stdlib Require Import ZArith QArith Qround Qabs Bool List Lia Lqa.
From Stdlib Require DecimalString.
Import ListNotations.
Open Scope Z_scope.

Set Implicit Arguments.

(* ================================================================== *)
(** * Python and numpy primitives *)
(* ================================================================== *)

Module Py.

(** The exceptions the modelled code can raise. *)
Inductive exn : Type :=
| ValueError (msg : string)
| TypeError (msg : string)
| AttributeError (msg : string)
| IndexError
| ZeroDivisionError
| RuntimeError (msg : string)
| BaseException (msg : string).

(** [a // b] and [a % b] on integers, for a positive [b], are Rocq's floor
    division and modulo. *)
Definition floordiv (a b : Z) : Z := a / b.
Definition pymod (a b : Z) : Z := a mod b.

(** [x % 2] on a float. *)
Definition fmod2 (x : Q) : Q := (x - inject_Z (2 * Qfloor (x / 2)))%Q.

(** Boolean comparisons on rationals. *)
Definition Qltb (a b : Q) : bool := negb (Qle_bool b a).
Definition Qgtb (a b : Q) : bool := Qltb b a.
Definition Qgeb (a b : Q) : bool := Qle_bool b a.

(** Index adjustment of a slice bound against a dimension of length [len]:
    a negative bound counts from the end, and the result is clipped to
    [0 .. len]. *)
Definition adjust (len i : Z) : Z :=
  let i' := if i <? 0 then i + len else i in
  Z.max 0 (Z.min len i').

(** [range(n)] *)
Definition range (n : Z) : list Z := map Z.of_nat (seq 0 (Z.to_nat n)).

(** The pairs [(x, y)] of [for x in range(n): for y in range(n)], in the
    order of the iteration. *)
Definition range2 (n : Z) : list (Z * Z) :=
  flat_map (fun x => map (fun y => (x, y)) (range n)) (range n).

(** A slice [lo:hi]; an omitted bound is [None]. *)
Definition slice : Type := option Z * option Z.
Definition sl_start (len : Z) (s : slice) : Z :=
  match fst s with None => 0 | Some i => adjust len i end.
Definition sl_stop (len : Z) (s : slice) : Z :=
  match snd s with None => len | Some i => adjust len i end.
Definition sl_len (len : Z) (s : slice) : Z :=
  Z.max 0 (sl_stop len s - sl_start len s).
Definition sl (lo hi : Z) : slice := (Some lo, Some hi).
Definition sl_from (lo : Z) : slice := (Some lo, None).
Definition sl_all : slice := (None, None).

(** Python values passed where the code expects a band name. *)
Inductive pyobj : Type :=
| PyStr (s : string)
| PyInt (z : Z)
| PyFloat (q : Q)
| PyBool (b : bool)
| PyNone.

End Py.

Module Np.
Import Py.

(** [np.ceil(x).astype(int)] *)
Definition ceil (x : Q) : Z := Qceiling x.

(** [np.fix(x).astype(int)]: rounding towards zero. *)
Definition fix_ (x : Q) : Z := if Qle_bool 0 x then Qfloor x else Qceiling x.

(** [np.round(x).astype(int)]: rounding to the nearest integer, ties to the
    even one. *)
Definition round (x : Q) : Z :=
  let f := Qfloor x in
  match Qcompare (x - inject_Z f) (1 # 2) with
  | Lt => f
  | Gt => f + 1
  | Eq => if Z.even f then f else f + 1
  end.

(** [np.pi], the double nearest to pi, is the rational
    884279719003555 / 2^48. *)
Definition pi : Q := 884279719003555 # 281474976710656.

(** An n-dimensional array: its shape and its indexing function.  Only the
    values at in-range indices are meaningful. *)
Record ndarray (A : Type) : Type := mk_nd {
  shape : list Z;
  item : list Z -> A
}.

Definition ndim {A} (a : ndarray A) : Z := Z.of_nat (length (shape a)).

(** [a.shape[k]] *)
Definition shape_at {A} (a : ndarray A) (k : nat) : exn + Z :=
  match nth_error (shape a) k with
  | Some n => inr n
  | None => inl IndexError
  end.

(** [a[i]] for a non-negative or negative integer [i]. *)
Definition getitem {A} (a : ndarray A) (i : Z) : exn + ndarray A :=
  match shape a with
  | [] => inl IndexError
  | n :: rest =>
      let i' := if i <? 0 then i + n else i in
      if (0 <=? i') && (i' <? n)
      then inr (mk_nd rest (fun ix => item a (i' :: ix)))
      else inl IndexError
  end.

(** Elementwise operations. *)
Definition map_nd {A B} (f : A -> B) (a : ndarray A) : ndarray B :=
  mk_nd (shape a) (fun ix => f (item a ix)).

Definition scale (k : Q) (a : ndarray Q) : ndarray Q :=
  map_nd (fun x => (x * k)%Q) a.

(** [a.astype(float)] and [a.astype(int)] *)
Definition to_float (a : ndarray Z) : ndarray Q := map_nd inject_Z a.
Definition to_int (a : ndarray Q) : ndarray Z := map_nd fix_ a.

(** numpy's broadcasting of two shapes, aligned on the trailing axes. *)
Fixpoint broadcast_rev (s t : list Z) : option (list Z) :=
  match s, t with
  | [], _ => Some t
  | _, [] => Some s
  | m :: s', n :: t' =>
      match broadcast_rev s' t' with
      | None => None
      | Some r =>
          if m =? n then Some (m :: r)
          else if m =? 1 then Some (n :: r)
          else if n =? 1 then Some (m :: r)
          else None
      end
  end.

Definition broadcast (s t : list Z) : option (list Z) :=
  option_map (@rev Z) (broadcast_rev (rev s) (rev t)).

(** The index into an operand of shape [s] for the index [ix] of the
    broadcast result: leading axes are dropped, axes of length 1 are
    pinned to 0. *)
Definition bindex (s : list Z) (ix : list Z) : list Z :=
  let ix' := skipn (length ix - length s) ix in
  map (fun p => if fst p =? 1 then 0 else snd p) (combine s ix').

(** [a * b] with broadcasting. *)
Definition mul (a b : ndarray Q) : exn + ndarray Q :=
  match broadcast (shape a) (shape b) with
  | None => inl (ValueError "operands could not be broadcast together")
  | Some s =>
      inr (mk_nd s (fun ix =>
             (item a (bindex (shape a) ix) * item b (bindex (shape b) ix))%Q))
  end.

(** [a[rs, cs]] on a 2-D array, for two slices. *)
Definition slice2 {A} (a : ndarray A) (rs cs : slice) : exn + ndarray A :=
  match shape a with
  | [nr; nc] =>
      inr (mk_nd [sl_len nr rs; sl_len nc cs]
             (fun ix =>
                match ix with
                | [i; j] => item a [sl_start nr rs + i; sl_start nc cs + j]
                | _ => item a ix
                end))
  | _ => inl IndexError
  end.

(** Whether a value of shape [(r', c')] can be stored into a place of shape
    [(r, c)]. *)
Definition fits (r c r' c' : Z) : bool :=
  ((r' =? r) || (r' =? 1)) && ((c' =? c) || (c' =? 1)).

(** [f[rs, cs] += g[rs', cs']] on 2-D arrays. *)
Definition iadd2 (f : ndarray Q) (rs cs : slice)
    (g : ndarray Q) (rs' cs' : slice) : exn + ndarray Q :=
  match shape f, shape g with
  | [nr; nc], [mr; mc] =>
      let r := sl_len nr rs in
      let c := sl_len nc cs in
      let r' := sl_len mr rs' in
      let c' := sl_len mc cs' in
      if fits r c r' c' then
        inr (mk_nd [nr; nc]
               (fun ix =>
                  match ix with
                  | [i; j] =>
                      let di := i - sl_start nr rs in
                      let dj := j - sl_start nc cs in
                      if (0 <=? di) && (di <? r) && (0 <=? dj) && (dj <? c)
                      then Qplus (item f ix)
                             (item g
                                [sl_start mr rs' + (if r' =? 1 then 0 else di);
                                 sl_start mc cs' + (if c' =? 1 then 0 else dj)])
                      else item f ix
                  | _ => item f ix
                  end))
      else inl (ValueError "operands could not be broadcast together")
  | _, _ => inl IndexError
  end.

(** [f[rs, cs] = v] for a scalar [v]. *)
Definition fill2 (f : ndarray Q) (rs cs : slice) (v : Q) : exn + ndarray Q :=
  match shape f with
  | [nr; nc] =>
      inr (mk_nd [nr; nc]
             (fun ix =>
                match ix with
                | [i; j] =>
                    let di := i - sl_start nr rs in
                    let dj := j - sl_start nc cs in
                    if (0 <=? di) && (di <? sl_len nr rs)
                       && (0 <=? dj) && (dj <? sl_len nc cs)
                    then v else item f ix
                | _ => item f ix
                end))
  | _ => inl IndexError
  end.

(** [a[:, :, x, y] = b] on a 4-D array [a] and a 2-D array [b]. *)
Definition assign_tile (a : ndarray Q) (x y : Z) (b : ndarray Q)
  : exn + ndarray Q :=
  match shape a, shape b with
  | [r; c; nx; ny], [r'; c'] =>
      if negb ((0 <=? x) && (x <? nx) && (0 <=? y) && (y <? ny))
      then inl IndexError
      else if fits r c r' c' then
        inr (mk_nd (shape a)
               (fun ix =>
                  match ix with
                  | [i; j; x'; y'] =>
                      if (x' =? x) && (y' =? y)
                      then item b [if r' =? 1 then 0 else i;
                                   if c' =? 1 then 0 else j]
                      else item a ix
                  | _ => item a ix
                  end))
      else inl (ValueError "could not broadcast input array")
  | _, _ => inl IndexError
  end.

(** [a[:, :, x, y]] on a 4-D array. *)
Definition tile (a : ndarray Q) (x y : Z) : ndarray Q :=
  mk_nd (firstn 2 (shape a))
    (fun ix => match ix with
               | [i; j] => item a [i; j; x; y]
               | _ => item a ix
               end).

(** [np.zeros(shape)] *)
Definition zeros (s : list Z) : exn + ndarray Q :=
  if forallb (fun n => 0 <=? n) s then inr (mk_nd s (fun _ => 0%Q))
  else inl (ValueError "negative dimensions are not allowed").

(** The elements of a 2-D array, row by row. *)
Definition elements2 (a : ndarray Q) : list Q :=
  match shape a with
  | [r; c] => map (fun p => item a [fst p; snd p])
                (flat_map (fun i => map (fun j => (i, j)) (range c)) (range r))
  | _ => []
  end.

Definition Qmaxb (a b : Q) : Q := if Qle_bool a b then b else a.

(** [np.max(a)] *)
Definition max (a : ndarray Q) : exn + Q :=
  match elements2 a with
  | [] => inl (ValueError "zero-size array to reduction operation maximum")
  | x :: xs => inr (fold_left Qmaxb xs x)
  end.

(** [np.sum(a)] on a 2-D array. *)
Definition sum (a : ndarray Q) : Q :=
  fold_left Qplus (elements2 a) 0%Q.

(** Sum of [f] over the index range [0 .. n-1]. *)
Definition sum_range (n : Z) (f : Z -> Q) : Q :=
  fold_right (fun i acc => (f i + acc)%Q) 0%Q (range n).

Definition sum_rangeZ (n : Z) (f : Z -> Z) : Z :=
  fold_right (fun i acc => f i + acc) 0 (range n).

(** The indices of an array of shape [s], in row-major order. *)
Fixpoint indices (s : list Z) : list (list Z) :=
  match s with
  | [] => [[]]
  | n :: s' => flat_map (fun i => map (cons i) (indices s')) (range n)
  end.

(** [a.size] *)
Definition size {A} (a : ndarray A) : Z := fold_right Z.mul 1 (shape a).

(** [np.sum(a)] on an integer array of any shape. *)
Definition sumZ (a : ndarray Z) : Z :=
  fold_right (fun ix acc => item a ix + acc) 0 (indices (shape a)).

(** [np.where(np.reshape(a, n) > 0)]: the positions of the positive
    elements of the flattened array. *)
Definition where_positive (a : ndarray Z) : list Z :=
  map fst
    (filter (fun p => 0 <? item a (snd p))
       (combine (range (size a)) (indices (shape a)))).

(** [np.linspace(start, stop, num)[k]] *)
Definition linspace (start stop : Q) (num k : Z) : Q :=
  if num =? 1 then start
  else (start + inject_Z k * ((stop - start) / inject_Z (num - 1)))%Q.

(** [a * b] of integer arrays, with broadcasting. *)
Definition mulZ (a b : ndarray Z) : exn + ndarray Z :=
  match broadcast (shape a) (shape b) with
  | None => inl (ValueError "operands could not be broadcast together")
  | Some s =>
      inr (mk_nd s (fun ix =>
             item a (bindex (shape a) ix) * item b (bindex (shape b) ix)))
  end.

(** An elementwise binary operation with broadcasting. *)
Definition map2 {A B C} (f : A -> B -> C) (a : ndarray A) (b : ndarray B)
  : exn + ndarray C :=
  match broadcast (shape a) (shape b) with
  | None => inl (ValueError "operands could not be broadcast together")
  | Some s =>
      inr (mk_nd s (fun ix =>
             f (item a (bindex (shape a) ix)) (item b (bindex (shape b) ix))))
  end.

(** [a + b] with broadcasting. *)
Definition add (a b : ndarray Q) : exn + ndarray Q :=
  match broadcast (shape a) (shape b) with
  | None => inl (ValueError "operands could not be broadcast together")
  | Some s =>
      inr (mk_nd s (fun ix =>
             Qplus (item a (bindex (shape a) ix))
               (item b (bindex (shape b) ix))))
  end.

(** [a *= b]: the product must have the shape of [a]. *)
Definition imulZ (a b : ndarray Z) : exn + ndarray Z :=
  match broadcast (shape a) (shape b) with
  | None => inl (ValueError "operands could not be broadcast together")
  | Some s =>
      if list_eq_dec Z.eq_dec s (shape a)
      then inr (mk_nd s (fun ix => item a ix * item b (bindex (shape b) ix)))
      else inl (ValueError "non-broadcastable output operand")
  end.

(** [a[i] = v] on an array: [v] is broadcast to the shape of [a[i]]. *)
Definition setitem (a : ndarray Q) (i : Z) (v : ndarray Q)
  : exn + ndarray Q :=
  match shape a with
  | [] => inl IndexError
  | n :: rest =>
      if (0 <=? i) && (i <? n) then
        match broadcast rest (shape v) with
        | None => inl (ValueError "could not broadcast input array")
        | Some s =>
            if list_eq_dec Z.eq_dec s rest
            then inr (mk_nd (shape a)
                        (fun ix =>
                           match ix with
                           | i' :: ix' =>
                               if i' =? i then item v (bindex (shape v) ix')
                               else item a ix
                           | [] => item a ix
                           end))
            else inl (ValueError "could not broadcast input array")
        end
      else inl IndexError
  end.

(** [l[i]] and [l[i] = v] on a Python list, for [i] from a [range]. *)
Definition list_get {A} (l : list A) (i : Z) : exn + A :=
  if i <? 0 then inl IndexError
  else match nth_error l (Z.to_nat i) with
       | Some x => inr x
       | None => inl IndexError
       end.

Fixpoint replace_nth {A} (l : list A) (k : nat) (v : A) : list A :=
  match l, k with
  | [], _ => []
  | _ :: l', O => v :: l'
  | x :: l', S k' => x :: replace_nth l' k' v
  end.

Definition list_set {A} (l : list A) (i : Z) (v : A) : exn + list A :=
  if (0 <=? i) && (i <? Z.of_nat (length l))
  then inr (replace_nth l (Z.to_nat i) v)
  else inl IndexError.

(** Complex numbers as pairs. *)
Definition cmul (x y : Q * Q) : Q * Q :=
  (fst x * fst y - snd x * snd y, fst x * snd y + snd x * fst y)%Q.
Definition cscale (k : Q) (x : Q * Q) : Q * Q := (k * fst x, k * snd x)%Q.

(** [np.fft.fftshift] and [np.fft.ifftshift] on a 2-D array. *)
Definition fftshift {A} (a : ndarray A) : ndarray A :=
  mk_nd (shape a)
    (fun ix =>
       match shape a, ix with
       | [n; m], [i; j] => item a [(i - n / 2) mod n; (j - m / 2) mod m]
       | _, _ => item a ix
       end).

Definition ifftshift {A} (a : ndarray A) : ndarray A :=
  mk_nd (shape a)
    (fun ix =>
       match shape a, ix with
       | [n; m], [i; j] => item a [(i + n / 2) mod n; (j + m / 2) mod m]
       | _, _ => item a ix
       end).

(** [np.pad(a, (before, after), constant_values = zero)] on a 2-D array:
    [before] and [after] elements are added on both axes. *)
Definition pad2 {A} (zero : A) (a : ndarray A) (before after : Z)
  : exn + ndarray A :=
  match shape a with
  | [n; m] =>
      if (before <? 0) || (after <? 0)
      then inl (ValueError "index can't contain negative values")
      else inr (mk_nd [n + before + after; m + before + after]
                  (fun ix =>
                     match ix with
                     | [i; j] =>
                         if (before <=? i) && (i <? before + n)
                            && (before <=? j) && (j <? before + m)
                         then item a [i - before; j - before] else zero
                     | _ => zero
                     end))
  | _ => inl (ValueError "operands could not be broadcast together")
  end.

End Np.

(* ================================================================== *)
(** * The state-and-exception monad of a method call *)
(* ================================================================== *)

Module Mon.
Import Py.

(** A method body run on an object of type [S]: the object after the run,
    with the exception raised or the value returned. *)
Definition M (S A : Type) : Type := S -> S * (exn + A).

Definition ret {S A} (a : A) : M S A := fun s => (s, inr a).
Definition raise {S A} (e : exn) : M S A := fun s => (s, inl e).
Definition bind {S A B} (c : M S A) (k : A -> M S B) : M S B :=
  fun s => match c s with
           | (s', inl e) => (s', inl e)
           | (s', inr a) => k a s'
           end.
Definition get {S} : M S S := fun s => (s, inr s).
Definition put {S} (s : S) : M S unit := fun _ => (s, inr tt).
Definition modify {S} (f : S -> S) : M S unit := fun s => (f s, inr tt).

(** A pure computation that may raise. *)
Definition lift {S A} (r : exn + A) : M S A := fun s => (s, r).

(** [for x in xs: body x] *)
Fixpoint for_each {S A} (xs : list A) (body : A -> M S unit) : M S unit :=
  match xs with
  | [] => ret tt
  | x :: xs' => bind (body x) (fun _ => for_each xs' body)
  end.

(** A computation that raises from every state; one that never raises
    the exception [bad]; one that leaves the part [f] of the state as it
    is. *)
Definition raises {S A} (c : M S A) : Prop :=
  forall s, exists e, snd (c s) = inl e.

Definition avoids {S A} (bad : exn) (c : M S A) : Prop :=
  forall s e, snd (c s) = inl e -> e <> bad.

Definition keeps {S A X} (f : S -> X) (c : M S A) : Prop :=
  forall s, f (fst (c s)) = f s.

(** A computation that keeps the property [inv] of the object, whether it
    returns or raises. *)
Definition preserves {S A} (inv : S -> Prop) (c : M S A) : Prop :=
  forall s, inv s -> inv (fst (c s)).

(** A computation after whose return the object satisfies [post]. *)
Definition ensures {S A} (c : M S A) (post : S -> Prop) : Prop :=
  forall s s' a, c s = (s', inr a) -> post s'.

End Mon.

Declare Scope py_scope.
Delimit Scope py_scope with py.
Notation "x <- c ;; k" := (Mon.bind c (fun x => k))
  (at level 61, c at next level, right associativity) : py_scope.
Notation "c ;; k" := (Mon.bind c (fun _ => k))
  (at level 61, right associativity) : py_scope.

(* ================================================================== *)
(** * The execution platform *)
(* ================================================================== *)

(** What the modelled code takes from the interpreter and from the numeric
    backend ([np], [cp] or [torch]) without defining it: the transcendental
    functions, the discrete Fourier transforms, reductions over boolean
    selections, the binning helper of [OOPAO.tools.tools], and the names of
    the attributes every Python class object has.  A complex number is a
    pair (real part, imaginary part). *)
Class Platform : Type := {
  xp_sqrt : Q -> Q;
  (** [np.cos(np.deg2rad(x))], [np.sin(np.deg2rad(x))] *)
  xp_cos_deg : Q -> Q;
  xp_sin_deg : Q -> Q;
  (** [np.rad2deg(np.arctan2(y, x))] *)
  xp_arctan2_deg : Q -> Q -> Q;
  (** [xp.exp(1j * x)] *)
  xp_exp_i : Q -> Q * Q;
  (** [xp.fft.fft2] and [xp.fft.ifft2] on a 2-D array; both keep the shape *)
  xp_fft2 : Np.ndarray (Q * Q) -> list Z -> Q * Q;
  xp_ifft2 : Np.ndarray (Q * Q) -> list Z -> Q * Q;
  (** [xp.abs(z)] *)
  xp_abs : Q * Q -> Q;
  (** [np.mean(a[np.where(pupil == 1)])], [np.var(a[np.where(pupil == 1)])] *)
  xp_mean_where : Np.ndarray Q -> Np.ndarray Z -> Q;
  xp_var_where : Np.ndarray Q -> Np.ndarray Z -> Q;
  (** [set_binning(a, k)], which raises on an array that it cannot bin *)
  set_binning : Np.ndarray Q -> Z -> Py.exn + Np.ndarray Q;
  (** [hasattr(cls, name)] for a class [cls] that does not define [name] *)
  class_attr : string -> bool;
  (** The band table of class [Source]: the wavelength and the flux at
      magnitude 1 of a band, or nothing for a value that its constructor
      rejects. *)
  Source_photometry : Py.pyobj -> option (Q * Q)
}.

(** Lines written to the standard output; the warning of [computePSF] on
    sources outside of the field of view is told apart from the other
    lines. *)
Inductive event : Type :=
| Printed (msg : string)
| OutsideFov (msg : string).

(* ================================================================== *)
(** * The objects *)
(* ================================================================== *)

Module Source.
Import Py Np.

(** Modelled from the spec: class [Source] of [OOPAO/Source.py] is not among
    the sources; the record holds the attributes that [Telescope.py] and
    [ExtendedSource.py] read and write on a point source
    (the SourceDescriptor of the specification: wavelength, flux map, sky
    coordinates (radius, position angle), tag). *)
Record t : Type := mk {
  tag : string;
  type : string;
  optBand : pyobj;
  wavelength : Q;
  nPhoton : Q;
  coordinates : Q * Q;
  phase : option (ndarray Q);
  phase_no_pupil : option (ndarray Q);
  var : option Q;
  fluxMap : option (ndarray Q)
}.

Definition with_nPhoton (v : Q) (o : t) : t :=
  mk (tag o) (type o) (optBand o) (wavelength o) v (coordinates o) (phase o)
    (phase_no_pupil o) (var o) (fluxMap o).
Definition with_phase (v : option (ndarray Q)) (o : t) : t :=
  mk (tag o) (type o) (optBand o) (wavelength o) (nPhoton o) (coordinates o)
    v (phase_no_pupil o) (var o) (fluxMap o).
Definition with_phase_no_pupil (v : option (ndarray Q)) (o : t) : t :=
  mk (tag o) (type o) (optBand o) (wavelength o) (nPhoton o) (coordinates o)
    (phase o) v (var o) (fluxMap o).
Definition with_var (v : option Q) (o : t) : t :=
  mk (tag o) (type o) (optBand o) (wavelength o) (nPhoton o) (coordinates o)
    (phase o) (phase_no_pupil o) v (fluxMap o).
Definition with_fluxMap (v : option (ndarray Q)) (o : t) : t :=
  mk (tag o) (type o) (optBand o) (wavelength o) (nPhoton o) (coordinates o)
    (phase o) (phase_no_pupil o) (var o) v.

(** [Source(optBand, magnitude = 1, coordinates, display_properties = False)]
    as [ExtendedSource.__init__] uses it: the wavelength is the one of the
    band, which the caller passes here; the flux of magnitude 1 is
    overwritten by the caller right after the construction. *)
Definition new (band : pyobj) (lambda flux : Q) (coords : Q * Q) : t :=
  mk "source" "NGS" band lambda flux coords None None None None.

End Source.

Module Asterism.

(** Modelled from the spec: class [Asterism] of [OOPAO/Asterism.py] is not
    among the sources; it is an ordered list of sources, [n_source] being
    its length. *)
Record t : Type := mk {
  src : list Source.t;
  tag : string;
  type : string
}.

Definition n_source (a : t) : Z := Z.of_nat (length (src a)).

(** [Asterism(list_src)] *)
Definition new (l : list Source.t) : t := mk l "asterism" "asterism".

Definition with_src (v : list Source.t) (o : t) : t := mk v (tag o) (type o).

End Asterism.

Module ExtendedSourceData.
Import Py Np.

(** The attributes of an [ExtendedSource] object. *)
Record t : Type := mk {
  is_initialized : bool;
  display_properties : bool;
  optBand : pyobj;
  wavelength : Q;
  bandwidth : Q;
  nPhoton : Q;
  tag : string;
  type : string;
  coordinates : Q * Q;
  fov : Q;
  img_PS : Q;
  nSubDirs : Z;
  patch_padding : Q;
  subDir_margin : Q;
  sun_nopad : ndarray Q;
  sun_padded : ndarray Q;
  subDirs_coordinates : ndarray Q;
  subDirs_sun : ndarray Q;
  sun_subDir_ast : Asterism.t;
  filter_2D : ndarray Q;
  stdout : list event
}.

Definition with_is_initialized (v : bool) (o : t) : t :=
  mk v (display_properties o) (optBand o) (wavelength o) (bandwidth o)
    (nPhoton o) (tag o) (type o) (coordinates o) (fov o) (img_PS o)
    (nSubDirs o) (patch_padding o) (subDir_margin o) (sun_nopad o)
    (sun_padded o) (subDirs_coordinates o) (subDirs_sun o) (sun_subDir_ast o)
    (filter_2D o) (stdout o).
Definition with_display_properties (v : bool) (o : t) : t :=
  mk (is_initialized o) v (optBand o) (wavelength o) (bandwidth o)
    (nPhoton o) (tag o) (type o) (coordinates o) (fov o) (img_PS o)
    (nSubDirs o) (patch_padding o) (subDir_margin o) (sun_nopad o)
    (sun_padded o) (subDirs_coordinates o) (subDirs_sun o) (sun_subDir_ast o)
    (filter_2D o) (stdout o).
Definition with_optBand (v : pyobj) (o : t) : t :=
  mk (is_initialized o) (display_properties o) v (wavelength o) (bandwidth o)
    (nPhoton o) (tag o) (type o) (coordinates o) (fov o) (img_PS o)
    (nSubDirs o) (patch_padding o) (subDir_margin o) (sun_nopad o)
    (sun_padded o) (subDirs_coordinates o) (subDirs_sun o) (sun_subDir_ast o)
    (filter_2D o) (stdout o).
Definition with_wavelength (v : Q) (o : t) : t :=
  mk (is_initialized o) (display_properties o) (optBand o) v (bandwidth o)
    (nPhoton o) (tag o) (type o) (coordinates o) (fov o) (img_PS o)
    (nSubDirs o) (patch_padding o) (subDir_margin o) (sun_nopad o)
    (sun_padded o) (subDirs_coordinates o) (subDirs_sun o) (sun_subDir_ast o)
    (filter_2D o) (stdout o).
Definition with_bandwidth (v : Q) (o : t) : t :=
  mk (is_initialized o) (display_properties o) (optBand o) (wavelength o) v
    (nPhoton o) (tag o) (type o) (coordinates o) (fov o) (img_PS o)
    (nSubDirs o) (patch_padding o) (subDir_margin o) (sun_nopad o)
    (sun_padded o) (subDirs_coordinates o) (subDirs_sun o) (sun_subDir_ast o)
    (filter_2D o) (stdout o).
Definition with_nPhoton (v : Q) (o : t) : t :=
  mk (is_initialized o) (display_properties o) (optBand o) (wavelength o)
    (bandwidth o) v (tag o) (type o) (coordinates o) (fov o) (img_PS o)
    (nSubDirs o) (patch_padding o) (subDir_margin o) (sun_nopad o)
    (sun_padded o) (subDirs_coordinates o) (subDirs_sun o) (sun_subDir_ast o)
    (filter_2D o) (stdout o).
Definition with_tag (v : string) (o : t) : t :=
  mk (is_initialized o) (display_properties o) (optBand o) (wavelength o)
    (bandwidth o) (nPhoton o) v (type o) (coordinates o) (fov o) (img_PS o)
    (nSubDirs o) (patch_padding o) (subDir_margin o) (sun_nopad o)
    (sun_padded o) (subDirs_coordinates o) (subDirs_sun o) (sun_subDir_ast o)
    (filter_2D o) (stdout o).
Definition with_type (v : string) (o : t) : t :=
  mk (is_initialized o) (display_properties o) (optBand o) (wavelength o)
    (bandwidth o) (nPhoton o) (tag o) v (coordinates o) (fov o) (img_PS o)
    (nSubDirs o) (patch_padding o) (subDir_margin o) (sun_nopad o)
    (sun_padded o) (subDirs_coordinates o) (subDirs_sun o) (sun_subDir_ast o)
    (filter_2D o) (stdout o).
Definition with_coordinates (v : Q * Q) (o : t) : t :=
  mk (is_initialized o) (display_properties o) (optBand o) (wavelength o)
    (bandwidth o) (nPhoton o) (tag o) (type o) v (fov o) (img_PS o)
    (nSubDirs o) (patch_padding o) (subDir_margin o) (sun_nopad o)
    (sun_padded o) (subDirs_coordinates o) (subDirs_sun o) (sun_subDir_ast o)
    (filter_2D o) (stdout o).
Definition with_fov (v : Q) (o : t) : t :=
  mk (is_initialized o) (display_properties o) (optBand o) (wavelength o)
    (bandwidth o) (nPhoton o) (tag o) (type o) (coordinates o) v (img_PS o)
    (nSubDirs o) (patch_padding o) (subDir_margin o) (sun_nopad o)
    (sun_padded o) (subDirs_coordinates o) (subDirs_sun o) (sun_subDir_ast o)
    (filter_2D o) (stdout o).
Definition with_img_PS (v : Q) (o : t) : t :=
  mk (is_initialized o) (display_properties o) (optBand o) (wavelength o)
    (bandwidth o) (nPhoton o) (tag o) (type o) (coordinates o) (fov o) v
    (nSubDirs o) (patch_padding o) (subDir_margin o) (sun_nopad o)
    (sun_padded o) (subDirs_coordinates o) (subDirs_sun o) (sun_subDir_ast o)
    (filter_2D o) (stdout o).
Definition with_nSubDirs (v : Z) (o : t) : t :=
  mk (is_initialized o) (display_properties o) (optBand o) (wavelength o)
    (bandwidth o) (nPhoton o) (tag o) (type o) (coordinates o) (fov o)
    (img_PS o) v (patch_padding o) (subDir_margin o) (sun_nopad o)
    (sun_padded o) (subDirs_coordinates o) (subDirs_sun o) (sun_subDir_ast o)
    (filter_2D o) (stdout o).
Definition with_patch_padding (v : Q) (o : t) : t :=
  mk (is_initialized o) (display_properties o) (optBand o) (wavelength o)
    (bandwidth o) (nPhoton o) (tag o) (type o) (coordinates o) (fov o)
    (img_PS o) (nSubDirs o) v (subDir_margin o) (sun_nopad o) (sun_padded o)
    (subDirs_coordinates o) (subDirs_sun o) (sun_subDir_ast o) (filter_2D o)
    (stdout o).
Definition with_subDir_margin (v : Q) (o : t) : t :=
  mk (is_initialized o) (display_properties o) (optBand o) (wavelength o)
    (bandwidth o) (nPhoton o) (tag o) (type o) (coordinates o) (fov o)
    (img_PS o) (nSubDirs o) (patch_padding o) v (sun_nopad o) (sun_padded o)
    (subDirs_coordinates o) (subDirs_sun o) (sun_subDir_ast o) (filter_2D o)
    (stdout o).
Definition with_sun_nopad (v : ndarray Q) (o : t) : t :=
  mk (is_initialized o) (display_properties o) (optBand o) (wavelength o)
    (bandwidth o) (nPhoton o) (tag o) (type o) (coordinates o) (fov o)
    (img_PS o) (nSubDirs o) (patch_padding o) (subDir_margin o) v
    (sun_padded o) (subDirs_coordinates o) (subDirs_sun o) (sun_subDir_ast o)
    (filter_2D o) (stdout o).
Definition with_sun_padded (v : ndarray Q) (o : t) : t :=
  mk (is_initialized o) (display_properties o) (optBand o) (wavelength o)
    (bandwidth o) (nPhoton o) (tag o) (type o) (coordinates o) (fov o)
    (img_PS o) (nSubDirs o) (patch_padding o) (subDir_margin o) (sun_nopad o)
    v (subDirs_coordinates o) (subDirs_sun o) (sun_subDir_ast o)
    (filter_2D o) (stdout o).
Definition with_subDirs_coordinates (v : ndarray Q) (o : t) : t :=
  mk (is_initialized o) (display_properties o) (optBand o) (wavelength o)
    (bandwidth o) (nPhoton o) (tag o) (type o) (coordinates o) (fov o)
    (img_PS o) (nSubDirs o) (patch_padding o) (subDir_margin o) (sun_nopad o)
    (sun_padded o) v (subDirs_sun o) (sun_subDir_ast o) (filter_2D o)
    (stdout o).
Definition with_subDirs_sun (v : ndarray Q) (o : t) : t :=
  mk (is_initialized o) (display_properties o) (optBand o) (wavelength o)
    (bandwidth o) (nPhoton o) (tag o) (type o) (coordinates o) (fov o)
    (img_PS o) (nSubDirs o) (patch_padding o) (subDir_margin o) (sun_nopad o)
    (sun_padded o) (subDirs_coordinates o) v (sun_subDir_ast o) (filter_2D o)
    (stdout o).
Definition with_sun_subDir_ast (v : Asterism.t) (o : t) : t :=
  mk (is_initialized o) (display_properties o) (optBand o) (wavelength o)
    (bandwidth o) (nPhoton o) (tag o) (type o) (coordinates o) (fov o)
    (img_PS o) (nSubDirs o) (patch_padding o) (subDir_margin o) (sun_nopad o)
    (sun_padded o) (subDirs_coordinates o) (subDirs_sun o) v (filter_2D o)
    (stdout o).
Definition with_filter_2D (v : ndarray Q) (o : t) : t :=
  mk (is_initialized o) (display_properties o) (optBand o) (wavelength o)
    (bandwidth o) (nPhoton o) (tag o) (type o) (coordinates o) (fov o)
    (img_PS o) (nSubDirs o) (patch_padding o) (subDir_margin o) (sun_nopad o)
    (sun_padded o) (subDirs_coordinates o) (subDirs_sun o) (sun_subDir_ast o)
    v (stdout o).
Definition with_stdout (v : list event) (o : t) : t :=
  mk (is_initialized o) (display_properties o) (optBand o) (wavelength o)
    (bandwidth o) (nPhoton o) (tag o) (type o) (coordinates o) (fov o)
    (img_PS o) (nSubDirs o) (patch_padding o) (subDir_margin o) (sun_nopad o)
    (sun_padded o) (subDirs_coordinates o) (subDirs_sun o) (sun_subDir_ast o)
    (filter_2D o) v.

End ExtendedSourceData.

(** What a telescope can be coupled to. *)
Inductive coupled : Type :=
| CSource (s : Source.t)
| CAsterism (a : Asterism.t)
| CSun (e : ExtendedSourceData.t).

Definition coupled_tag (c : coupled) : string :=
  match c with
  | CSource s => Source.tag s
  | CAsterism a => Asterism.tag a
  | CSun e => ExtendedSourceData.tag e
  end.

(** An optical path difference: a numpy array or a Python list of arrays. *)
Inductive pyopd : Type :=
| OPD_nd (a : Np.ndarray Q)
| OPD_list (l : list (Np.ndarray Q)).

(** A point-spread function: one array or a Python list of arrays. *)
Inductive pypsf : Type :=
| PSF_nd (a : Np.ndarray Q)
| PSF_list (l : list (Np.ndarray Q)).

(** A reflectivity: the scalar of the constructor's default or a map. *)
Inductive reflectivity : Type :=
| Refl_scalar (q : Q)
| Refl_map (a : Np.ndarray Q).

Module TelescopeData.
Import Np.

(** The attributes of a [Telescope] object that the modelled methods use.
    [optical_path] keeps the labels of the path and not the object
    identities. *)
Record t : Type := mk {
  isInitialized : bool;
  resolution : Z;
  D : Q;
  centralObstruction : Q;
  fov : Q;
  samplingTime : Q;
  optical_path : option (list string);
  user_defined_pupil : option (ndarray Q);
  pupilReflectivity : reflectivity;
  _pupil : ndarray Z;
  pixelArea : Z;
  pupilLogical : list Z;
  src : option coupled;
  _OPD : pyopd;
  _OPD_no_pupil : pyopd;
  mean_removed_OPD : option pyopd;
  spatialFilter : option (ndarray Q * ndarray Q);
  coronagraph_diameter : option Q;
  warning_src : bool;
  xPSF_arcsec : option (Q * Q);
  yPSF_arcsec : option (Q * Q);
  focal_EMF : option (ndarray (Q * Q));
  PSF : option pypsf;
  PSF_norma : option pypsf;
  PSF_sun : option (ndarray Q);
  PSF_sun_norma : option (ndarray Q);
  stdout : list event
}.

Definition with_isInitialized (v : bool) (o : t) : t :=
  mk v (resolution o) (D o) (centralObstruction o) (fov o) (samplingTime o)
    (optical_path o) (user_defined_pupil o) (pupilReflectivity o) (_pupil o)
    (pixelArea o) (pupilLogical o) (src o) (_OPD o) (_OPD_no_pupil o)
    (mean_removed_OPD o) (spatialFilter o) (coronagraph_diameter o)
    (warning_src o) (xPSF_arcsec o) (yPSF_arcsec o) (focal_EMF o) (PSF o)
    (PSF_norma o) (PSF_sun o) (PSF_sun_norma o) (stdout o).
Definition with_fov (v : Q) (o : t) : t :=
  mk (isInitialized o) (resolution o) (D o) (centralObstruction o) v
    (samplingTime o) (optical_path o) (user_defined_pupil o)
    (pupilReflectivity o) (_pupil o) (pixelArea o) (pupilLogical o) (src o)
    (_OPD o) (_OPD_no_pupil o) (mean_removed_OPD o) (spatialFilter o)
    (coronagraph_diameter o) (warning_src o) (xPSF_arcsec o) (yPSF_arcsec o)
    (focal_EMF o) (PSF o) (PSF_norma o) (PSF_sun o) (PSF_sun_norma o)
    (stdout o).
Definition with_spatialFilter (v : option (ndarray Q * ndarray Q)) (o : t) : t :=
  mk (isInitialized o) (resolution o) (D o) (centralObstruction o) (fov o)
    (samplingTime o) (optical_path o) (user_defined_pupil o)
    (pupilReflectivity o) (_pupil o) (pixelArea o) (pupilLogical o) (src o)
    (_OPD o) (_OPD_no_pupil o) (mean_removed_OPD o) v
    (coronagraph_diameter o) (warning_src o) (xPSF_arcsec o) (yPSF_arcsec o)
    (focal_EMF o) (PSF o) (PSF_norma o) (PSF_sun o) (PSF_sun_norma o)
    (stdout o).
Definition with_coronagraph_diameter (v : option Q) (o : t) : t :=
  mk (isInitialized o) (resolution o) (D o) (centralObstruction o) (fov o)
    (samplingTime o) (optical_path o) (user_defined_pupil o)
    (pupilReflectivity o) (_pupil o) (pixelArea o) (pupilLogical o) (src o)
    (_OPD o) (_OPD_no_pupil o) (mean_removed_OPD o) (spatialFilter o) v
    (warning_src o) (xPSF_arcsec o) (yPSF_arcsec o) (focal_EMF o) (PSF o)
    (PSF_norma o) (PSF_sun o) (PSF_sun_norma o) (stdout o).
Definition with_optical_path (v : option (list string)) (o : t) : t :=
  mk (isInitialized o) (resolution o) (D o) (centralObstruction o) (fov o)
    (samplingTime o) v (user_defined_pupil o) (pupilReflectivity o)
    (_pupil o) (pixelArea o) (pupilLogical o) (src o) (_OPD o)
    (_OPD_no_pupil o) (mean_removed_OPD o) (spatialFilter o)
    (coronagraph_diameter o) (warning_src o) (xPSF_arcsec o) (yPSF_arcsec o)
    (focal_EMF o) (PSF o) (PSF_norma o) (PSF_sun o) (PSF_sun_norma o)
    (stdout o).
Definition with_pupilReflectivity (v : reflectivity) (o : t) : t :=
  mk (isInitialized o) (resolution o) (D o) (centralObstruction o) (fov o)
    (samplingTime o) (optical_path o) (user_defined_pupil o) v (_pupil o)
    (pixelArea o) (pupilLogical o) (src o) (_OPD o) (_OPD_no_pupil o)
    (mean_removed_OPD o) (spatialFilter o) (coronagraph_diameter o)
    (warning_src o) (xPSF_arcsec o) (yPSF_arcsec o) (focal_EMF o) (PSF o)
    (PSF_norma o) (PSF_sun o) (PSF_sun_norma o) (stdout o).
Definition with__pupil (v : ndarray Z) (o : t) : t :=
  mk (isInitialized o) (resolution o) (D o) (centralObstruction o) (fov o)
    (samplingTime o) (optical_path o) (user_defined_pupil o)
    (pupilReflectivity o) v (pixelArea o) (pupilLogical o) (src o) (_OPD o)
    (_OPD_no_pupil o) (mean_removed_OPD o) (spatialFilter o)
    (coronagraph_diameter o) (warning_src o) (xPSF_arcsec o) (yPSF_arcsec o)
    (focal_EMF o) (PSF o) (PSF_norma o) (PSF_sun o) (PSF_sun_norma o)
    (stdout o).
Definition with_pixelArea (v : Z) (o : t) : t :=
  mk (isInitialized o) (resolution o) (D o) (centralObstruction o) (fov o)
    (samplingTime o) (optical_path o) (user_defined_pupil o)
    (pupilReflectivity o) (_pupil o) v (pupilLogical o) (src o) (_OPD o)
    (_OPD_no_pupil o) (mean_removed_OPD o) (spatialFilter o)
    (coronagraph_diameter o) (warning_src o) (xPSF_arcsec o) (yPSF_arcsec o)
    (focal_EMF o) (PSF o) (PSF_norma o) (PSF_sun o) (PSF_sun_norma o)
    (stdout o).
Definition with_pupilLogical (v : list Z) (o : t) : t :=
  mk (isInitialized o) (resolution o) (D o) (centralObstruction o) (fov o)
    (samplingTime o) (optical_path o) (user_defined_pupil o)
    (pupilReflectivity o) (_pupil o) (pixelArea o) v (src o) (_OPD o)
    (_OPD_no_pupil o) (mean_removed_OPD o) (spatialFilter o)
    (coronagraph_diameter o) (warning_src o) (xPSF_arcsec o) (yPSF_arcsec o)
    (focal_EMF o) (PSF o) (PSF_norma o) (PSF_sun o) (PSF_sun_norma o)
    (stdout o).
Definition with_src (v : option coupled) (o : t) : t :=
  mk (isInitialized o) (resolution o) (D o) (centralObstruction o) (fov o)
    (samplingTime o) (optical_path o) (user_defined_pupil o)
    (pupilReflectivity o) (_pupil o) (pixelArea o) (pupilLogical o) v
    (_OPD o) (_OPD_no_pupil o) (mean_removed_OPD o) (spatialFilter o)
    (coronagraph_diameter o) (warning_src o) (xPSF_arcsec o) (yPSF_arcsec o)
    (focal_EMF o) (PSF o) (PSF_norma o) (PSF_sun o) (PSF_sun_norma o)
    (stdout o).
Definition with__OPD (v : pyopd) (o : t) : t :=
  mk (isInitialized o) (resolution o) (D o) (centralObstruction o) (fov o)
    (samplingTime o) (optical_path o) (user_defined_pupil o)
    (pupilReflectivity o) (_pupil o) (pixelArea o) (pupilLogical o) (src o) v
    (_OPD_no_pupil o) (mean_removed_OPD o) (spatialFilter o)
    (coronagraph_diameter o) (warning_src o) (xPSF_arcsec o) (yPSF_arcsec o)
    (focal_EMF o) (PSF o) (PSF_norma o) (PSF_sun o) (PSF_sun_norma o)
    (stdout o).
Definition with__OPD_no_pupil (v : pyopd) (o : t) : t :=
  mk (isInitialized o) (resolution o) (D o) (centralObstruction o) (fov o)
    (samplingTime o) (optical_path o) (user_defined_pupil o)
    (pupilReflectivity o) (_pupil o) (pixelArea o) (pupilLogical o) (src o)
    (_OPD o) v (mean_removed_OPD o) (spatialFilter o)
    (coronagraph_diameter o) (warning_src o) (xPSF_arcsec o) (yPSF_arcsec o)
    (focal_EMF o) (PSF o) (PSF_norma o) (PSF_sun o) (PSF_sun_norma o)
    (stdout o).
Definition with_mean_removed_OPD (v : option pyopd) (o : t) : t :=
  mk (isInitialized o) (resolution o) (D o) (centralObstruction o) (fov o)
    (samplingTime o) (optical_path o) (user_defined_pupil o)
    (pupilReflectivity o) (_pupil o) (pixelArea o) (pupilLogical o) (src o)
    (_OPD o) (_OPD_no_pupil o) v (spatialFilter o) (coronagraph_diameter o)
    (warning_src o) (xPSF_arcsec o) (yPSF_arcsec o) (focal_EMF o) (PSF o)
    (PSF_norma o) (PSF_sun o) (PSF_sun_norma o) (stdout o).
Definition with_warning_src (v : bool) (o : t) : t :=
  mk (isInitialized o) (resolution o) (D o) (centralObstruction o) (fov o)
    (samplingTime o) (optical_path o) (user_defined_pupil o)
    (pupilReflectivity o) (_pupil o) (pixelArea o) (pupilLogical o) (src o)
    (_OPD o) (_OPD_no_pupil o) (mean_removed_OPD o) (spatialFilter o)
    (coronagraph_diameter o) v (xPSF_arcsec o) (yPSF_arcsec o) (focal_EMF o)
    (PSF o) (PSF_norma o) (PSF_sun o) (PSF_sun_norma o) (stdout o).
Definition with_xPSF_arcsec (v : option (Q * Q)) (o : t) : t :=
  mk (isInitialized o) (resolution o) (D o) (centralObstruction o) (fov o)
    (samplingTime o) (optical_path o) (user_defined_pupil o)
    (pupilReflectivity o) (_pupil o) (pixelArea o) (pupilLogical o) (src o)
    (_OPD o) (_OPD_no_pupil o) (mean_removed_OPD o) (spatialFilter o)
    (coronagraph_diameter o) (warning_src o) v (yPSF_arcsec o) (focal_EMF o)
    (PSF o) (PSF_norma o) (PSF_sun o) (PSF_sun_norma o) (stdout o).
Definition with_yPSF_arcsec (v : option (Q * Q)) (o : t) : t :=
  mk (isInitialized o) (resolution o) (D o) (centralObstruction o) (fov o)
    (samplingTime o) (optical_path o) (user_defined_pupil o)
    (pupilReflectivity o) (_pupil o) (pixelArea o) (pupilLogical o) (src o)
    (_OPD o) (_OPD_no_pupil o) (mean_removed_OPD o) (spatialFilter o)
    (coronagraph_diameter o) (warning_src o) (xPSF_arcsec o) v (focal_EMF o)
    (PSF o) (PSF_norma o) (PSF_sun o) (PSF_sun_norma o) (stdout o).
Definition with_focal_EMF (v : option (ndarray (Q * Q))) (o : t) : t :=
  mk (isInitialized o) (resolution o) (D o) (centralObstruction o) (fov o)
    (samplingTime o) (optical_path o) (user_defined_pupil o)
    (pupilReflectivity o) (_pupil o) (pixelArea o) (pupilLogical o) (src o)
    (_OPD o) (_OPD_no_pupil o) (mean_removed_OPD o) (spatialFilter o)
    (coronagraph_diameter o) (warning_src o) (xPSF_arcsec o) (yPSF_arcsec o)
    v (PSF o) (PSF_norma o) (PSF_sun o) (PSF_sun_norma o) (stdout o).
Definition with_PSF (v : option pypsf) (o : t) : t :=
  mk (isInitialized o) (resolution o) (D o) (centralObstruction o) (fov o)
    (samplingTime o) (optical_path o) (user_defined_pupil o)
    (pupilReflectivity o) (_pupil o) (pixelArea o) (pupilLogical o) (src o)
    (_OPD o) (_OPD_no_pupil o) (mean_removed_OPD o) (spatialFilter o)
    (coronagraph_diameter o) (warning_src o) (xPSF_arcsec o) (yPSF_arcsec o)
    (focal_EMF o) v (PSF_norma o) (PSF_sun o) (PSF_sun_norma o) (stdout o).
Definition with_PSF_norma (v : option pypsf) (o : t) : t :=
  mk (isInitialized o) (resolution o) (D o) (centralObstruction o) (fov o)
    (samplingTime o) (optical_path o) (user_defined_pupil o)
    (pupilReflectivity o) (_pupil o) (pixelArea o) (pupilLogical o) (src o)
    (_OPD o) (_OPD_no_pupil o) (mean_removed_OPD o) (spatialFilter o)
    (coronagraph_diameter o) (warning_src o) (xPSF_arcsec o) (yPSF_arcsec o)
    (focal_EMF o) (PSF o) v (PSF_sun o) (PSF_sun_norma o) (stdout o).
Definition with_PSF_sun (v : option (ndarray Q)) (o : t) : t :=
  mk (isInitialized o) (resolution o) (D o) (centralObstruction o) (fov o)
    (samplingTime o) (optical_path o) (user_defined_pupil o)
    (pupilReflectivity o) (_pupil o) (pixelArea o) (pupilLogical o) (src o)
    (_OPD o) (_OPD_no_pupil o) (mean_removed_OPD o) (spatialFilter o)
    (coronagraph_diameter o) (warning_src o) (xPSF_arcsec o) (yPSF_arcsec o)
    (focal_EMF o) (PSF o) (PSF_norma o) v (PSF_sun_norma o) (stdout o).
Definition with_PSF_sun_norma (v : option (ndarray Q)) (o : t) : t :=
  mk (isInitialized o) (resolution o) (D o) (centralObstruction o) (fov o)
    (samplingTime o) (optical_path o) (user_defined_pupil o)
    (pupilReflectivity o) (_pupil o) (pixelArea o) (pupilLogical o) (src o)
    (_OPD o) (_OPD_no_pupil o) (mean_removed_OPD o) (spatialFilter o)
    (coronagraph_diameter o) (warning_src o) (xPSF_arcsec o) (yPSF_arcsec o)
    (focal_EMF o) (PSF o) (PSF_norma o) (PSF_sun o) v (stdout o).
Definition with_stdout (v : list event) (o : t) : t :=
  mk (isInitialized o) (resolution o) (D o) (centralObstruction o) (fov o)
    (samplingTime o) (optical_path o) (user_defined_pupil o)
    (pupilReflectivity o) (_pupil o) (pixelArea o) (pupilLogical o) (src o)
    (_OPD o) (_OPD_no_pupil o) (mean_removed_OPD o) (spatialFilter o)
    (coronagraph_diameter o) (warning_src o) (xPSF_arcsec o) (yPSF_arcsec o)
    (focal_EMF o) (PSF o) (PSF_norma o) (PSF_sun o) (PSF_sun_norma o) v.

End TelescopeData.

Notation "x <-! c ;; k" :=
  (match c with inl e => inl e | inr x => k end)
  (at level 61, c at next level, right associativity) : py_scope.

(* ================================================================== *)
(** * ExtendedSource.py *)
(* ================================================================== *)

Module ExtendedSource.
Import Py Np Mon ExtendedSourceData.
Local Open Scope py_scope.

(** What [photometry] returns: a band [[wavelength, bandwidth, zeroPoint]],
    an integer, or the value of an attribute that the interpreter gives to
    every class. *)
Inductive phot_result : Type :=
| PhotBand (wavelength bandwidth zeroPoint : Q)
| PhotInt (z : Z)
| PhotClassAttr (name : string).

(** The attributes set on the local class [phot]. *)
Definition phot : list (string * phot_result) :=
  [ ("V"%string, PhotBand 0.500e-6 0.0 3.31e12);
    ("R"%string, PhotBand 0.700e-6 0.0 2.25e20);
    ("IR"%string, PhotBand 1.300e-6 0.0 0.5e20) ].

Fixpoint lookup (l : list (string * phot_result)) (name : string)
  : option phot_result :=
  match l with
  | [] => None
  | (k, v) :: l' => if String.eqb k name then Some v else lookup l' name
  end.

(** [tmp[k]] *)
Definition subscript (tmp : phot_result) (k : nat) : exn + Q :=
  match tmp with
  | PhotBand w b z =>
      match k with
      | 0%nat => inr w
      | 1%nat => inr b
      | 2%nat => inr z
      | _ => inl IndexError
      end
  | PhotInt _ => inl (TypeError "'int' object is not subscriptable")
  | PhotClassAttr _ => inl (TypeError "not a band")
  end.

(** [lin[k]] of the blending window of width [w]. *)
Definition lin (w k : Z) : Q :=
  (1 - Qabs (inject_Z k - (inject_Z w - 1) / 2) / ((inject_Z w - 1) / 2))%Q.

(** [filter_2D_template]: [np.tile(lin, (w, 1)) * lin[:, np.newaxis]] *)
Definition filter_2D_template (w : Z) : ndarray Q :=
  mk_nd [w; w]
    (fun ix => match ix with
               | [i; j] => (lin w j * lin w i)%Q
               | _ => 0%Q
               end).

(** The body of the loop that fills [filter_2D[:, :, dirX, dirY]], as the
    final content of that tile. *)
Definition filter_tile (template : ndarray Q) (subDir_size nSubDirs : Z)
    (dirX dirY : Z) : exn + ndarray Q :=
  let h := floordiv subDir_size 2 in
  let mh := floordiv (- subDir_size) 2 in
  let f := template in
  f <-! (if dirX =? 0
         then iadd2 f (sl 0 h) sl_all template (sl_from mh) sl_all
         else inr f) ;;
  f <-! (if dirX =? nSubDirs - 1
         then iadd2 f (sl_from mh) sl_all template (sl 0 h) sl_all
         else inr f) ;;
  f <-! (if dirY =? 0
         then iadd2 f sl_all (sl 0 h) template sl_all (sl_from mh)
         else inr f) ;;
  f <-! (if dirY =? nSubDirs - 1
         then iadd2 f sl_all (sl_from mh) template sl_all (sl 0 h)
         else inr f) ;;
  f <-! (if (dirX =? 0) && (dirY =? 0)
         then m <-! max template ;; fill2 f (sl 0 h) (sl 0 h) m
         else inr f) ;;
  f <-! (if (dirX =? 0) && (dirY =? nSubDirs - 1)
         then m <-! max template ;; fill2 f (sl 0 h) (sl_from mh) m
         else inr f) ;;
  f <-! (if (dirX =? nSubDirs - 1) && (dirY =? 0)
         then m <-! max template ;; fill2 f (sl_from mh) (sl 0 h) m
         else inr f) ;;
  f <-! (if (dirX =? nSubDirs - 1) && (dirY =? nSubDirs - 1)
         then m <-! max template ;; fill2 f (sl_from mh) (sl_from mh) m
         else inr f) ;;
  inr f.

(** The double loop over the tiles. *)
Fixpoint filter_loop (template : ndarray Q) (subDir_size nSubDirs : Z)
    (tiles : list (Z * Z)) (filter_2D : ndarray Q) : exn + ndarray Q :=
  match tiles with
  | [] => inr filter_2D
  | (dirX, dirY) :: tiles' =>
      f <-! filter_tile template subDir_size nSubDirs dirX dirY ;;
      filter_2D' <-! assign_tile filter_2D dirX dirY f ;;
      filter_loop template subDir_size nSubDirs tiles' filter_2D'
  end.

(** Lines 132 to 167: the blending filters for a window of [filt_width]
    pixels and [nSubDirs] tiles per side. *)
Definition build_filter_2D (filt_width nSubDirs : Z) : exn + ndarray Q :=
  filter_2D <-! zeros [filt_width; filt_width; nSubDirs; nSubDirs] ;;
  filter_loop (filter_2D_template filt_width) filt_width nSubDirs
    (range2 nSubDirs) filter_2D.

(** [a[k, x, y] = v] on a 3-D array, for an index in range. *)
Definition set3 (a : ndarray Q) (k x y : Z) (v : Q) : ndarray Q :=
  mk_nd (shape a)
    (fun ix =>
       match ix with
       | [k'; x'; y'] =>
           if (k' =? k) && (x' =? x) && (y' =? y) then v else item a ix
       | _ => item a ix
       end).

(** [subDir_size] of [get_subDirs]. *)
Definition subDir_size_of (self : t) : Q :=
  if 1 <? nSubDirs self
  then (2 * (fov self + patch_padding self)
        / inject_Z (nSubDirs self + 1))%Q
  else (fov self + patch_padding self)%Q.

Section WithPlatform.
Context `{P : Platform}.

Definition print (msg : string) : M t unit :=
  modify (fun o => with_stdout (stdout o ++ [Printed msg]) o).

(** [photometry(self, arg)] *)
Definition photometry (arg : pyobj) : M t phot_result :=
  match arg with
  | PyStr s =>
      match lookup phot s with
      | Some band => ret band
      | None =>
          if class_attr s then ret (PhotClassAttr s)
          else
            print "Error: Wrong name for the photometry object" ;;
            ret (PhotInt (-1))
      end
  | _ =>
      print "Error: The photometry object takes a scalar as an input" ;;
      ret (PhotInt (-1))
  end.

(** [print_properties(self)]: the lines are recorded as one event. *)
Definition print_properties : M t unit := print "SOURCE".

(** [load_sun_img(self)]; [fits_image] is what
    [fits.open(self.img_path)[0].data.astype('<f4')] evaluates to. *)
Definition load_sun_img (fits_image : exn + ndarray Q)
  : M t (ndarray Q * ndarray Q) :=
  self <- get ;;
  tmp_sun <- lift fits_image ;;
  s0 <- lift (shape_at tmp_sun 0) ;;
  s1 <- lift (shape_at tmp_sun 1) ;;
  let r := fst (coordinates self) in
  let theta := snd (coordinates self) in
  let cnt_x := (r * xp_cos_deg theta / img_PS self
                + inject_Z (floordiv s0 2))%Q in
  let cnt_y := (r * xp_sin_deg theta / img_PS self
                + inject_Z (floordiv s1 2))%Q in
  (if Qeq_bool (img_PS self) 0 then raise ZeroDivisionError else ret tt) ;;
  let width_subap_nopad := round (fov self / img_PS self) in
  let width_subap_pad :=
    round ((fov self + patch_padding self + subDir_margin self)
           / img_PS self) in
  let cx_nopad := round (cnt_x - inject_Z width_subap_nopad / 2) in
  let cy_nopad := round (cnt_y - inject_Z width_subap_nopad / 2) in
  let cx_pad := round (cnt_x - inject_Z width_subap_pad / 2) in
  let cy_pad := round (cnt_y - inject_Z width_subap_pad / 2) in
  sun_nopad <- lift (slice2 tmp_sun
                       (sl cx_nopad (cx_nopad + width_subap_nopad))
                       (sl cy_nopad (cy_nopad + width_subap_nopad))) ;;
  sun_pad <- lift (slice2 tmp_sun
                     (sl cx_pad (cx_pad + width_subap_pad))
                     (sl cy_pad (cy_pad + width_subap_pad))) ;;
  ret (sun_nopad, sun_pad).

(** The double loop of [get_subDirs]. *)
Fixpoint get_subDirs_loop (self : t) (subDir_size tel_x tel_y : Q)
    (tiles : list (Z * Z)) (subDir_loc subDir_imgs : ndarray Q)
  : exn + ndarray Q * ndarray Q :=
  match tiles with
  | [] => inr (subDir_loc, subDir_imgs)
  | (dirX, dirY) :: tiles' =>
      let dirx_c := (subDir_size / 2 + inject_Z dirX * (subDir_size / 2)
                     + - (fov self + patch_padding self) / 2)%Q in
      let diry_c := (subDir_size / 2 + inject_Z dirY * (subDir_size / 2)
                     + - (fov self + patch_padding self) / 2)%Q in
      let subDir_loc :=
        set3 subDir_loc 0 dirX dirY
          (xp_sqrt ((dirx_c + tel_x) ^ 2 + (diry_c + tel_y) ^ 2)) in
      let subDir_loc :=
        set3 subDir_loc 1 dirX dirY
          (xp_arctan2_deg (diry_c + tel_y) (dirx_c + tel_x)) in
      let subDir_loc := set3 subDir_loc 2 dirX dirY subDir_size in
      s0 <-! shape_at (sun_padded self) 0 ;;
      s1 <-! shape_at (sun_padded self) 1 ;;
      let cx := (dirx_c / img_PS self + inject_Z (floordiv s0 2))%Q in
      let cy := (diry_c / img_PS self + inject_Z (floordiv s1 2))%Q in
      let m := ((subDir_size + subDir_margin self)
                / (2 * img_PS self))%Q in
      crop <-! slice2 (sun_padded self)
                 (sl (round (cx - m)) (round (cx + m)))
                 (sl (round (cy - m)) (round (cy + m))) ;;
      subDir_imgs <-! assign_tile subDir_imgs dirX dirY crop ;;
      get_subDirs_loop self subDir_size tel_x tel_y tiles'
        subDir_loc subDir_imgs
  end.

(** [get_subDirs(self)] *)
Definition get_subDirs : M t (ndarray Q * ndarray Q) :=
  self <- get ;;
  let n := nSubDirs self in
  subDir_loc <- lift (zeros [3; n; n]) ;;
  let subDir_size := subDir_size_of self in
  let k := ceil ((subDir_size + subDir_margin self) / img_PS self) in
  subDir_imgs <- lift (zeros [k; k; n; n]) ;;
  let tel_x := (fst (coordinates self)
                * xp_cos_deg (snd (coordinates self)))%Q in
  let tel_y := (fst (coordinates self)
                * xp_sin_deg (snd (coordinates self)))%Q in
  lift (get_subDirs_loop self subDir_size tel_x tel_y (range2 n)
          subDir_loc subDir_imgs).

(** Lines 118 to 126: one [Source] per tile, with the flux of the tile. *)
Fixpoint subDirs_stars_loop (self : t) (tiles : list (Z * Z))
    (subDirs_stars : list Source.t) : exn + list Source.t :=
  match tiles with
  | [] => inr subDirs_stars
  | (dirX, dirY) :: tiles' =>
      band <-! match Source_photometry (optBand self) with
               | Some b => inr b
               | None => inl (TypeError "'int' object is not subscriptable")
               end ;;
      let star :=
        Source.new (optBand self) (fst band) (snd band)
          (item (subDirs_coordinates self) [0; dirX; dirY],
           item (subDirs_coordinates self) [1; dirX; dirY]) in
      let star :=
        Source.with_nPhoton
          (inject_Z
             (round (nPhoton self
                     / inject_Z (nSubDirs self * nSubDirs self))))
          star in
      subDirs_stars_loop self tiles' (subDirs_stars ++ [star])
  end.

(** [__init__]; [fits_image] is the content of the file at [img_path]. *)
Definition __init__ (optBand : pyobj) (coordinates : Q * Q) (fov : Q)
    (display_properties : bool) (fits_image : exn + ndarray Q) (img_PS : Q)
    (nSubDirs : Z) (patch_padding subDir_margin : Q) : M t unit :=
  modify (with_is_initialized false) ;;
  tmp <- photometry optBand ;;
  modify (with_display_properties display_properties) ;;
  tmp <- photometry optBand ;;
  modify (with_optBand optBand) ;;
  wavelength <- lift (subscript tmp 0) ;;
  modify (with_wavelength wavelength) ;;
  bandwidth <- lift (subscript tmp 1) ;;
  modify (with_bandwidth bandwidth) ;;
  nPhoton <- lift (subscript tmp 2) ;;
  modify (with_nPhoton nPhoton) ;;
  modify (with_tag "sun") ;;
  modify (with_coordinates coordinates) ;;
  modify (with_fov fov) ;;
  modify (with_img_PS img_PS) ;;
  modify (with_nSubDirs nSubDirs) ;;
  modify (with_patch_padding patch_padding) ;;
  modify (with_subDir_margin subDir_margin) ;;
  modify (with_type "SUN") ;;
  (if display_properties then print_properties else ret tt) ;;
  imgs <- load_sun_img fits_image ;;
  modify (with_sun_nopad (fst imgs)) ;;
  modify (with_sun_padded (snd imgs)) ;;
  (if 7 <? nSubDirs
   then raise (BaseException
                 "Too many directions, processing will not be feasible")
   else ret tt) ;;
  subDirs <- get_subDirs ;;
  modify (with_subDirs_coordinates (fst subDirs)) ;;
  modify (with_subDirs_sun (snd subDirs)) ;;
  self <- get ;;
  subDirs_stars <- lift (subDirs_stars_loop self (range2 nSubDirs) []) ;;
  modify (with_sun_subDir_ast (Asterism.new subDirs_stars)) ;;
  size <- lift (if (0 <? nSubDirs)
                then inr (item (fst subDirs) [2; 0; 0])
                else inl IndexError) ;;
  let filt_width := round (size / img_PS) in
  filter_2D <- lift (build_filter_2D filt_width nSubDirs) ;;
  modify (with_filter_2D filter_2D) ;;
  modify (with_is_initialized true).

(** An object before [__init__] has run. *)
Definition blank : t :=
  let empty := mk_nd [] (fun _ => 0%Q) in
  mk false false PyNone 0 0 0 "" "" (0%Q, 0%Q) 0 0 0 0 0
     empty empty empty empty (Asterism.new []) empty [].

(** The call [ExtendedSource(...)]: the new object if [__init__] returns,
    and only the exception if it raises. *)
Definition new (optBand : pyobj) (coordinates : Q * Q) (fov : Q)
    (display_properties : bool) (fits_image : exn + ndarray Q) (img_PS : Q)
    (nSubDirs : Z) (patch_padding subDir_margin : Q) : exn + t :=
  match __init__ optBand coordinates fov display_properties fits_image
          img_PS nSubDirs patch_padding subDir_margin blank with
  | (_, inl e) => inl e
  | (self, inr _) => inr self
  end.

End WithPlatform.

End ExtendedSource.

(* ================================================================== *)
(** * Telescope.py *)
(* ================================================================== *)

Module Telescope.
Import Py Np Mon TelescopeData.
Local Open Scope py_scope.

(** [a * 2 * np.pi / wavelength] *)
Definition to_phase (a : ndarray Q) (wavelength : Q) : ndarray Q :=
  map_nd (fun x => (x * 2 * pi / wavelength)%Q) a.

(** [a * (2 * np.pi / wavelength)] *)
Definition to_phase' (a : ndarray Q) (wavelength : Q) : ndarray Q :=
  map_nd (fun x => (x * (2 * pi / wavelength))%Q) a.

(** [np.ndim(v)] of an optical path difference. *)
Definition opd_ndim (v : pyopd) : Z :=
  match v with
  | OPD_nd a => ndim a
  | OPD_list [] => 1
  | OPD_list (a :: _) => 1 + ndim a
  end.

(** [v[i]] and [v[i] = x] *)
Definition opd_get (v : pyopd) (i : Z) : exn + ndarray Q :=
  match v with
  | OPD_nd a => getitem a i
  | OPD_list l => list_get l i
  end.

Definition opd_set (v : pyopd) (i : Z) (x : ndarray Q) : exn + pyopd :=
  match v with
  | OPD_nd a => a' <-! setitem a i x ;; inr (OPD_nd a')
  | OPD_list l => l' <-! list_set l i x ;; inr (OPD_list l')
  end.

(** The attributes [src], [sun_subDir_ast] and the members of a source
    object; an object of another class has no such attribute. *)
Definition asterism_of (c : coupled) : exn + Asterism.t :=
  match c with
  | CAsterism a => inr a
  | _ => inl (AttributeError "object has no attribute 'src'")
  end.

Definition sun_of (c : coupled) : exn + ExtendedSourceData.t :=
  match c with
  | CSun e => inr e
  | _ => inl (AttributeError "object has no attribute 'sun_subDir_ast'")
  end.

(** [self.src.wavelength], which an asterism does not have. *)
Definition wavelength_of (c : coupled) : exn + Q :=
  match c with
  | CSource s => inr (Source.wavelength s)
  | CSun e => inr (ExtendedSourceData.wavelength e)
  | CAsterism _ => inl (AttributeError "object has no attribute 'wavelength'")
  end.

(** Writing one attribute of the member [i] of the coupled asterism, or of
    the sub-directions of the coupled sun. *)
Definition update_member (i : Z) (f : Source.t -> Source.t) (c : coupled)
  : exn + coupled :=
  match c with
  | CAsterism a =>
      s <-! list_get (Asterism.src a) i ;;
      l <-! list_set (Asterism.src a) i (f s) ;;
      inr (CAsterism (Asterism.with_src l a))
  | CSun e =>
      let a := ExtendedSourceData.sun_subDir_ast e in
      s <-! list_get (Asterism.src a) i ;;
      l <-! list_set (Asterism.src a) i (f s) ;;
      inr (CSun (ExtendedSourceData.with_sun_subDir_ast
                   (Asterism.with_src l a) e))
  | CSource _ => inl (AttributeError "object has no attribute 'src'")
  end.

(** The members the loops of the setters run over. *)
Definition members (c : coupled) : list Source.t :=
  match c with
  | CAsterism a => Asterism.src a
  | CSun e => Asterism.src (ExtendedSourceData.sun_subDir_ast e)
  | CSource s => [s]
  end.

Definition n_members (c : coupled) : Z := Z.of_nat (length (members c)).

Section WithPlatform.
Context `{P : Platform}.

Definition print (msg : string) : M t unit :=
  modify (fun o => with_stdout (stdout o ++ [Printed msg]) o).

Definition warn_outside_fov (msg : string) : M t unit :=
  modify (fun o => with_stdout (stdout o ++ [OutsideFov msg]) o).

(** The getter of [pupil]. *)
Definition pupil (self : t) : ndarray Z := _pupil self.

(** The setter of [pupil]. *)
Definition pupil_setter (val : ndarray Q) : M t unit :=
  modify (with__pupil (to_int val)) ;;
  self <- get ;;
  modify (with_pixelArea (sumZ (_pupil self))) ;;
  (if size (_pupil self) =? resolution self ^ 2 then ret tt
   else raise (ValueError "cannot reshape array")) ;;
  modify (with_pupilLogical (where_positive (_pupil self))) ;;
  modify (with_pupilReflectivity (Refl_map (to_float (pupil self)))) ;;
  if isInitialized self
  then print "Warning!: A new pupil is now considered, its reflectivity is considered to be uniform. Assign the proper reflectivity map to tel.pupilReflectivity if required."
  else ret tt.

(** [self.pupil.astype(float) * self.pupilReflectivity] *)
Definition times_reflectivity (p : ndarray Q) (r : reflectivity)
  : exn + ndarray Q :=
  match r with
  | Refl_scalar q => inr (scale q p)
  | Refl_map a => mul p a
  end.

Definition bool_to_Q (b : bool) : Q := if b then 1%Q else 0%Q.
Definition bool_to_Z (b : bool) : Z := if b then 1 else 0.

(** [set_pupil(self)] *)
Definition set_pupil : M t unit :=
  self <- get ;;
  match user_defined_pupil self with
  | None =>
      let D := inject_Z (resolution self + 1) in
      let res := inject_Z (resolution self) in
      let x := linspace (- res / 2) (res / 2) (resolution self) in
      let circle i j := (x j ^ 2 + x i ^ 2)%Q in
      (if resolution self <? 0
       then raise (ValueError "Number of samples must be non-negative")
       else ret tt) ;;
      let grid f :=
        mk_nd [resolution self; resolution self]
          (fun ix => match ix with
                     | [i; j] => f i j
                     | _ => 0%Q
                     end) in
      let obs i j :=
        Qle_bool ((centralObstruction self * D / 2) ^ 2) (circle i j) in
      pupil_setter
        (grid (fun i j => bool_to_Q (Qltb (circle i j) ((D / 2) ^ 2)))) ;;
      self <- get ;;
      pupil_setter
        (grid (fun i j =>
                 (inject_Z (item (pupil self) [i; j])
                  * bool_to_Q (obs i j))%Q))
  | Some user =>
      print "User-defined pupil, the central obstruction will not be taken into account..." ;;
      pupil_setter user
  end ;;
  self <- get ;;
  refl <- lift (times_reflectivity (to_float (pupil self))
                  (pupilReflectivity self)) ;;
  modify (with_pupilReflectivity (Refl_map refl)) ;;
  modify (with_pixelArea (sumZ (pupil self))) ;;
  (if size (pupil self) =? resolution self * resolution self then ret tt
   else raise (ValueError "cannot reshape array")) ;;
  modify (with_pupilLogical (where_positive (pupil self))).

(** [(a - np.mean(a[np.where(self.pupil == 1)])) * self.pupil] *)
Definition mean_removed (self : t) (a : ndarray Q) : exn + ndarray Q :=
  let m := xp_mean_where a (pupil self) in
  mul (map_nd (fun x => (x - m)%Q) a) (to_float (pupil self)).

(** Writing the coupled object through [self.src]. *)
Definition set_member_phase (i : Z) (ph : ndarray Q) : M t unit :=
  self <- get ;;
  match src self with
  | None => raise (AttributeError "'NoneType' object has no attribute 'src'")
  | Some c =>
      c' <- lift (update_member i (Source.with_phase (Some ph)) c) ;;
      modify (with_src (Some c'))
  end.

Definition set_member_phase_no_pupil (i : Z) (ph : ndarray Q) : M t unit :=
  self <- get ;;
  match src self with
  | None => raise (AttributeError "'NoneType' object has no attribute 'src'")
  | Some c =>
      c' <- lift (update_member i
                    (Source.with_phase_no_pupil (Some ph)) c) ;;
      modify (with_src (Some c'))
  end.

(** [self.mean_removed_OPD[i] = (...)] when [np.ndim(self.OPD[i]) == 2] *)
Definition update_mean_removed (i : Z) : M t unit :=
  self <- get ;;
  opd_i <- lift (opd_get (_OPD self) i) ;;
  if ndim opd_i =? 2 then
    v <- lift (mean_removed self opd_i) ;;
    match mean_removed_OPD self with
    | None => raise (AttributeError "mean_removed_OPD")
    | Some m =>
        m' <- lift (opd_set m i v) ;;
        modify (with_mean_removed_OPD (Some m'))
    end
  else ret tt.

(** The setter of [OPD]. *)
Definition OPD_setter (val : pyopd) : M t unit :=
  modify (with__OPD val) ;;
  self <- get ;;
  match src self with
  | None => ret tt
  | Some c =>
      match val with
      | OPD_nd a =>
          if String.eqb (coupled_tag c) "source" then
            match c with
            | CSource s =>
                modify (with_src
                          (Some (CSource
                                   (Source.with_phase
                                      (Some (to_phase a (Source.wavelength s)))
                                      s)))) ;;
                if ndim a =? 2 then
                  v <- lift (mean_removed self a) ;;
                  modify (with_mean_removed_OPD (Some (OPD_nd v)))
                else ret tt
            | _ => raise (AttributeError "object has no attribute 'wavelength'")
            end
          else if String.eqb (coupled_tag c) "asterism" then
            modify (with_mean_removed_OPD (Some val)) ;;
            ast <- lift (asterism_of c) ;;
            for_each (range (Asterism.n_source ast))
              (fun i =>
                 s <- lift (list_get (Asterism.src ast) i) ;;
                 set_member_phase i (to_phase a (Source.wavelength s)) ;;
                 update_mean_removed i)
          else if String.eqb (coupled_tag c) "sun" then
            modify (with_mean_removed_OPD (Some val)) ;;
            sun <- lift (sun_of c) ;;
            let ast := ExtendedSourceData.sun_subDir_ast sun in
            for_each (range (Asterism.n_source ast))
              (fun i =>
                 s <- lift (list_get (Asterism.src ast) i) ;;
                 a_i <- lift (getitem a i) ;;
                 set_member_phase i (to_phase a_i (Source.wavelength s)) ;;
                 update_mean_removed i)
          else raise (TypeError "The wrong object was attached to the telescope")
      | OPD_list l =>
          if String.eqb (coupled_tag c) "asterism" then
            ast <- lift (asterism_of c) ;;
            if Z.of_nat (length l) =? Asterism.n_source ast then
              modify (with_mean_removed_OPD (Some val)) ;;
              for_each (range (Asterism.n_source ast))
                (fun i =>
                   s <- lift (list_get (Asterism.src ast) i) ;;
                   a_i <- lift (list_get l i) ;;
                   set_member_phase i (to_phase a_i (Source.wavelength s)) ;;
                   update_mean_removed i)
            else ret tt
          else if String.eqb (coupled_tag c) "sun" then
            modify (with_mean_removed_OPD (Some val)) ;;
            sun <- lift (sun_of c) ;;
            let ast := ExtendedSourceData.sun_subDir_ast sun in
            for_each (range (Asterism.n_source ast))
              (fun i =>
                 s <- lift (list_get (Asterism.src ast) i) ;;
                 a_i <- lift (list_get l i) ;;
                 set_member_phase i (to_phase a_i (Source.wavelength s)) ;;
                 update_mean_removed i)
          else raise (TypeError "A list of OPD cannnot be propagated to a single source")
      end
  end.

(** The setter of [OPD_no_pupil]. *)
Definition OPD_no_pupil_setter (val : pyopd) : M t unit :=
  modify (with__OPD_no_pupil val) ;;
  self <- get ;;
  match src self with
  | None => ret tt
  | Some c =>
      match val with
      | OPD_nd a =>
          if String.eqb (coupled_tag c) "source" then
            match c with
            | CSource s =>
                modify (with_src
                          (Some (CSource
                                   (Source.with_phase_no_pupil
                                      (Some (to_phase a (Source.wavelength s)))
                                      s))))
            | _ => raise (AttributeError "object has no attribute 'wavelength'")
            end
          else if String.eqb (coupled_tag c) "asterism" then
            ast <- lift (asterism_of c) ;;
            for_each (range (Asterism.n_source ast))
              (fun i =>
                 a_i <- lift (getitem a i) ;;
                 s <- lift (list_get (Asterism.src ast) i) ;;
                 set_member_phase_no_pupil i
                   (to_phase a_i (Source.wavelength s)))
          else if String.eqb (coupled_tag c) "sun" then
            sun <- lift (sun_of c) ;;
            let ast := ExtendedSourceData.sun_subDir_ast sun in
            for_each (range (Asterism.n_source ast))
              (fun i =>
                 a_i <- lift (getitem a i) ;;
                 s <- lift (list_get (Asterism.src ast) i) ;;
                 set_member_phase_no_pupil i
                   (to_phase a_i (Source.wavelength s)))
          else raise (TypeError "The wrong object was attached to the telescope")
      | OPD_list l =>
          if String.eqb (coupled_tag c) "asterism" then
            ast <- lift (asterism_of c) ;;
            if Z.of_nat (length l) =? Asterism.n_source ast then
              for_each (range (Asterism.n_source ast))
                (fun i =>
                   a_i <- lift (list_get l i) ;;
                   s <- lift (list_get (Asterism.src ast) i) ;;
                   set_member_phase_no_pupil i
                     (to_phase a_i (Source.wavelength s)))
            else raise (TypeError "The lenght of the OPD list does not match the number of sources")
          else if String.eqb (coupled_tag c) "sun" then
            sun <- lift (sun_of c) ;;
            let ast := ExtendedSourceData.sun_subDir_ast sun in
            if Z.of_nat (length l) =? Asterism.n_source ast then
              for_each (range (Asterism.n_source ast))
                (fun i =>
                   a_i <- lift (list_get l i) ;;
                   s <- lift (list_get (Asterism.src ast) i) ;;
                   set_member_phase_no_pupil i
                     (to_phase a_i (Source.wavelength s)))
            else raise (TypeError "The lenght of the OPD list does not match the number of subDirs defined for the sun")
          else ret tt
      end
  end.


(** [meshgrid] of [linspace(0, N - 1, N)] with itself: [xx[i][j] = j] and
    [yy[i][j] = i]. *)
Definition grid {A} (n : Z) (f : Z -> Z -> A) (default : A) : ndarray A :=
  mk_nd [n; n]
    (fun ix => match ix with
               | [i; j] => f i j
               | _ => default
               end).

(** The two bounds [ids] of the crop of an [N] by [N] transform to
    [img_size] pixels. *)
Definition shift_pix (N img_size : Z) : Z :=
  if pymod N 2 =? pymod img_size 2 then 0
  else if pymod N 2 =? 0 then 1 else -1.

Definition crop_ids (N img_size : Z) : Z * Z :=
  (ceil (inject_Z N / 2) - floordiv img_size 2 + (1 - pymod N 2) - 1,
   ceil (inject_Z N / 2) + floordiv img_size 2 + shift_pix N img_size).

(** [xp.fft.fft2(a)], [xp.fft.ifft2(a)] *)
Definition fft2 (a : ndarray (Q * Q)) : ndarray (Q * Q) :=
  mk_nd (shape a) (xp_fft2 a).
Definition ifft2 (a : ndarray (Q * Q)) : ndarray (Q * Q) :=
  mk_nd (shape a) (xp_ifft2 a).

(** The integer oversampling applied when the point-spread function is
    undersampled. *)
Definition integer_oversampling (zeroPaddingFactor : Q) (oversampling : Z)
  : exn + Z :=
  if Qltb (zeroPaddingFactor * inject_Z oversampling) 2
  then if Qeq_bool zeroPaddingFactor 0 then inl ZeroDivisionError
       else inr (ceil (2.0 / zeroPaddingFactor))
  else inr oversampling.

(** What one run of [PropagateField] computes. *)
Record propagation : Type := mk_propagation {
  p_oversampling : Z;
  p_img_size : Z;
  p_N : Z;
  p_transform : ndarray (Q * Q);
  p_focal_EMF : ndarray (Q * Q)
}.

(** The body of [PropagateField] up to the crop of the transform, that is
    up to its first attribute write.  The masks of the coronagraph branch
    ([apodiser], [focalMask], [lyotStop], [B], [C]) are locals here. *)
Definition propagate (self : t) (amplitude phase : ndarray Q)
    (zeroPaddingFactor : Q) (img_resolution : option Q)
  : exn + propagation :=
  let oversampling := 1 in
  resolution <-! shape_at (pupil self) 0 ;;
  img_resolution <-!
    match img_resolution with
    | Some r =>
        if Qgtb r (zeroPaddingFactor * inject_Z resolution)
        then inl (ValueError "Error: image has too many pixels for this pupil sampling. Try using a pupil mask with more pixels")
        else inr r
    | None => inr (zeroPaddingFactor * inject_Z resolution)%Q
    end ;;
  oversampling <-! integer_oversampling zeroPaddingFactor oversampling ;;
  let img_size := ceil (img_resolution * inject_Z oversampling) in
  let N := fix_ (zeroPaddingFactor * inject_Z oversampling
                 * inject_Z resolution) in
  let pad_width := ceil (inject_Z (N - resolution) / 2) in
  support <-! map2 (fun a ph => cscale a (xp_exp_i ph)) amplitude phase ;;
  supportPadded <-! pad2 (0%Q, 0%Q) support pad_width pad_width ;;
  N <-! shape_at supportPadded 0 ;;
  let xxc i j := (inject_Z j - (inject_Z N - 1) / 2)%Q in
  let yyc i j := (inject_Z i - (inject_Z N - 1) / 2)%Q in
  let phasor : exn + ndarray (Q * Q) :=
    if N =? 0 then inl ZeroDivisionError
    else inr (grid N (fun i j =>
                        xp_exp_i (- (pi / inject_Z N) * inject_Z (j + i)
                                  * (1 - fmod2 img_resolution)))
                (0%Q, 0%Q)) in
  EMF <-!
    match coronagraph_diameter self with
    | Some diameter =>
        let apodiser :=
          grid N (fun i j =>
                    bool_to_Q
                      (Qltb (xp_sqrt (xxc i j ^ 2 + yyc i j ^ 2))
                         (inject_Z (TelescopeData.resolution self) / 2)))
            0%Q in
        pupilSpiderPadded <-! pad2 0 (pupil self) pad_width pad_width ;;
        let focalMask :=
          grid N (fun i j =>
                    bool_to_Q
                      (Qgtb (xp_sqrt (xxc i j ^ 2 + yyc i j ^ 2))
                         (diameter / 2 * zeroPaddingFactor)))
            0%Q in
        lyotStop <-!
          map2 (fun a b => (a * inject_Z b)%Q)
            (grid N (fun i j =>
                       bool_to_Q
                         (Qltb (xp_sqrt ((xxc i j - 1.0) ^ 2
                                         + (yyc i j - 1.0) ^ 2))
                            (inject_Z N / 2 * 0.9)))
               0%Q)
            pupilSpiderPadded ;;
        phasor <-! phasor ;;
        f <-! map2 cmul supportPadded phasor ;;
        f <-! map2 (fun z a => cscale a z) f apodiser ;;
        let EMF := fftshift (map_nd (cscale (1 / inject_Z N))
                               (fft2 (ifftshift f))) in
        B <-! map2 (fun z a => cscale a z) EMF focalMask ;;
        B <-! map2 cmul B phasor ;;
        C <-! map2 (fun z a => cscale a z)
                (fftshift (ifft2 (ifftshift B))) lyotStop ;;
        C <-! map2 cmul C phasor ;;
        inr (fftshift (fft2 (ifftshift C)))
    | None =>
        phasor <-! phasor ;;
        f <-! map2 cmul supportPadded phasor ;;
        inr (fftshift (map_nd (cscale (1 / inject_Z N))
                         (fft2 (ifftshift f))))
    end ;;
  let ids := crop_ids N img_size in
  cropped <-! slice2 EMF (sl (fst ids) (snd ids)) (sl (fst ids) (snd ids)) ;;
  inr (mk_propagation oversampling img_size N EMF cropped).

(** The right-hand side of the assignment to [self.PSF]: the squared
    modulus of the cropped field, binned by the oversampling when that is
    not 1. *)
Definition focal_PSF (r : propagation) : exn + ndarray Q :=
  let irradiance := map_nd (fun z => (xp_abs z ^ 2)%Q) (p_focal_EMF r) in
  if negb (p_oversampling r =? 1)
  then set_binning irradiance (p_oversampling r)
  else inr irradiance.

(** [PropagateField(self, amplitude, phase, zeroPaddingFactor,
    img_resolution)]: [focal_EMF] is written before the binning, which can
    raise. *)
Definition PropagateField (amplitude phase : ndarray Q)
    (zeroPaddingFactor : Q) (img_resolution : option Q) : M t Z :=
  self <- get ;;
  r <- lift (propagate self amplitude phase zeroPaddingFactor
               img_resolution) ;;
  modify (with_focal_EMF (Some (p_focal_EMF r))) ;;
  PSF <- lift (focal_PSF r) ;;
  modify (with_PSF (Some (PSF_nd PSF))) ;;
  ret (p_oversampling r).


(** [(180 / np.pi) * 3600] *)
Definition conversion_constant : Q := (180 / pi * 3600)%Q.

(** Lines 218 to 226 of [computePSF]: the phase of the coupled object is
    recomputed from the current [OPD]. *)
Definition sync_phase : M t unit :=
  self <- get ;;
  match src self with
  | None => raise (AttributeError "'NoneType' object has no attribute 'tag'")
  | Some c =>
      if String.eqb (coupled_tag c) "sun" then
        sun <- lift (sun_of c) ;;
        let n := ExtendedSourceData.nSubDirs sun in
        for_each (range (n ^ 2))
          (fun i =>
             self <- get ;;
             opd_i <- lift (opd_get (_OPD self) i) ;;
             (if Qeq_bool (ExtendedSourceData.wavelength sun) 0
              then raise ZeroDivisionError else ret tt) ;;
             set_member_phase i
               (to_phase' opd_i (ExtendedSourceData.wavelength sun)))
      else if String.eqb (coupled_tag c) "asterism" then
        ast <- lift (asterism_of c) ;;
        for_each (range (Z.of_nat (length (Asterism.src ast))))
          (fun i =>
             self <- get ;;
             opd_i <- lift (opd_get (_OPD self) i) ;;
             s <- lift (list_get (Asterism.src ast) i) ;;
             (if Qeq_bool (Source.wavelength s) 0
              then raise ZeroDivisionError else ret tt) ;;
             set_member_phase i (to_phase' opd_i (Source.wavelength s)))
      else
        match c, _OPD self with
        | CSource s, OPD_nd a =>
            (if Qeq_bool (Source.wavelength s) 0
             then raise ZeroDivisionError else ret tt) ;;
            modify (with_src
                      (Some (CSource
                               (Source.with_phase
                                  (Some (to_phase' a (Source.wavelength s)))
                                  s))))
        | CSource s, OPD_list _ =>
            (if Qeq_bool (Source.wavelength s) 0
             then raise ZeroDivisionError else ret tt) ;;
            raise (TypeError "can't multiply sequence by non-int of type 'float'")
        | _, _ => raise (AttributeError "object has no attribute 'wavelength'")
        end
  end.

(** [input_source] of [computePSF]. *)
Definition input_source_of (c : coupled) : exn + list Source.t :=
  if String.eqb (coupled_tag c) "asterism" then
    a <-! asterism_of c ;; inr (Asterism.src a)
  else if String.eqb (coupled_tag c) "sun" then
    e <-! sun_of c ;; inr (Asterism.src (ExtendedSourceData.sun_subDir_ast e))
  else
    match c with
    | CSource s => inr [s]
    | _ => inl (AttributeError "object has no attribute 'wavelength'")
    end.

(** [amp], with the phase map that goes with it, for one source. *)
Definition member_amp (self : t) (s : Source.t)
  : exn + ndarray Q * option (ndarray Q) :=
  let pup := to_float (pupil self) in
  let flux :=
    match Source.fluxMap s with
    | Some f => map_nd xp_sqrt f
    | None => mk_nd [0] (fun _ => 0%Q)
    end in
  match spatialFilter self with
  | None =>
      amp <-! mul pup flux ;;
      inr (amp, Source.phase s)
  | Some (amplitude_filtered, phase_filtered) =>
      amp <-! mul amplitude_filtered pup ;;
      amp <-! mul amp flux ;;
      inr (amp, Some phase_filtered)
  end.

(** [self.delta_TT]: a product with the factor 0, hence the zero map of the
    shape of [(cos(...) * Tip + sin(...) * Tilt) * self.pupil]. *)
Definition member_delta_TT (self : t) (s : Source.t) : exn + ndarray Q :=
  _ <-! (if resolution self <? 0
         then inl (ValueError "Number of samples must be non-negative")
         else inr tt) ;;
  _ <-! (if Qeq_bool (Source.wavelength s) 0 then inl ZeroDivisionError
         else inr tt) ;;
  mul (mk_nd [resolution self; resolution self] (fun _ => 0%Q))
    (to_float (pupil self)).

(** [phase + self.delta_TT * factor], with [factor = 1]. *)
Definition member_phase (phase : option (ndarray Q)) (delta_TT : ndarray Q)
  : exn + ndarray Q :=
  match phase with
  | None => inl (TypeError "unsupported operand type(s) for +")
  | Some ph => add ph (scale 1 delta_TT)
  end.

(** The test of lines 276 to 287. *)
Definition outside_fov (self : t) (c : coupled) (s : Source.t)
    (xPSF_arcsec yPSF_arcsec : Q * Q) : bool :=
  if String.eqb (coupled_tag c) "sun" then
    let diagonal_semi_length :=
      xp_sqrt (fst xPSF_arcsec ^ 2 + fst yPSF_arcsec ^ 2) in
    let farthest_corner :=
      (fst (Source.coordinates s) + diagonal_semi_length)%Q in
    Qgtb farthest_corner (fov self)
  else
    Qgtb (fst (Source.coordinates s))
      (Qmaxb (fst xPSF_arcsec) (snd xPSF_arcsec)).

(** Lines 276 to 287: the warning on a source outside of the field of
    view, which is written while [warning_src] is [False] and sets it. *)
Definition fov_warning (c : coupled) (s : Source.t)
    (xPSF_arcsec yPSF_arcsec : Q * Q) : M t unit :=
  self <- get ;;
  if outside_fov self c s xPSF_arcsec yPSF_arcsec then
    if negb (warning_src self) then
      warn_outside_fov
        (if String.eqb (coupled_tag c) "sun"
         then "Warning : Some Sources are outside of the field of view of the telescope -- Wrapping effects will appear"
         else "Warning : Some Sources are outside of the field of view of the detector -- Wrapping effects will appear") ;;
      modify (with_warning_src true)
    else ret tt
  else ret tt.

(** [a / np.sum(a)] *)
Definition normalised (a : ndarray Q) : ndarray Q :=
  map_nd (fun x => (x / sum a)%Q) a.

(** One turn of the loop over [input_source]: the wavelength test, the
    axes, the warning, the propagation.  It returns the two arrays that the
    loop appends to [output_PSF] and [output_PSF_norma]. *)
Definition computePSF_step (c : coupled) (input_wavelenght : Q)
    (zeroPaddingFactor img_resolution : Q) (s : Source.t)
  : M t (ndarray Q * ndarray Q) :=
  (if Qeq_bool input_wavelenght (Source.wavelength s) then ret tt
   else if String.eqb (coupled_tag c) "asterism"
        then raise (AttributeError "The asterism contains sources with different wavelengths. Summing up PSFs with different wavelength is not implemented.")
        else raise (AttributeError "The subDirs wavelengths are different, which does not make sense, the subDirs shall share the conditions of the principal direction.")) ;;
  self <- get ;;
  amp <- lift (member_amp self s) ;;
  delta_TT <- lift (member_delta_TT self s) ;;
  axes <-
    (if String.eqb (coupled_tag c) "sun" then
       sun <- lift (sun_of c) ;;
       let half := (ExtendedSourceData.fov sun / 2)%Q in
       ret ((- half, half)%Q, (- half, half)%Q)
     else
       (if Qeq_bool (D self) 0 || Qeq_bool zeroPaddingFactor 0
        then raise ZeroDivisionError else ret tt) ;;
       let half := (conversion_constant * (Source.wavelength s / D self)
                    * (img_resolution / 2 / zeroPaddingFactor))%Q in
       ret ((- half, half)%Q, (- half, half)%Q)) ;;
  modify (with_xPSF_arcsec (Some (fst axes))) ;;
  modify (with_yPSF_arcsec (Some (snd axes))) ;;
  fov_warning c s (fst axes) (snd axes) ;;
  phase <- lift (member_phase (snd amp) delta_TT) ;;
  PropagateField (fst amp) phase zeroPaddingFactor (Some img_resolution) ;;
  self <- get ;;
  match PSF self with
  | Some (PSF_nd a) =>
      modify (with_PSF_norma (Some (PSF_nd (normalised a)))) ;;
      ret (a, normalised a)
  | _ => raise (TypeError "PSF")
  end.

(** The loop over [input_source]. *)
Fixpoint computePSF_loop (c : coupled) (input_wavelenght : Q)
    (zeroPaddingFactor img_resolution : Q) (input_source : list Source.t)
    (output_PSF output_PSF_norma : list (ndarray Q))
  : M t (list (ndarray Q) * list (ndarray Q)) :=
  match input_source with
  | [] => ret (output_PSF, output_PSF_norma)
  | s :: rest =>
      r <- computePSF_step c input_wavelenght zeroPaddingFactor
             img_resolution s ;;
      computePSF_loop c input_wavelenght zeroPaddingFactor img_resolution
        rest (output_PSF ++ [fst r]) (output_PSF_norma ++ [snd r])
  end.


(** [2 ** np.ceil(np.log2(x))] for a non-negative integer [x]. *)
Definition next_pow2 (x : Z) : Z := if x <=? 0 then 0 else 2 ^ Z.log2_up x.

(** The corner of the tile [dir] in the accumulation canvas, and the width
    of a tile there. *)
Definition global_corner (sun : ExtendedSourceData.t) (dir : Z) : Z :=
  round (inject_Z dir
         * (item (ExtendedSourceData.subDirs_coordinates sun) [2; 0; 0]
            / (2 * ExtendedSourceData.img_PS sun))).

Definition tile_width (sun : ExtendedSourceData.t) : Z :=
  round (item (ExtendedSourceData.subDirs_coordinates sun) [2; 0; 0]
         / ExtendedSourceData.img_PS sun).

(** One layer [sun_psf_tmp_3D[gx:gx + w, gy:gy + w, index] = value] of the
    zero canvas of [W] by [W] pixels. *)
Definition place (W gx gy w : Z) (value : ndarray Q) : exn + ndarray Q :=
  let rs := sl gx (gx + w) in
  let cs := sl gy (gy + w) in
  match shape value with
  | [r'; c'] =>
      if fits (sl_len W rs) (sl_len W cs) r' c' then
        inr (mk_nd [W; W]
               (fun ix =>
                  match ix with
                  | [p; q] =>
                      let di := p - sl_start W rs in
                      let dj := q - sl_start W cs in
                      if (0 <=? di) && (di <? sl_len W rs)
                         && (0 <=? dj) && (dj <? sl_len W cs)
                      then item value [if r' =? 1 then 0 else di;
                                       if c' =? 1 then 0 else dj]
                      else 0%Q
                  | _ => 0%Q
                  end))
      else inl (RuntimeError "shape mismatch")
  | _ => inl (RuntimeError "shape mismatch")
  end.

(** [torch.sum(sun_psf_tmp_3D, axis = 2)], the tensor being the list of its
    layers in the order of [index]. *)
Definition sum_layers (W : Z) (layers : list (ndarray Q)) : ndarray Q :=
  mk_nd [W; W]
    (fun ix => fold_right (fun l acc => Qplus (item l ix) acc) 0%Q layers).

(** The weighted and convolved patch of one tile. *)
Definition tile_contribution (sun : ExtendedSourceData.t)
    (pad_img_size start_FFT end_FFT : Z) (dirX dirY : Z)
    (psf_norma : ndarray Q) : exn + ndarray Q :=
  let patch := tile (ExtendedSourceData.subDirs_sun sun) dirX dirY in
  k <-! shape_at (ExtendedSourceData.subDirs_sun sun) 0 ;;
  let pw := fix_ (inject_Z (pad_img_size - k) / 2) in
  o <-! pad2 0%Q patch pw pw ;;
  r <-! shape_at psf_norma 0 ;;
  c <-! shape_at psf_norma 1 ;;
  h <-! pad2 0%Q psf_norma (fix_ (inject_Z (pad_img_size - r) / 2))
          (fix_ (inject_Z (pad_img_size - c) / 2)) ;;
  let complex a := map_nd (fun x : Q => (x, 0%Q)) a in
  oh <-! match map2 cmul (fft2 (complex o)) (fft2 (complex h)) with
         | inl _ => inl (RuntimeError "shape mismatch")
         | inr x => inr x
         end ;;
  let conv := map_nd xp_abs (fftshift (ifft2 oh)) in
  crop <-! slice2 conv (sl start_FFT end_FFT) (sl start_FFT end_FFT) ;;
  match map2 Qmult crop (tile (ExtendedSourceData.filter_2D sun) dirX dirY)
  with
  | inl _ => inl (RuntimeError "shape mismatch")
  | inr x => inr x
  end.

(** The loop that mixes the sub-directions: the layers of
    [sun_psf_tmp_3D]. *)
Fixpoint sun_layers (sun : ExtendedSourceData.t)
    (pad_img_size start_FFT end_FFT W : Z) (tiles : list (Z * Z))
    (output_PSF_norma : list (ndarray Q)) : exn + list (ndarray Q) :=
  match tiles with
  | [] => inr []
  | (dirX, dirY) :: tiles' =>
      let index := dirX * ExtendedSourceData.nSubDirs sun + dirY in
      psf <-! list_get output_PSF_norma index ;;
      v <-! tile_contribution sun pad_img_size start_FFT end_FFT
              dirX dirY psf ;;
      layer <-! place W (global_corner sun dirX) (global_corner sun dirY)
                  (tile_width sun) v ;;
      rest <-! sun_layers sun pad_img_size start_FFT end_FFT W tiles'
                 output_PSF_norma ;;
      inr (layer :: rest)
  end.

(** Lines 300 to 332: [sun_PSF_combined_fov]. *)
Definition sun_PSF_combined_fov (sun : ExtendedSourceData.t)
    (output_PSF output_PSF_norma : list (ndarray Q)) : exn + ndarray Q :=
  let n := ExtendedSourceData.nSubDirs sun in
  let img_PS := ExtendedSourceData.img_PS sun in
  _ <-! (match shape (ExtendedSourceData.subDirs_sun sun) with
         | [_; _; nx; ny] =>
             if (0 <? nx) && (0 <? ny) then inr tt else inl IndexError
         | _ => inl IndexError
         end) ;;
  k <-! shape_at (ExtendedSourceData.subDirs_sun sun) 0 ;;
  psf0 <-! list_get output_PSF 0 ;;
  r0 <-! shape_at psf0 0 ;;
  let pad_img_size := next_pow2 (k + r0) in
  let size := item (ExtendedSourceData.subDirs_coordinates sun) [2; 0; 0] in
  let start_FFT :=
    round (inject_Z pad_img_size / 2 - size / (2 * img_PS)) in
  let end_FFT := start_FFT + round (size / img_PS) in
  let W := round ((ExtendedSourceData.fov sun
                   + ExtendedSourceData.patch_padding sun) / img_PS) in
  _ <-! (if W <? 0 then inl (RuntimeError "negative dimension")
         else inr tt) ;;
  layers <-! sun_layers sun pad_img_size start_FFT end_FFT W (range2 n)
               output_PSF_norma ;;
  let sun_PSF_combined := sum_layers W layers in
  let offset := round (ExtendedSourceData.patch_padding sun
                       / (2 * img_PS)) in
  let stop := round (inject_Z offset + ExtendedSourceData.fov sun / img_PS) in
  slice2 sun_PSF_combined (sl offset stop) (sl offset stop).

(** [computePSF(self, zeroPaddingFactor, detector, img_resolution)]; a
    detector is given by its [psf_sampling] and its [resolution]. *)
Definition computePSF (zeroPaddingFactor : Q)
    (detector : option (Q * option Q)) (img_resolution : option Q)
  : M t unit :=
  let zeroPaddingFactor :=
    match detector with
    | Some d => fst d
    | None => zeroPaddingFactor
    end in
  let img_resolution :=
    match detector with
    | Some d => snd d
    | None => img_resolution
    end in
  self <- get ;;
  let img_resolution :=
    match img_resolution with
    | None => (zeroPaddingFactor * inject_Z (resolution self))%Q
    | Some r => r
    end in
  sync_phase ;;
  self <- get ;;
  c <- match src self with
       | None => raise (AttributeError "The telescope was not coupled to any source object! Make sure to couple it with an src object using src*tel")
       | Some c => ret c
       end ;;
  input_source <- lift (input_source_of c) ;;
  first <- lift (list_get input_source 0) ;;
  let input_wavelenght := Source.wavelength first in
  out <- computePSF_loop c input_wavelenght zeroPaddingFactor
           img_resolution input_source [] [] ;;
  let is_sun := String.eqb (coupled_tag c) "sun" in
  let output :=
    match fst out, snd out with
    | [a], [b] =>
        if negb is_sun then (PSF_nd a, PSF_nd b)
        else (PSF_list [a], PSF_list [b])
    | l, l' => (PSF_list l, PSF_list l')
    end in
  (if is_sun then
     sun <- lift (sun_of c) ;;
     combined <- lift (sun_PSF_combined_fov sun (fst out) (snd out)) ;;
     modify (with_PSF_sun (Some combined)) ;;
     modify (with_PSF_sun_norma (Some combined))
   else ret tt) ;;
  modify (with_PSF (Some (fst output))) ;;
  modify (with_PSF_norma (Some (snd output))).

(** [__init__]: the arguments of the constructor, in its order. *)
Definition __init__ (resolution : Z) (diameter samplingTime : Q)
    (centralObstruction fov : Q) (pupil : option (ndarray Q))
    (pupilReflectivity : reflectivity) : M t unit :=
  put (mk false resolution diameter centralObstruction fov samplingTime
         None pupil pupilReflectivity (mk_nd [] (fun _ => 0)) 0 [] None
         (OPD_list []) (OPD_list []) None None None false
         None None None None None None None []) ;;
  (if resolution =? 0 then raise ZeroDivisionError else ret tt) ;;
  set_pupil ;;
  modify (with_src None) ;;
  self <- get ;;
  OPD_setter (OPD_nd (to_float (_pupil self))) ;;
  OPD_no_pupil_setter
    (OPD_nd (map_nd (fun x => (1 + x * 0)%Q)
               (to_float (_pupil self)))) ;;
  print "TELESCOPE" ;;
  modify (with_isInitialized true) ;;
  modify (with_warning_src false).

(** The call [Telescope(...)]. *)
Definition new (resolution : Z) (diameter samplingTime : Q)
    (centralObstruction fov : Q) (pupil : option (ndarray Q))
    (pupilReflectivity : reflectivity) : exn + t :=
  let blank :=
    mk false 0 0 0 0 0 None None (Refl_scalar 1) (mk_nd [] (fun _ => 0)) 0 []
      None (OPD_list []) (OPD_list []) None None None false
      None None None None None None None [] in
  match __init__ resolution diameter samplingTime centralObstruction fov
          pupil pupilReflectivity blank with
  | (_, inl e) => inl e
  | (self, inr _) => inr self
  end.

(** [x % 360] on a float. *)
Definition fmod360 (x : Q) : Q := (x - inject_Z (360 * Qfloor (x / 360)))%Q.

(** The mask [map_dist > thickness_spider / 2] of one spider. *)
Definition spider_mask (self : t) (angle_i thickness_spider off_x off_y : Q)
  : ndarray Z :=
  let angle_val := fmod360 (angle_i + 90) in
  let res := resolution self in
  let x := linspace (- D self / 2) (D self / 2) res in
  let within lo hi := Qle_bool lo angle_val && Qltb angle_val hi in
  grid res
    (fun i j =>
       let map_dist :=
         Qabs ((x j + off_x) * xp_cos_deg angle_val
               + (x i + off_y) * xp_sin_deg (- angle_val)) in
       let map_dist :=
         if within 0%Q 90%Q && (i <? floordiv res 2)
         then thickness_spider else map_dist in
       let map_dist :=
         if within 90%Q 180%Q && (j <? floordiv res 2)
         then thickness_spider else map_dist in
       let map_dist :=
         if within 180%Q 270%Q && (floordiv res 2 <=? i)
         then thickness_spider else map_dist in
       let map_dist :=
         if within 270%Q 360%Q && (floordiv res 2 <=? j)
         then thickness_spider else map_dist in
       bool_to_Z (Qgtb map_dist (thickness_spider / 2)))
    0.

(** The loop of [apply_spiders] over the spiders. *)
Fixpoint spiders_loop (self : t) (thickness_spider : Q) (i : Z)
    (offset_X offset_Y : list Q) (angles : list Q) (pup : ndarray Z)
  : exn + ndarray Z :=
  match angles with
  | [] => inr pup
  | a :: rest =>
      _ <-! (if resolution self <? 0
             then inl (ValueError "Number of samples must be non-negative")
             else inr tt) ;;
      off_x <-! list_get offset_X i ;;
      off_y <-! list_get offset_Y i ;;
      pup <-! imulZ pup (spider_mask self a thickness_spider off_x off_y) ;;
      spiders_loop self thickness_spider (i + 1) offset_X offset_Y rest pup
  end.

(** [np.max(np.abs(l))] *)
Definition max_abs (l : list Q) : exn + Q :=
  match l with
  | [] => inl (ValueError "zero-size array to reduction operation maximum")
  | x :: xs => inr (fold_left Qmaxb (map Qabs xs) (Qabs x))
  end.

(** [apply_spiders(self, angle, thickness_spider, offset_X, offset_Y)] *)
Definition apply_spiders (angle : list Q) (thickness_spider : Q)
    (offset_X offset_Y : option (list Q)) : M t unit :=
  modify (with_isInitialized false) ;;
  if Qltb 0 thickness_spider then
    set_pupil ;;
    self <- get ;;
    let pup := pupil self in
    let max_offset := (centralObstruction self * D self / 2
                       - thickness_spider / 2)%Q in
    let zeros_like := map (fun _ => 0%Q) angle in
    let offset_X := match offset_X with None => zeros_like | Some l => l end in
    let offset_Y := match offset_Y with None => zeros_like | Some l => l end in
    mx <- lift (max_abs offset_X) ;;
    (if Qgeb mx max_offset then
       print "WARNING ! The spider offsets are too large! Weird things could happen!"
     else
       my <- lift (max_abs offset_Y) ;;
       if Qgtb my max_offset
       then print "WARNING ! The spider offsets are too large! Weird things could happen!"
       else ret tt) ;;
    pup <- lift (spiders_loop self thickness_spider 0 offset_X offset_Y
                   angle pup) ;;
    modify (with_isInitialized true) ;;
    pupil_setter (to_float pup)
  else
    print "Thickness is <=0, returning default pupil" ;;
    set_pupil.

End WithPlatform.
End Telescope.

(* ================================================================== *)
(** * Coupling an extended source to a telescope *)
(* ================================================================== *)

Module Coupling.
Import Py Np Mon.
Local Open Scope py_scope.

Section WithPlatform.
Context `{P : Platform}.

(** [a + '(' + band + ')'] *)
Definition label (a : string) (band : pyobj) : exn + string :=
  match band with
  | PyStr b => inr (a ++ "(" ++ b ++ ")")%string
  | _ => inl (TypeError "can only concatenate str to str")
  end.

(** [Telescope.resetOPD(self)] *)
Definition resetOPD : M TelescopeData.t unit :=
  self <- get ;;
  match TelescopeData.src self with
  | None => ret tt
  | Some c =>
      let flat := to_float (Telescope.pupil self) in
      let ones := map_nd (fun x => (x * 0 + 1)%Q) flat in
      (if String.eqb (coupled_tag c) "asterism" then
         a <- lift (Telescope.asterism_of c) ;;
         modify (TelescopeData.with_optical_path
                   (Some [Asterism.type a; "telescope"%string])) ;;
         Telescope.OPD_setter
           (OPD_list (map (fun _ => flat) (range (Asterism.n_source a)))) ;;
         Telescope.OPD_no_pupil_setter
           (OPD_list (map (fun _ => ones) (range (Asterism.n_source a))))
       else ret tt) ;;
      if String.eqb (coupled_tag c) "sun" then
        e <- lift (Telescope.sun_of c) ;;
        let n := Asterism.n_source (ExtendedSourceData.sun_subDir_ast e) in
        modify (TelescopeData.with_optical_path
                  (Some [ExtendedSourceData.type e; "telescope"%string])) ;;
        Telescope.OPD_setter (OPD_list (map (fun _ => flat) (range n))) ;;
        Telescope.OPD_no_pupil_setter
          (OPD_list (map (fun _ => ones) (range n)))
      else
        match c with
        | CSource s =>
            l <- lift (label (Source.type s) (Source.optBand s)) ;;
            modify (TelescopeData.with_optical_path
                      (Some [l; "telescope"%string])) ;;
            Telescope.OPD_setter (OPD_nd (scale 0 flat)) ;;
            Telescope.OPD_no_pupil_setter (OPD_nd (scale 0 flat))
        | CSun e =>
            l <- lift (label (ExtendedSourceData.type e)
                         (ExtendedSourceData.optBand e)) ;;
            modify (TelescopeData.with_optical_path
                      (Some [l; "telescope"%string])) ;;
            Telescope.OPD_setter (OPD_nd (scale 0 flat)) ;;
            Telescope.OPD_no_pupil_setter (OPD_nd (scale 0 flat))
        | CAsterism _ =>
            raise (AttributeError "object has no attribute 'optBand'")
        end
  end.

(** [obj.pupilReflectivity * (1 / n ** 2) * nPhoton * obj.samplingTime
    * (obj.D / obj.resolution) ** 2] *)
Definition sun_fluxMap (obj : TelescopeData.t) (nSubDirs : Z) (nPhoton : Q)
  : ndarray Q :=
  let f x :=
    (x * (1 / inject_Z (nSubDirs ^ 2)) * nPhoton
     * TelescopeData.samplingTime obj
     * (TelescopeData.D obj / inject_Z (TelescopeData.resolution obj)) ^ 2)%Q
  in
  match TelescopeData.pupilReflectivity obj with
  | Refl_map a => map_nd f a
  | Refl_scalar q => mk_nd [] (fun _ => f q)
  end.

(** [pupil[..., np.newaxis]] *)
Definition newaxis (a : ndarray Q) : ndarray Q :=
  mk_nd (shape a ++ [1]) (fun ix => item a (removelast ix)).

(** One turn of the loop of [__mul__] over the sub-directions; [self] is
    the extended source, the telescope [obj] is the state. *)
Definition mul_step (self : ExtendedSourceData.t) (i : Z)
  : M TelescopeData.t ExtendedSourceData.t :=
  obj <- get ;;
  opd_i <- lift (Telescope.opd_get (TelescopeData._OPD obj) i) ;;
  let pup := to_float (Telescope.pupil obj) in
  masked <- lift (if Telescope.opd_ndim (TelescopeData._OPD obj) =? 4
                  then mul opd_i (newaxis pup)
                  else mul opd_i pup) ;;
  opd <- lift (Telescope.opd_set (TelescopeData._OPD obj) i masked) ;;
  modify (TelescopeData.with__OPD opd) ;;
  opd_i <- lift (Telescope.opd_get opd i) ;;
  let ast := ExtendedSourceData.sun_subDir_ast self in
  star <- lift (list_get (Asterism.src ast) i) ;;
  let phase := Telescope.to_phase opd_i (Source.wavelength star) in
  let star := Source.with_phase (Some phase) star in
  no_pupil_i <- lift (Telescope.opd_get (TelescopeData._OPD_no_pupil obj) i) ;;
  let star :=
    Source.with_phase_no_pupil
      (Some (Telescope.to_phase no_pupil_i (Source.wavelength star))) star in
  let star :=
    Source.with_var (Some (xp_var_where phase (Telescope.pupil obj))) star in
  (if TelescopeData.resolution obj =? 0 then raise ZeroDivisionError
   else ret tt) ;;
  let star :=
    Source.with_fluxMap
      (Some (sun_fluxMap obj (ExtendedSourceData.nSubDirs self)
               (Source.nPhoton star))) star in
  stars <- lift (list_set (Asterism.src ast) i star) ;;
  let self :=
    ExtendedSourceData.with_sun_subDir_ast (Asterism.with_src stars ast)
      self in
  match TelescopeData.optical_path obj with
  | None =>
      l <- lift (label (Source.type star) (Source.optBand star)) ;;
      modify (TelescopeData.with_optical_path
                (Some [l; "telescope"%string]))
  | Some path =>
      l <- lift (label (ExtendedSourceData.type self)
                   (Source.optBand star)) ;;
      match path with
      | [] => raise IndexError
      | _ :: path' =>
          modify (TelescopeData.with_optical_path (Some (l :: path')))
      end
  end ;;
  ret self.

Fixpoint mul_loop (self : ExtendedSourceData.t) (idx : list Z)
  : M TelescopeData.t ExtendedSourceData.t :=
  match idx with
  | [] => ret self
  | i :: idx' =>
      self' <- mul_step self i ;;
      mul_loop self' idx'
  end.

(** [ExtendedSource.__mul__(self, obj)] for a telescope [obj]; the
    telescope after the call holds the extended source in [src].  The case
    [obj.src is self] of a repeated coupling, where the setters of [OPD]
    write to [self] before the loop does, gives the same final objects and
    is not distinguished.  When the call raises, the writes already made to
    the extended source are not tracked. *)
Definition ExtendedSource__mul__ (self : ExtendedSourceData.t)
  : M TelescopeData.t unit :=
  obj <- get ;;
  let n2 := ExtendedSourceData.nSubDirs self
            * ExtendedSourceData.nSubDirs self in
  match TelescopeData._OPD obj with
  | OPD_nd a =>
      if ndim a <=? 2 then
        Telescope.OPD_setter (OPD_list (map (fun _ => a) (range n2))) ;;
        obj <- get ;;
        match TelescopeData._OPD_no_pupil obj with
        | OPD_nd b =>
            Telescope.OPD_no_pupil_setter
              (OPD_list (map (fun _ => b) (range n2)))
        | OPD_list _ =>
            raise (TypeError "a list of lists is not an optical path difference")
        end ;;
        modify (TelescopeData.with_PSF_sun_norma
                  (Some (ExtendedSourceData.sun_nopad self))) ;;
        modify (TelescopeData.with_PSF_sun
                  (Some (ExtendedSourceData.sun_nopad self)))
      else if ndim a =? 4 then resetOPD else ret tt
  | OPD_list l =>
      if Telescope.opd_ndim (OPD_list l) =? 4 then resetOPD else ret tt
  end ;;
  self' <- mul_loop self (range n2) ;;
  modify (TelescopeData.with_src (Some (CSun self'))).

End WithPlatform.
End Coupling.

(* ================================================================== *)
(** * The mosaic of the blending filters *)
(* ================================================================== *)

Module Mosaic.
Import Py Np.
Local Open Scope py_scope.

(** The weight that the window of an even width [2 h] takes at its two
    middle pixels. *)
Definition plateau (h : Z) : Q :=
  ((inject_Z h - 1) / ((2 * inject_Z h - 1) / 2))%Q.

(** The window of a slice assignment. *)
Definition inside (start len i : Z) : bool :=
  (0 <=? i - start) && (i - start <? len).

(** The profile of a tile along one axis: the window, held at its plateau
    on the half that faces the outside of the mosaic. *)
Definition edge_profile (h n dir i : Z) : Q :=
  if ((dir =? 0) && (i <? h)) || ((dir =? n - 1) && (h <=? i))
  then plateau h else ExtendedSource.lin (2 * h) i.

(** The profile of the tile [X] along one axis of the mosaic. *)
Definition placed_profile (h n X p : Z) : Q :=
  if inside (X * h) (2 * h) p then edge_profile h n X (p - X * h) else 0%Q.

(** The content of a finished tile of the filters. *)
Definition tile_done (h n : Z) (F : ndarray Q) (X Y : Z) : Prop :=
  forall i j, 0 <= i < 2 * h -> 0 <= j < 2 * h ->
    (item F [i; j; X; Y]
     == edge_profile h n X i * edge_profile h n Y j)%Q.

(** The blending filters of all tiles, each placed on a zero canvas of [W]
    by [W] pixels at the corner [(corner dirX, corner dirY)], as
    [computePSF] places the weighted tiles, and added up. *)
Fixpoint filter_layers (filter_2D : ndarray Q) (W w : Z) (corner : Z -> Z)
    (tiles : list (Z * Z)) : exn + list (ndarray Q) :=
  match tiles with
  | [] => inr []
  | (dirX, dirY) :: tiles' =>
      layer <-! Telescope.place W (corner dirX) (corner dirY) w
                  (tile filter_2D dirX dirY) ;;
      rest <-! filter_layers filter_2D W w corner tiles' ;;
      inr (layer :: rest)
  end.

Definition filter_sum (filter_2D : ndarray Q) (W w n : Z) (corner : Z -> Z)
  : exn + ndarray Q :=
  layers <-! filter_layers filter_2D W w corner (range2 n) ;;
  inr (Telescope.sum_layers W layers).

End Mosaic.

(* ================================================================== *)
(** * A platform over the rationals *)
(* ================================================================== *)

Module Reference.
Import Py Np.

(** An executable platform, used to run the model on concrete inputs.  The
    transcendental functions are coarse rational approximations, and the
    transforms are plain discrete Fourier sums over them. *)

Fixpoint newton (n : nat) (x y : Q) : Q :=
  match n with
  | O => y
  | S n' => newton n' x (Qred ((y + x / y) / 2))
  end.

Definition sqrt (x : Q) : Q :=
  if Qle_bool x 0 then 0%Q else newton 6 x (Qred ((x + 1) / 2)).

(** Cosine and sine by their Taylor polynomials of degree 10 and 11. *)
Definition cos (x : Q) : Q :=
  let x2 := (x * x)%Q in
  (1 - x2 / 2 * (1 - x2 / 12 * (1 - x2 / 30 * (1 - x2 / 56
     * (1 - x2 / 90)))))%Q.

Definition sin (x : Q) : Q :=
  let x2 := (x * x)%Q in
  (x * (1 - x2 / 6 * (1 - x2 / 20 * (1 - x2 / 42 * (1 - x2 / 72
     * (1 - x2 / 110))))))%Q.

Definition deg2rad (x : Q) : Q := (x * pi / 180)%Q.
Definition rad2deg (x : Q) : Q := (x * 180 / pi)%Q.

(** The arc tangent on [-1, 1] by [x / (1 + 0.28 x^2)], extended to the
    plane. *)
Definition arctan2 (y x : Q) : Q :=
  let small t := (t / (1 + 0.28 * t * t))%Q in
  if Qeq_bool x 0 && Qeq_bool y 0 then 0%Q
  else if Qle_bool (Qabs y) (Qabs x) then
    let a := small (y / x)%Q in
    if Qle_bool 0 x then a
    else if Qle_bool 0 y then (a + pi)%Q else (a - pi)%Q
  else
    let a := small (x / y)%Q in
    if Qle_bool 0 y then (pi / 2 - a)%Q else (- (pi / 2) - a)%Q.

Definition exp_i (x : Q) : Q * Q := (cos x, sin x).

Definition cadd (x y : Q * Q) : Q * Q :=
  (fst x + fst y, snd x + snd y)%Q.

(** The two-dimensional discrete Fourier sum with the sign [sgn] in the
    exponent. *)
Definition dft2 (sgn : Q) (a : ndarray (Q * Q)) (ix : list Z) : Q * Q :=
  match shape a, ix with
  | [n; m], [k; l] =>
      fold_right cadd (0%Q, 0%Q)
        (map (fun p =>
                cmul (item a [fst p; snd p])
                  (exp_i (sgn * 2 * pi
                          * (inject_Z (k * fst p) / inject_Z n
                             + inject_Z (l * snd p) / inject_Z m))))
           (flat_map (fun i => map (fun j => (i, j)) (range m)) (range n)))
  | _, _ => (0%Q, 0%Q)
  end.

Definition fft2 (a : ndarray (Q * Q)) (ix : list Z) : Q * Q :=
  dft2 (-1) a ix.

Definition ifft2 (a : ndarray (Q * Q)) (ix : list Z) : Q * Q :=
  cscale (1 / inject_Z (size a)) (dft2 1 a ix).

Definition abs (z : Q * Q) : Q := sqrt (fst z * fst z + snd z * snd z).

(** The selected elements [a[np.where(pupil == 1)]]. *)
Definition selected (a : ndarray Q) (pupil : ndarray Z) : list Q :=
  map (item a) (filter (fun ix => item pupil ix =? 1) (indices (shape pupil))).

Definition mean (l : list Q) : Q :=
  Qred (fold_right (fun x acc => Qred (x + acc)) 0 l
        / inject_Z (Z.of_nat (length l)))%Q.

Definition mean_where (a : ndarray Q) (pupil : ndarray Z) : Q :=
  mean (selected a pupil).

Definition var_where (a : ndarray Q) (pupil : ndarray Z) : Q :=
  let l := selected a pupil in
  let m := mean l in
  mean (map (fun x => Qred ((x - m) * (x - m))) l).

(** The binning helper on a 2-D array: it refuses an array whose first
    side is no multiple of the factor [k]; otherwise the elements, in
    row-major order, are cut into [n / k] by [round (m / k)] blocks as a
    reshape does, and each block is summed. *)
Definition binning (a : ndarray Q) (k : Z) : exn + ndarray Q :=
  match shape a with
  | [n; m] =>
      if k =? 0 then inl ZeroDivisionError
      else if negb (pymod n k =? 0)
      then inl (ValueError
                  ("Binning factor "
                   ++ DecimalString.NilEmpty.string_of_int (Z.to_int k)
                   ++ " not compatible with the array size"))
      else
        let n' := round (inject_Z n / inject_Z k) in
        let m' := round (inject_Z m / inject_Z k) in
        if (n' =? 0) || (m' =? 0) then inl ZeroDivisionError
        else
          let bn := floordiv n n' in
          let bm := floordiv m m' in
          if (n' <? 0) || (bn <? 0) || (m' <? 0) || (bm <? 0)
             || negb (n' * bn * m' * bm =? n * m)
          then inl (ValueError "cannot reshape array")
          else
            inr (mk_nd [n'; m']
                   (fun ix =>
                      match ix with
                      | [i; j] =>
                          sum_range bn (fun di =>
                            sum_range bm (fun dj =>
                              let f := ((i * bn + di) * m' + j) * bm + dj in
                              item a [f / m; f mod m]))
                      | _ => 0%Q
                      end))
  | _ => inl IndexError
  end.

(** The names [name] for which [hasattr(cls, name)] holds on a class [cls]
    with an empty body, in Python 3.11. *)
Definition class_attributes : list string :=
  [ "__annotations__"; "__base__"; "__bases__"; "__basicsize__"; "__call__";
    "__class__"; "__delattr__"; "__dict__"; "__dictoffset__"; "__dir__";
    "__doc__"; "__eq__"; "__flags__"; "__format__"; "__ge__";
    "__getattribute__"; "__getstate__"; "__gt__"; "__hash__"; "__init__";
    "__init_subclass__"; "__instancecheck__"; "__itemsize__"; "__le__";
    "__lt__"; "__module__"; "__mro__"; "__name__"; "__ne__"; "__new__";
    "__or__"; "__prepare__"; "__qualname__"; "__reduce__"; "__reduce_ex__";
    "__repr__"; "__ror__"; "__setattr__"; "__sizeof__"; "__str__";
    "__subclasscheck__"; "__subclasses__"; "__subclasshook__";
    "__text_signature__"; "__weakref__"; "__weakrefoffset__";
    "mro" ]%string.

Definition has_class_attr (name : string) : bool :=
  existsb (String.eqb name) class_attributes.

(** The bands of a point source: the wavelengths and zero points of the
    table of [ExtendedSource.photometry] stand in for the table of class
    [Source]. *)
Definition source_band (band : pyobj) : option (Q * Q) :=
  match band with
  | PyStr s =>
      match ExtendedSource.lookup ExtendedSource.phot s with
      | Some (ExtendedSource.PhotBand w _ z) => Some (w, z)
      | _ => None
      end
  | _ => None
  end.

#[export] Instance platform : Platform := {
  xp_sqrt := sqrt;
  xp_cos_deg := fun x => cos (deg2rad x);
  xp_sin_deg := fun x => sin (deg2rad x);
  xp_arctan2_deg := fun y x => rad2deg (arctan2 y x);
  xp_exp_i := exp_i;
  xp_fft2 := fft2;
  xp_ifft2 := ifft2;
  xp_abs := abs;
  xp_mean_where := mean_where;
  xp_var_where := var_where;
  set_binning := binning;
  class_attr := has_class_attr;
  Source_photometry := source_band
}.

End Reference.

(* ================================================================== *)
(** * The life of a telescope object *)
(* ================================================================== *)

Module Lifetime.
Import Py Np Mon.

(** What a program does with a telescope object once it is constructed. *)
Inductive call : Type :=
| computePSF (zeroPaddingFactor : Q) (detector : option (Q * option Q))
    (img_resolution : option Q)
| PropagateField (amplitude phase : ndarray Q) (zeroPaddingFactor : Q)
    (img_resolution : option Q)
| assign_OPD (val : pyopd)
| assign_OPD_no_pupil (val : pyopd)
| assign_pupil (val : ndarray Q)
| assign_src (val : option coupled)
| set_pupil
| apply_spiders (angle : list Q) (thickness_spider : Q)
    (offset_X offset_Y : option (list Q))
| resetOPD
| couple_sun (sun : ExtendedSourceData.t).

Section WithPlatform.
Context `{P : Platform}.

Definition perform (c : call) : M TelescopeData.t unit :=
  match c with
  | computePSF z d r => Telescope.computePSF z d r
  | PropagateField a ph z r =>
      Mon.bind (Telescope.PropagateField a ph z r) (fun _ => Mon.ret tt)
  | assign_OPD v => Telescope.OPD_setter v
  | assign_OPD_no_pupil v => Telescope.OPD_no_pupil_setter v
  | assign_pupil v => Telescope.pupil_setter v
  | assign_src v => Mon.modify (TelescopeData.with_src v)
  | set_pupil => Telescope.set_pupil
  | apply_spiders a t x y => Telescope.apply_spiders a t x y
  | resetOPD => Coupling.resetOPD
  | couple_sun sun => Coupling.ExtendedSource__mul__ sun
  end.

(** The object after a sequence of calls; a call that raises leaves the
    object as it is at the [raise], and the program goes on. *)
Fixpoint after (calls : list call) (tel : TelescopeData.t)
  : TelescopeData.t :=
  match calls with
  | [] => tel
  | c :: calls' => after calls' (fst (perform c tel))
  end.

End WithPlatform.

(** The number of warnings on sources outside of the field of view among
    the lines written. *)
Definition fov_warnings (out : list event) : nat :=
  length (filter (fun e => match e with
                           | OutsideFov _ => true
                           | Printed _ => false
                           end) out).

(** The warnings written so far are accounted for by the flag
    [warning_src]: none while it is [False], at most one once it is
    [True]. *)
Definition warned_as_flagged (tel : TelescopeData.t) : Prop :=
  (fov_warnings (TelescopeData.stdout tel)
   <= if TelescopeData.warning_src tel then 1 else 0)%nat.

End Lifetime.

(* ================================================================== *)
(** * Notions used in the statements *)
(* ================================================================== *)

Module Spec.
Import Py Np Mon.
Local Open Scope py_scope.

(** The indices of an array of shape [s]. *)
Definition in_range (s ix : list Z) : Prop :=
  Forall2 (fun n i => 0 <= i < n) s ix.

(** The invariant of the pupil: the reflectivity is a map of the shape of
    the pupil that is zero wherever the mask is zero. *)
Definition reflectivity_masked (tel : TelescopeData.t) : Prop :=
  exists a,
    TelescopeData.pupilReflectivity tel = Refl_map a /\
    shape a = shape (Telescope.pupil tel) /\
    forall ix, in_range (shape (Telescope.pupil tel)) ix ->
               item (Telescope.pupil tel) ix = 0 -> item a ix == 0.

Section WithPlatform.
Context `{P : Platform}.

(** The point-spread function of one source, as [computePSF] asks
    [PropagateField] for it. *)
Definition member_PSF (self : TelescopeData.t)
    (zeroPaddingFactor img_resolution : Q) (s : Source.t)
  : exn + ndarray Q :=
  amp <-! Telescope.member_amp self s ;;
  delta_TT <-! Telescope.member_delta_TT self s ;;
  phase <-! Telescope.member_phase (snd amp) delta_TT ;;
  r <-! Telescope.propagate self (fst amp) phase zeroPaddingFactor
          (Some img_resolution) ;;
  Telescope.focal_PSF r.

(** The exceptions that the binning helper raises on some array. *)
Definition binning_error (e : exn) : Prop :=
  exists a k, set_binning a k = inl e.

(** The binning helper returns on a square array whose side is a positive
    multiple of the factor. *)
Definition binning_divides : Prop :=
  forall (a : ndarray Q) (n k : Z),
    0 < n -> 1 < k -> shape a = [n * k; n * k] ->
    exists b, set_binning a k = inr b.

End WithPlatform.

(** The resolution that [PropagateField] works with. *)
Definition resolved (img : option Q) (zpf : Q) (res : Z) : Q :=
  match img with
  | Some r => r
  | None => (zpf * inject_Z res)%Q
  end.

(** The two messages of the wavelength test of [computePSF]. *)
Definition wavelength_error (e : exn) : Prop :=
  e = AttributeError "The asterism contains sources with different wavelengths. Summing up PSFs with different wavelength is not implemented."
  \/ e = AttributeError "The subDirs wavelengths are different, which does not make sense, the subDirs shall share the conditions of the principal direction.".

(** The exceptions that are no [AttributeError]. *)
Definition not_attribute_error (e : exn) : Prop :=
  match e with
  | AttributeError _ => False
  | _ => True
  end.

(** The message of the resolution check of [PropagateField]. *)
Definition too_many_pixels : exn :=
  ValueError "Error: image has too many pixels for this pupil sampling. Try using a pupil mask with more pixels".

(** The message of the feasibility check of [ExtendedSource]. *)
Definition too_many_directions : exn :=
  BaseException "Too many directions, processing will not be feasible".

(** The flux map of a sub-direction as the specification has it: the
    reflectivity times the flux of the tile, the sampling time and the area
    of a pixel, and no other factor. *)
Definition undivided_fluxMap (tel : TelescopeData.t) (s : Source.t) : Prop :=
  exists F a,
    Source.fluxMap s = Some F /\
    TelescopeData.pupilReflectivity tel = Refl_map a /\
    forall ix, in_range (shape a) ix ->
      (item F ix
       == item a ix * Source.nPhoton s * TelescopeData.samplingTime tel
          * (TelescopeData.D tel
             / inject_Z (TelescopeData.resolution tel)) ^ 2)%Q.

(** The exceptions of the interpreter and of numpy, as opposed to the one
    that the feasibility check raises. *)
Definition builtin (e : exn) : Prop :=
  match e with
  | BaseException _ => False
  | _ => True
  end.

End Spec.

(* ================================================================== *)
(** * Concrete objects *)
(* ================================================================== *)

Module Examples.
Import Py Np Mon.

Definition or_else {A} (r : exn + A) (d : A) : A :=
  match r with
  | inr a => a
  | inl _ => d
  end.

Section WithPlatform.
Context `{P : Platform}.

(** [Telescope(resolution = 7, diameter = 8)] *)
Definition tel7 : TelescopeData.t :=
  or_else (Telescope.new 7 8 0.001 0 0 None (Refl_scalar 1))
    (fst (Telescope.__init__ 0 0 0 0 0 None (Refl_scalar 1)
            (TelescopeData.mk false 0 0 0 0 0 None None (Refl_scalar 1)
               (mk_nd [] (fun _ => 0)) 0 [] None (OPD_list []) (OPD_list [])
               None None None false None None None None None None None []))).

(** A flat map over the pupil of [tel7]. *)
Definition flat7 (v : Q) : ndarray Q := mk_nd [7; 7] (fun _ => v).

(** Two point sources of the same band, and a third one of another
    wavelength. *)
Definition star (lambda : Q) : Source.t :=
  Source.mk "source" "NGS" (PyStr "V") lambda 1000 (0%Q, 0%Q)
    None None None (Some (flat7 1)).

(** A point source 1 arcsec off the axis. *)
Definition off_axis : Source.t :=
  Source.mk "source" "NGS" (PyStr "V") 0.5e-6 1000 (1%Q, 0%Q)
    None None None (Some (flat7 1)).

(** A program that couples that source and computes its point-spread
    function twice. *)
Definition off_axis_twice : list Lifetime.call :=
  [ Lifetime.assign_src (Some (CSource off_axis));
    Lifetime.computePSF 2 None None;
    Lifetime.computePSF 2 None None ].

Definition ast2 : Asterism.t := Asterism.new [star 0.5e-6; star 0.5e-6].
Definition ast_mixed : Asterism.t :=
  Asterism.new [star 0.5e-6; star 0.7e-6].

(** [tel7] coupled to the asterism [a]. *)
Definition tel7_with (a : Asterism.t) : TelescopeData.t :=
  TelescopeData.with_src (Some (CAsterism a))
    (TelescopeData.with__OPD (OPD_list [flat7 0; flat7 0])
       (TelescopeData.with__OPD_no_pupil (OPD_list [flat7 0; flat7 0])
          tel7)).

(** A reference image of 20 by 20 pixels. *)
Definition image : ndarray Q :=
  mk_nd [20; 20]
    (fun ix => match ix with
               | [i; j] => inject_Z (i + j)
               | _ => 0%Q
               end).

(** [ExtendedSource('V', fov = 5, img_PS = 1, nSubDirs = 2,
    patch_padding = 1, subDir_margin = 2)] on that image. *)
Definition sun2 : ExtendedSourceData.t :=
  or_else (ExtendedSource.new (PyStr "V") (0%Q, 0%Q) 5 false (inr image)
             1 2 1 2)
    ExtendedSource.blank.

End WithPlatform.
End Examples.

(* ================================================================== *)
(** * Theorems *)
(* ================================================================== *)

Unset Implicit Arguments.


Module NumFacts.
Import Py Np.

Lemma Qltb_true a b : Qltb a b = true <-> (a < b)%Q.
Proof.
  unfold Qltb. rewrite negb_true_iff. split; intro H.
  - apply Qnot_le_lt. intro L. apply Qle_bool_iff in L. congruence.
  - destruct (Qle_bool b a) eqn:E; [|reflexivity].
    apply Qle_bool_iff in E. exfalso. apply (Qlt_not_le _ _ H E).
Qed.

Lemma Qltb_false a b : Qltb a b = false <-> (b <= a)%Q.
Proof.
  unfold Qltb. rewrite negb_false_iff. apply Qle_bool_iff.
Qed.

Lemma ceil_half (n : Z) : ceil (inject_Z n / 2) = (n + 1) / 2.
Proof.
  unfold ceil, Qceiling.
  assert (E : (- (inject_Z n / 2) == inject_Z (- n) / inject_Z 2)%Q).
  { rewrite inject_Z_opp. field. }
  rewrite E, <- Zdiv_Qdiv. clear E. Z.div_mod_to_equations. lia.
Qed.

Lemma ceil_Z (n : Z) : ceil (inject_Z n) = n.
Proof. apply Qceiling_Z. Qed.

Lemma ceil_mult_Z (a b : Z) : ceil (inject_Z a * inject_Z b) = a * b.
Proof.
  unfold ceil. rewrite <- inject_Z_mult. apply Qceiling_Z.
Qed.

Lemma adjust_in (len i : Z) : 0 <= i <= len -> adjust len i = i.
Proof.
  intros H. unfold adjust.
  destruct (i <? 0) eqn:E; [apply Z.ltb_lt in E; lia|]. lia.
Qed.

Lemma slice_in (len a b : Z) :
  0 <= a -> a <= b -> b <= len ->
  sl_start len (sl a b) = a /\ sl_len len (sl a b) = b - a.
Proof.
  intros. unfold sl_len, sl_stop, sl_start, sl; cbn [fst snd].
  rewrite (adjust_in len a), (adjust_in len b) by lia. lia.
Qed.

End NumFacts.

Module CropFacts.
Import Py Np Telescope NumFacts.

Lemma crop_window (N img : Z) :
  0 <= img <= N ->
  0 <= fst (crop_ids N img) /\
  snd (crop_ids N img) <= N /\
  snd (crop_ids N img) - fst (crop_ids N img) = img.
Proof.
  intros H. unfold crop_ids, shift_pix, pymod, floordiv; cbn [fst snd].
  rewrite ceil_half.
  destruct (N mod 2 =? img mod 2) eqn:E1.
  - apply Z.eqb_eq in E1. Z.div_mod_to_equations. lia.
  - apply Z.eqb_neq in E1.
    destruct (N mod 2 =? 0) eqn:E2.
    + apply Z.eqb_eq in E2. Z.div_mod_to_equations. lia.
    + apply Z.eqb_neq in E2. Z.div_mod_to_equations. lia.
Qed.

End CropFacts.


Module ArrayFacts.
Import Py Np.

Lemma broadcast_rev_same (s : list Z) : broadcast_rev s s = Some s.
Proof.
  induction s as [|n s IH]; [reflexivity|].
  cbn [broadcast_rev]. rewrite IH, Z.eqb_refl. reflexivity.
Qed.

Lemma broadcast_same (s : list Z) : broadcast s s = Some s.
Proof.
  unfold broadcast. rewrite broadcast_rev_same. cbn [option_map].
  now rewrite rev_involutive.
Qed.

Lemma map2_same_shape {A B C} (f : A -> B -> C) (a : ndarray A)
    (b : ndarray B) :
  shape a = shape b ->
  exists c, map2 f a b = inr c /\ shape c = shape a.
Proof.
  intros E. unfold map2. rewrite <- E, broadcast_same.
  eexists; split; reflexivity.
Qed.

Lemma mul_same_shape (a b : ndarray Q) :
  shape a = shape b ->
  mul a b = inr (mk_nd (shape a)
                   (fun ix => (item a (bindex (shape a) ix)
                               * item b (bindex (shape b) ix))%Q)).
Proof.
  intros E. unfold mul. rewrite <- E at 1. now rewrite broadcast_same.
Qed.

Lemma shape_fftshift {A} (a : ndarray A) : shape (fftshift a) = shape a.
Proof. reflexivity. Qed.

Lemma shape_ifftshift {A} (a : ndarray A) : shape (ifftshift a) = shape a.
Proof. reflexivity. Qed.

Lemma shape_map_nd {A B} (f : A -> B) (a : ndarray A) :
  shape (map_nd f a) = shape a.
Proof. reflexivity. Qed.

End ArrayFacts.

Module PropagateFacts.
Import Py Np Telescope NumFacts CropFacts ArrayFacts.

Section WithPlatform.
Context `{P : Platform}.

Lemma shape_fft2 (a : ndarray (Q * Q)) : shape (fft2 a) = shape a.
Proof. reflexivity. Qed.

Lemma shape_ifft2 (a : ndarray (Q * Q)) : shape (ifft2 a) = shape a.
Proof. reflexivity. Qed.

(** The integer oversampling: at least 1, and enough for a padding factor
    of 2. *)
Lemma oversampling_bounds (zpf : Q) (ov : Z) :
  (0 < zpf)%Q ->
  integer_oversampling zpf 1 = inr ov ->
  1 <= ov /\ (2 <= zpf * inject_Z ov)%Q.
Proof.
  intros Hz. unfold integer_oversampling.
  destruct (Qltb (zpf * inject_Z 1) 2) eqn:E.
  - destruct (Qeq_bool zpf 0) eqn:E0; [discriminate|].
    intros [= <-]. apply Qltb_true in E.
    change (inject_Z 1) with 1%Q in E.
    assert (L : (2.0 / zpf <= inject_Z (ceil (2.0 / zpf)))%Q)
      by apply Qle_ceiling.
    assert (H2 : (2 <= zpf * inject_Z (ceil (2.0 / zpf)))%Q).
    { apply Qle_trans with (zpf * (2.0 / zpf))%Q.
      - assert (X : (zpf * (2.0 / zpf) == 2)%Q)
          by (field; intro Z0; rewrite Z0 in Hz; discriminate).
        rewrite X. apply Qle_refl.
      - apply Qmult_le_l; assumption. }
    split; [|exact H2].
    assert (H1 : (1 < 2.0 / zpf)%Q).
    { apply Qlt_shift_div_l; [assumption|]. lra. }
    assert (H3 : (inject_Z 0 < inject_Z (ceil (2.0 / zpf)))%Q).
    { apply Qlt_le_trans with (2.0 / zpf)%Q; [|assumption].
      change (inject_Z 0) with 0%Q. lra. }
    rewrite <- Zlt_Qlt in H3. lia.
  - intros [= <-]. apply Qltb_false in E.
    change (inject_Z 1) with 1%Q in *. split; [lia|]. lra.
Qed.

Lemma oversampling_returns (zpf : Q) :
  (0 < zpf)%Q -> exists ov, integer_oversampling zpf 1 = inr ov.
Proof.
  intros Hz. unfold integer_oversampling.
  destruct (Qltb (zpf * inject_Z 1) 2); [|eauto].
  destruct (Qeq_bool zpf 0) eqn:E0; [|eauto].
  apply Qeq_bool_iff in E0. rewrite E0 in Hz. discriminate.
Qed.

(** The padded transform is at least as large as the pupil, and as large
    as any integer resolution that passes the check, oversampled. *)
Lemma padded_size_bounds (zpf : Q) (ov res : Z) :
  1 <= ov -> (2 <= zpf * inject_Z ov)%Q -> (0 < zpf)%Q -> 0 <= res ->
  let N0 := fix_ (zpf * inject_Z ov * inject_Z res) in
  let pw := ceil (inject_Z (N0 - res) / 2) in
  0 <= pw /\
  forall k, 0 <= k -> (inject_Z k <= zpf * inject_Z res)%Q ->
            k * ov <= res + pw + pw.
Proof.
  intros Hov H2 Hz Hres N0 pw.
  assert (Rov : (1 <= inject_Z ov)%Q)
    by (change 1%Q with (inject_Z 1); now rewrite <- Zle_Qle).
  assert (Rres : (0 <= inject_Z res)%Q)
    by (change 0%Q with (inject_Z 0); now rewrite <- Zle_Qle).
  set (q := (zpf * inject_Z ov * inject_Z res)%Q) in *.
  assert (Q0 : (0 <= q)%Q) by (unfold q; nra).
  assert (EN : N0 = Qfloor q).
  { unfold N0, fix_. apply Qle_bool_iff in Q0. now rewrite Q0. }
  assert (A : 2 * res <= N0).
  { rewrite EN. rewrite <- (Qfloor_Z (2 * res)).
    apply Qfloor_resp_le. rewrite inject_Z_mult.
    change (inject_Z 2) with 2%Q. unfold q. nra. }
  split.
  - unfold pw. rewrite ceil_half. Z.div_mod_to_equations. lia.
  - intros k Hk Hle.
    assert (Rk : (0 <= inject_Z k)%Q)
      by (change 0%Q with (inject_Z 0); now rewrite <- Zle_Qle).
    assert (B : k * ov <= N0).
    { rewrite EN. rewrite <- (Qfloor_Z (k * ov)).
      apply Qfloor_resp_le. rewrite inject_Z_mult. unfold q. nra. }
    unfold pw. rewrite ceil_half. Z.div_mod_to_equations. lia.
Qed.

(** On a square pupil, with a positive padding factor and a resolution
    that passes the check, every step of [PropagateField] succeeds. *)
Lemma propagate_returns (self : TelescopeData.t)
    (amplitude phase : ndarray Q) (zpf : Q) (img : option Q) (res : Z) :
  shape (pupil self) = [res; res] ->
  shape amplitude = [res; res] ->
  shape phase = [res; res] ->
  0 < res -> (0 < zpf)%Q ->
  (forall x, img = Some x -> (x <= zpf * inject_Z res)%Q) ->
  exists r,
    propagate self amplitude phase zpf img = inr r /\
    integer_oversampling zpf 1 = inr (p_oversampling r) /\
    p_N r = res
            + 2 * ceil (inject_Z
                          (fix_ (zpf * inject_Z (p_oversampling r)
                                 * inject_Z res) - res) / 2) /\
    p_img_size r = ceil (Spec.resolved img zpf res * inject_Z (p_oversampling r)) /\
    shape (p_transform r) = [p_N r; p_N r] /\
    slice2 (p_transform r)
      (sl (fst (crop_ids (p_N r) (p_img_size r)))
          (snd (crop_ids (p_N r) (p_img_size r))))
      (sl (fst (crop_ids (p_N r) (p_img_size r)))
          (snd (crop_ids (p_N r) (p_img_size r))))
    = inr (p_focal_EMF r).
Proof.
  intros Hpup Hamp Hph Hres Hz Hle.
  unfold propagate, shape_at. rewrite Hpup. cbn [nth_error].
  assert (Himg : match img with
                 | Some r =>
                     if Qgtb r (zpf * inject_Z res)
                     then inl (ValueError "Error: image has too many pixels for this pupil sampling. Try using a pupil mask with more pixels")
                     else inr r
                 | None => inr (zpf * inject_Z res)%Q
                 end = inr (Spec.resolved img zpf res)).
  { destruct img as [x|]; [|reflexivity].
    assert (G : Qgtb x (zpf * inject_Z res) = false)
      by (unfold Qgtb; apply Qltb_false; auto).
    now rewrite G. }
  rewrite Himg. clear Himg.
  destruct (oversampling_returns zpf Hz) as [ov Eov]. rewrite Eov.
  destruct (oversampling_bounds zpf ov Hz Eov) as [Hov H2].
  destruct (padded_size_bounds zpf ov res Hov H2 Hz (Z.lt_le_incl _ _ Hres))
    as [Hpw _].
  set (N0 := fix_ (zpf * inject_Z ov * inject_Z res)) in *.
  set (pw := ceil (inject_Z (N0 - res) / 2)) in *.
  destruct (map2_same_shape (fun a ph => cscale a (xp_exp_i ph))
              amplitude phase) as (support & -> & Hsup);
    [congruence|].
  rewrite Hamp in Hsup.
  unfold pad2 at 1. rewrite Hsup.
  assert (Epw : (pw <? 0) = false) by (apply Z.ltb_ge; lia).
  rewrite Epw. cbn [orb nth_error shape].
  set (N := res + pw + pw) in *.
  assert (EN : (N =? 0) = false) by (apply Z.eqb_neq; lia).
  rewrite EN.
  set (supportPadded := mk_nd [N; N] _).
  set (phasor := grid N _ (0%Q, 0%Q)).
  set (img_size := ceil (Spec.resolved img zpf res * inject_Z ov)).
  assert (Hfinish : forall EMF : ndarray (Q * Q),
             shape EMF = [N; N] ->
             exists r,
               (cropped <-! slice2 EMF
                  (sl (fst (crop_ids N img_size)) (snd (crop_ids N img_size)))
                  (sl (fst (crop_ids N img_size)) (snd (crop_ids N img_size))) ;;
                inr (mk_propagation ov img_size N EMF cropped))%py = inr r /\
               p_oversampling r = ov /\
               p_N r = N /\
               p_img_size r = img_size /\
               shape (p_transform r) = [p_N r; p_N r] /\
               slice2 (p_transform r)
                 (sl (fst (crop_ids (p_N r) (p_img_size r)))
                    (snd (crop_ids (p_N r) (p_img_size r))))
                 (sl (fst (crop_ids (p_N r) (p_img_size r)))
                    (snd (crop_ids (p_N r) (p_img_size r))))
               = inr (p_focal_EMF r)).
  { intros EMF HE.
    assert (S : exists c,
               slice2 EMF
                 (sl (fst (crop_ids N img_size)) (snd (crop_ids N img_size)))
                 (sl (fst (crop_ids N img_size)) (snd (crop_ids N img_size)))
               = inr c).
    { unfold slice2. rewrite HE. eexists. reflexivity. }
    destruct S as [c Ec]. rewrite Ec. eexists. split; [reflexivity|].
    cbn [p_oversampling p_N p_img_size p_transform p_focal_EMF].
    repeat split; assumption. }
  assert (Hclose : forall g : exn + propagation,
             (exists r,
                g = inr r /\ p_oversampling r = ov /\ p_N r = N /\
                p_img_size r = img_size /\
                shape (p_transform r) = [p_N r; p_N r] /\
                slice2 (p_transform r)
                  (sl (fst (crop_ids (p_N r) (p_img_size r)))
                     (snd (crop_ids (p_N r) (p_img_size r))))
                  (sl (fst (crop_ids (p_N r) (p_img_size r)))
                     (snd (crop_ids (p_N r) (p_img_size r))))
                = inr (p_focal_EMF r)) ->
             exists r,
               g = inr r /\
               inr ov = inr (A := exn) (p_oversampling r) /\
               p_N r = res
                       + 2 * ceil (inject_Z
                                     (fix_ (zpf * inject_Z (p_oversampling r)
                                            * inject_Z res) - res) / 2) /\
               p_img_size r
               = ceil (Spec.resolved img zpf res * inject_Z (p_oversampling r)) /\
               shape (p_transform r) = [p_N r; p_N r] /\
               slice2 (p_transform r)
                 (sl (fst (crop_ids (p_N r) (p_img_size r)))
                    (snd (crop_ids (p_N r) (p_img_size r))))
                 (sl (fst (crop_ids (p_N r) (p_img_size r)))
                    (snd (crop_ids (p_N r) (p_img_size r))))
               = inr (p_focal_EMF r)).
  { intros g (r & Eg & Eo & En' & Ei & Ht & Hs). exists r.
    rewrite Eo. repeat split; try assumption.
    rewrite En'. unfold N, pw, N0. lia. }
  destruct (map2_same_shape cmul supportPadded phasor) as (f & Ef & Hf);
    [reflexivity|].
  destruct (TelescopeData.coronagraph_diameter self) as [diameter|].
  - unfold pad2. rewrite Hpup, Epw. cbn [orb].
    fold N.
    match goal with
    | |- context [map2 ?g (grid N ?h 0%Q) ?b] =>
        destruct (map2_same_shape g (grid N h 0%Q) b) as (lyot & -> & Hl);
          [reflexivity|]
    end.
    rewrite Ef.
    match goal with
    | |- context [map2 ?g f ?b] =>
        destruct (map2_same_shape g f b) as (f1 & -> & Hf1);
          [rewrite Hf; reflexivity|]
    end.
    match goal with
    | |- context [map2 ?g (fftshift ?a) ?b] =>
        destruct (map2_same_shape g (fftshift a) b) as (B1 & -> & HB1);
          [cbn; rewrite Hf1, Hf; reflexivity|]
    end.
    destruct (map2_same_shape cmul B1 phasor) as (B2 & -> & HB2);
      [rewrite HB1; cbn; rewrite Hf1, Hf; reflexivity|].
    match goal with
    | |- context [map2 ?g (fftshift ?a) lyot] =>
        destruct (map2_same_shape g (fftshift a) lyot) as (C1 & -> & HC1);
          [cbn; rewrite HB2, HB1, Hl; cbn; rewrite Hf1, Hf; reflexivity|]
    end.
    destruct (map2_same_shape cmul C1 phasor) as (C2 & -> & HC2);
      [rewrite HC1; cbn; rewrite HB2, HB1; cbn; rewrite Hf1, Hf;
       reflexivity|].
    apply Hclose, Hfinish. cbn. rewrite HC2, HC1. cbn.
    rewrite HB2, HB1. cbn. rewrite Hf1, Hf. reflexivity.
  - rewrite Ef. apply Hclose, Hfinish. cbn. rewrite Hf. reflexivity.
Qed.

(** With an integer resolution that passes the check, [PropagateField]
    returns, and the cropped field is the window of [img_size] by
    [img_size] pixels of the [N] by [N] transform that starts at the first
    of the two bounds [ids]; the second bound is moved by [shift_pix], which
    is 0 for equal parities of [N] and [img_size], 1 for [N] even and
    [img_size] odd, and -1 for [N] odd and [img_size] even. *)
Theorem propagate_integer_resolution (self : TelescopeData.t)
    (amplitude phase : ndarray Q) (zpf : Q) (k res : Z) :
  shape (pupil self) = [res; res] ->
  shape amplitude = [res; res] ->
  shape phase = [res; res] ->
  0 < res -> (0 < zpf)%Q -> 0 <= k ->
  (inject_Z k <= zpf * inject_Z res)%Q ->
  exists r,
    propagate self amplitude phase zpf (Some (inject_Z k)) = inr r /\
    1 <= p_oversampling r /\
    p_img_size r = ceil (inject_Z k * inject_Z (p_oversampling r)) /\
    shape (p_transform r) = [p_N r; p_N r] /\
    shape (p_focal_EMF r) = [p_img_size r; p_img_size r] /\
    (forall i j,
       item (p_focal_EMF r) [i; j]
       = item (p_transform r)
           [fst (crop_ids (p_N r) (p_img_size r)) + i;
            fst (crop_ids (p_N r) (p_img_size r)) + j]) /\
    snd (crop_ids (p_N r) (p_img_size r))
    = ceil (inject_Z (p_N r) / 2) + floordiv (p_img_size r) 2
      + (if pymod (p_N r) 2 =? pymod (p_img_size r) 2 then 0
         else if pymod (p_N r) 2 =? 0 then 1 else -1).
Proof.
  intros Hpup Hamp Hph Hres Hz Hk Hle.
  destruct (propagate_returns self amplitude phase zpf (Some (inject_Z k))
              res Hpup Hamp Hph Hres Hz)
    as (r & Er & Eov & EN & Eimg & Ht & Hs).
  { intros x [= <-]. exact Hle. }
  exists r. split; [exact Er|]. cbn [Spec.resolved] in Eimg.
  destruct (oversampling_bounds zpf _ Hz Eov) as [Hov H2].
  split; [exact Hov|].
  split; [exact Eimg|]. split; [exact Ht|].
  destruct (padded_size_bounds zpf _ res Hov H2 Hz (Z.lt_le_incl _ _ Hres))
    as [Hpw Hsize].
  specialize (Hsize k Hk Hle).
  rewrite ceil_mult_Z in Eimg.
  assert (Hwin : 0 <= p_img_size r <= p_N r).
  { rewrite Eimg, EN. split; [apply Z.mul_nonneg_nonneg; lia | lia]. }
  destruct (crop_window (p_N r) (p_img_size r) Hwin) as (C1 & C2 & C3).
  destruct (slice_in (p_N r) (fst (crop_ids (p_N r) (p_img_size r)))
              (snd (crop_ids (p_N r) (p_img_size r)))) as [S1 S2];
    [lia..|].
  unfold slice2 in Hs. rewrite Ht, S1, S2, C3 in Hs.
  injection Hs as Hs. rewrite <- Hs. cbn [shape item].
  repeat split.
Qed.

(** Errors other than the one of the resolution check. *)
Lemma map2_error {A B C} (f : A -> B -> C) (a : ndarray A) (b : ndarray B)
    (e : exn) :
  map2 f a b = inl e -> e <> Spec.too_many_pixels.
Proof.
  unfold map2. destruct (broadcast (shape a) (shape b)); [discriminate|].
  intros [= <-]. discriminate.
Qed.

Lemma pad2_error {A} (zero : A) (a : ndarray A) (p q : Z) (e : exn) :
  pad2 zero a p q = inl e -> e <> Spec.too_many_pixels.
Proof.
  unfold pad2. destruct (shape a) as [|? [|? [|? ?]]];
    try (intros [= <-]; discriminate).
  destruct ((p <? 0) || (q <? 0)); [|discriminate].
  intros [= <-]. discriminate.
Qed.

Lemma slice2_error {A} (a : ndarray A) (rs cs : slice) (e : exn) :
  slice2 a rs cs = inl e -> e <> Spec.too_many_pixels.
Proof.
  unfold slice2. destruct (shape a) as [|? [|? [|? ?]]];
    try (intros [= <-]; discriminate); discriminate.
Qed.

Lemma shape_at_error {A} (a : ndarray A) (k : nat) (e : exn) :
  shape_at a k = inl e -> e <> Spec.too_many_pixels.
Proof.
  unfold shape_at. destruct (nth_error (shape a) k); [discriminate|].
  intros [= <-]. discriminate.
Qed.

Lemma oversampling_error (zpf : Q) (e : exn) :
  integer_oversampling zpf 1 = inl e -> e <> Spec.too_many_pixels.
Proof.
  unfold integer_oversampling.
  destruct (Qltb (zpf * inject_Z 1) 2); [|discriminate].
  destruct (Qeq_bool zpf 0); [|discriminate].
  intros [= <-]. discriminate.
Qed.

Create HintDb prop_err.
#[local] Hint Resolve map2_error pad2_error slice2_error shape_at_error
  oversampling_error : prop_err.

Ltac head_step :=
  match goal with
  | |- (match ?X with inl _ => _ | inr _ => _ end) = inl _ -> _ =>
      let E := fresh "E" in
      destruct X as [?|?] eqn:E;
      [intros [= <-]; first [solve [eauto with prop_err] | revert E]|]
  | |- (match ?X with Some _ => _ | None => _ end) = inl _ -> _ =>
      destruct X
  | |- (if ?X then inl ?e else _) = inl _ -> _ =>
      destruct X; [intros [= <-]; discriminate|]
  | |- (if ?X then _ else _) = inl _ -> _ => destruct X
  | |- inr _ = inl _ -> _ => discriminate
  end.

(** The steps after the check do not raise its error. *)
Lemma propagate_error (self : TelescopeData.t) (amplitude phase : ndarray Q)
    (zpf : Q) (img : option Q) (res : Z) (e : exn) :
  shape_at (pupil self) 0 = inr res ->
  propagate self amplitude phase zpf img = inl e ->
  e = Spec.too_many_pixels ->
  exists r, img = Some r /\ Qgtb r (zpf * inject_Z res) = true.
Proof.
  intros Hres. unfold propagate. rewrite Hres.
  destruct img as [r|].
  - destruct (Qgtb r (zpf * inject_Z res)) eqn:G; [eauto|].
    intros H Ee. exfalso. revert H. subst e.
    assert (X : forall g : exn + propagation,
               (g = inl Spec.too_many_pixels -> False) ->
               g = inl Spec.too_many_pixels -> False) by auto.
    apply X. clear X.
    enough (forall e', _ = inl e' -> e' <> Spec.too_many_pixels) as X
      by (intro H; exact (X _ H eq_refl)).
    intro e'. repeat head_step.
  - intros H Ee. exfalso. revert H. subst e.
    enough (forall e', _ = inl e' -> e' <> Spec.too_many_pixels) as X
      by (intro H; exact (X _ H eq_refl)).
    intro e'. repeat head_step.
Qed.

(** The method writes [focal_EMF] once the transform is cropped, and [PSF]
    once the binning has returned. *)
Lemma PropagateField_run (amplitude phase : ndarray Q) (zpf : Q)
    (img : option Q) (self : TelescopeData.t) :
  PropagateField amplitude phase zpf img self
  = match propagate self amplitude phase zpf img with
    | inl e => (self, inl e)
    | inr r =>
        let written :=
          TelescopeData.with_focal_EMF (Some (p_focal_EMF r)) self in
        match focal_PSF r with
        | inl e => (written, inl e)
        | inr a =>
            (TelescopeData.with_PSF (Some (PSF_nd a)) written,
             inr (p_oversampling r))
        end
    end.
Proof.
  unfold PropagateField, Mon.bind, Mon.get, Mon.lift, Mon.modify, Mon.ret.
  destruct (propagate self amplitude phase zpf img) as [e|r];
    [reflexivity|].
  cbv zeta. destruct (focal_PSF r); reflexivity.
Qed.

(** What the binning step raises is raised by the helper. *)
Lemma focal_PSF_error (r : propagation) (e : exn) :
  focal_PSF r = inl e ->
  p_oversampling r <> 1 /\
  set_binning (map_nd (fun z => (xp_abs z ^ 2)%Q) (p_focal_EMF r))
    (p_oversampling r) = inl e.
Proof.
  unfold focal_PSF. destruct (p_oversampling r =? 1) eqn:E; cbn [negb].
  - discriminate.
  - apply Z.eqb_neq in E. auto.
Qed.

(** The binning step returns on a cropped field of [k] times the
    oversampling pixels per side. *)
Lemma focal_PSF_returns (r : propagation) (k : Z) :
  Spec.binning_divides -> 0 < k -> 1 <= p_oversampling r ->
  shape (p_focal_EMF r) = [k * p_oversampling r; k * p_oversampling r] ->
  exists a, focal_PSF r = inr a.
Proof.
  intros Hb Hk Hov Hs. unfold focal_PSF.
  destruct (p_oversampling r =? 1) eqn:E; cbn [negb]; [eauto|].
  apply Z.eqb_neq in E. apply (Hb _ k); [lia | lia |]. exact Hs.
Qed.

End WithPlatform.
End PropagateFacts.


Module PropagateFieldClaims.
Import Py Np Telescope NumFacts CropFacts ArrayFacts PropagateFacts.

Section WithPlatform.
Context `{P : Platform}.

Ltac ok_step :=
  match goal with
  | |- (match ?X with inl _ => _ | inr _ => _ end) = inr _ -> _ =>
      destruct X as [?|?]; [discriminate|]
  | |- (match ?X with Some _ => _ | None => _ end) = inr _ -> _ =>
      destruct X
  | |- (if ?X then inl _ else _) = inr _ -> _ =>
      destruct X; [discriminate|]
  end.

(** The size that [PropagateField] crops to when no resolution is given. *)
Lemma propagate_default_size (self : TelescopeData.t)
    (amplitude phase : ndarray Q) (zpf : Q) (res : Z) (r : propagation) :
  shape_at (pupil self) 0 = inr res ->
  propagate self amplitude phase zpf None = inr r ->
  p_img_size r = ceil (zpf * inject_Z res * inject_Z (p_oversampling r)).
Proof.
  intros Hres. unfold propagate. rewrite Hres.
  repeat ok_step; intros [= <-]; reflexivity.
Qed.

(** C2.  A call of [PropagateField] with a resolution raises the error of
    the resolution check exactly when the resolution exceeds the padding
    factor times the size of the pupil, the binning helper having an error
    of its own.  The call that fails the check leaves the telescope as it
    was: nothing is computed or replaced; and no call that raises replaces
    the point-spread function.  Without a resolution the check cannot fail,
    and the resolution is the padding factor times the size of the pupil.
    On a square pupil with a positive padding factor the only other step
    that can raise is the binning of the oversampled irradiance, after
    [focal_EMF] has been written; for a positive whole number of pixels,
    with a helper that bins every square array whose side is a multiple of
    the factor, the call raises exactly when the check fails. *)
Theorem PropagateField_resolution_check (self : TelescopeData.t)
    (amplitude phase : ndarray Q) (zpf : Q) (res : Z) :
  shape_at (pupil self) 0 = inr res ->
  let run img := PropagateField amplitude phase zpf img self in
  (~ Spec.binning_error Spec.too_many_pixels ->
   forall r,
     snd (run (Some r)) = inl Spec.too_many_pixels
     <-> (zpf * inject_Z res < r)%Q) /\
  (forall r,
     (zpf * inject_Z res < r)%Q ->
     run (Some r) = (self, inl Spec.too_many_pixels)) /\
  (forall img e,
     snd (run img) = inl e ->
     TelescopeData.PSF (fst (run img)) = TelescopeData.PSF self) /\
  (~ Spec.binning_error Spec.too_many_pixels ->
   snd (run None) <> inl Spec.too_many_pixels) /\
  (forall r,
     propagate self amplitude phase zpf None = inr r ->
     p_img_size r
     = ceil (zpf * inject_Z res * inject_Z (p_oversampling r))) /\
  (shape (pupil self) = [res; res] ->
   shape amplitude = [res; res] ->
   shape phase = [res; res] ->
   0 < res -> (0 < zpf)%Q ->
   (forall img e,
      snd (run img) = inl e ->
      (exists r,
         img = Some r /\ (zpf * inject_Z res < r)%Q /\
         e = Spec.too_many_pixels /\ fst (run img) = self) \/
      (exists x,
         propagate self amplitude phase zpf img = inr x /\
         p_oversampling x <> 1 /\
         (set_binning (map_nd (fun z => (xp_abs z ^ 2)%Q) (p_focal_EMF x))
            (p_oversampling x) = inl e) /\
         fst (run img)
         = TelescopeData.with_focal_EMF (Some (p_focal_EMF x)) self)) /\
   (Spec.binning_divides ->
    forall k, 0 < k ->
      (exists e, snd (run (Some (inject_Z k))) = inl e)
      <-> (zpf * inject_Z res < inject_Z k)%Q)).
Proof.
  intros Hres run.
  assert (Hraise : forall r,
             (zpf * inject_Z res < r)%Q ->
             propagate self amplitude phase zpf (Some r)
             = inl Spec.too_many_pixels).
  { intros r Hr. unfold propagate. rewrite Hres.
    assert (G : Qgtb r (zpf * inject_Z res) = true)
      by (unfold Qgtb; now apply Qltb_true).
    now rewrite G. }
  assert (Hcheck : forall img,
             snd (run img) = inl Spec.too_many_pixels ->
             ~ Spec.binning_error Spec.too_many_pixels ->
             exists r, img = Some r /\ (zpf * inject_Z res < r)%Q).
  { intros img. unfold run. rewrite PropagateField_run.
    destruct (propagate self amplitude phase zpf img) as [e|x] eqn:E.
    - cbn [snd]. intros [= ->] _.
      destruct (propagate_error self amplitude phase zpf img res _
                  Hres E eq_refl) as (r & -> & G).
      exists r. split; [reflexivity|].
      unfold Qgtb in G. now apply Qltb_true in G.
    - cbv zeta. destruct (focal_PSF x) as [e|a] eqn:F; [|discriminate].
      cbn [snd]. intros [= ->] Hb. exfalso. apply Hb.
      destruct (focal_PSF_error x _ F) as [_ B]. red. eauto. }
  split; [|split; [|split; [|split; [|split]]]].
  - intros Hb r. split.
    + intros H. destruct (Hcheck _ H Hb) as (r' & [= <-] & Hr). exact Hr.
    + intros Hr. unfold run. rewrite PropagateField_run.
      now rewrite (Hraise r Hr).
  - intros r Hr. unfold run. rewrite PropagateField_run.
    now rewrite (Hraise r Hr).
  - intros img e. unfold run. rewrite PropagateField_run.
    destruct (propagate self amplitude phase zpf img); [reflexivity|].
    cbv zeta. destruct (focal_PSF p); [reflexivity|discriminate].
  - intros Hb H. destruct (Hcheck _ H Hb) as (r & [=] & _).
  - intros r. now apply propagate_default_size.
  - intros Hpup Hamp Hph Hpos Hz. split.
    + intros img e. unfold run. rewrite PropagateField_run.
      destruct (propagate self amplitude phase zpf img) as [e'|x] eqn:E.
      * cbn [snd fst]. intros [= ->]. left.
        destruct img as [r|].
        -- destruct (Qlt_le_dec (zpf * inject_Z res) r) as [Hr|Hr].
           ++ exists r. rewrite (Hraise r Hr) in E.
              injection E as <-. repeat split. exact Hr.
           ++ destruct (propagate_returns self amplitude phase zpf (Some r)
                          res Hpup Hamp Hph Hpos Hz) as (x & Ex & _).
              { now intros ? [= <-]. }
              rewrite Ex in E. discriminate.
        -- destruct (propagate_returns self amplitude phase zpf None
                       res Hpup Hamp Hph Hpos Hz) as (x & Ex & _).
           { discriminate. }
           rewrite Ex in E. discriminate.
      * cbv zeta. destruct (focal_PSF x) as [e'|a] eqn:F; [|discriminate].
        cbn [snd fst]. intros [= ->]. right. exists x.
        destruct (focal_PSF_error x _ F) as [Hov B].
        repeat split; assumption.
    + intros Hb k Hk. unfold run. rewrite PropagateField_run. split.
      * intros [e He]. apply Qnot_le_lt. intro Hle.
        destruct (propagate_integer_resolution self amplitude phase zpf k
                    res Hpup Hamp Hph Hpos Hz (Z.lt_le_incl _ _ Hk) Hle)
          as (x & Ex & Hov & Eimg & _ & Hs & _).
        rewrite Ex in He. cbv zeta in He.
        rewrite ceil_mult_Z in Eimg. rewrite Eimg in Hs.
        destruct (focal_PSF_returns x k Hb Hk Hov Hs) as [a Ea].
        rewrite Ea in He. discriminate.
      * intros Hr. rewrite (Hraise _ Hr). eexists. reflexivity.
Qed.

(** C1, at a padding factor with a fractional product.  On the circular
    pupil of 7 pixels, [PropagateField] with the padding factor 2.5 and no
    resolution returns with the oversampling 1; it computes
    [img_size = 18] from the resolution 17.5 and [N = 17] from the padded
    pupil, so that the first bound of the crop is -1, and the cropped field
    has one pixel per side. *)
Theorem PropagateField_crop_past_transform :
  let run :=
    PropagateField (Examples.flat7 1) (Examples.flat7 0) 2.5 None
      Examples.tel7 in
  let r := propagate Examples.tel7 (Examples.flat7 1) (Examples.flat7 0)
             2.5 None in
  snd run = inr 1 /\
  match r with
  | inr x =>
      p_img_size x = 18 /\ p_N x = 17 /\
      crop_ids (p_N x) (p_img_size x) = (-1, 17)
  | inl _ => False
  end /\
  option_map (@shape (Q * Q)) (TelescopeData.focal_EMF (fst run))
  = Some [1; 1].
Proof.
  vm_compute. repeat split.
Qed.

End WithPlatform.

#[local] Existing Instance Reference.platform.

(** The reference helper raises errors of its own. *)
Lemma reference_binning_error :
  ~ Spec.binning_error Spec.too_many_pixels.
Proof.
  intros (a & k & H). cbn in H. unfold Reference.binning in H.
  destruct (shape a) as [|n [|m [|? ?]]]; try discriminate.
  destruct (k =? 0); [discriminate|].
  destruct (negb (pymod n k =? 0)); [discriminate|].
  match type of H with
  | (if ?b then _ else _) = _ => destruct b; [discriminate|]
  end.
  match type of H with
  | (if ?b then _ else _) = _ => destruct b; discriminate
  end.
Qed.

(** Rounding a whole number. *)
Lemma round_whole (x : Q) (n : Z) : (x == inject_Z n)%Q -> round x = n.
Proof.
  intros E. unfold round.
  assert (F : Qfloor x = n) by (rewrite (Qfloor_comp _ _ E); apply Qfloor_Z).
  rewrite F.
  assert (C : ((x - inject_Z n) ?= (1 # 2))%Q = Lt).
  { rewrite <- Qlt_alt. rewrite E. lra. }
  now rewrite C.
Qed.

(** The reference helper bins every square array whose side is a positive
    multiple of the factor. *)
Lemma reference_binning_divides : Spec.binning_divides.
Proof.
  intros a n k Hn Hk Hs. cbn. unfold Reference.binning. rewrite Hs.
  assert (K0 : (k =? 0) = false) by (apply Z.eqb_neq; lia).
  rewrite K0. unfold pymod, floordiv. rewrite Z.mod_mul by lia.
  cbn [Z.eqb negb].
  assert (R : round (inject_Z (n * k) / inject_Z k) = n).
  { apply round_whole. rewrite inject_Z_mult. field.
    intro Z0. unfold Qeq in Z0. cbn in Z0. lia. }
  rewrite R.
  assert (N0 : (n =? 0) = false) by (apply Z.eqb_neq; lia).
  rewrite N0. cbn [orb].
  replace (n * k / n) with k by (rewrite Z.mul_comm, Z.div_mul; lia).
  assert (L1 : (n <? 0) = false) by (apply Z.ltb_ge; lia).
  assert (L2 : (k <? 0) = false) by (apply Z.ltb_ge; lia).
  assert (L3 : (n * k * n * k =? n * k * (n * k)) = true)
    by (apply Z.eqb_eq; ring).
  rewrite L1, L2, L3. cbn [orb negb]. eexists. reflexivity.
Qed.

(** The check of C2 on the pupil of 7 pixels: 15 pixels exceed twice the
    pupil, and the telescope is left as it was; 7 pixels pass with the
    padding factor 1, where the irradiance is binned by 2. *)
Lemma PropagateField_resolution_check_witness :
  shape_at (pupil Examples.tel7) 0 = inr 7 /\
  PropagateField (Examples.flat7 1) (Examples.flat7 0) 2 (Some 15%Q)
    Examples.tel7
  = (Examples.tel7, inl Spec.too_many_pixels) /\
  ~ (exists e,
       snd (PropagateField (Examples.flat7 1) (Examples.flat7 0) 1
              (Some (inject_Z 7)) Examples.tel7) = inl e).
Proof.
  assert (H : shape_at (pupil Examples.tel7) 0 = inr 7)
    by (vm_compute; reflexivity).
  split; [exact H|].
  destruct (PropagateField_resolution_check Examples.tel7
              (Examples.flat7 1) (Examples.flat7 0) 2 7 H)
    as (_ & T2 & _).
  split; [apply T2; reflexivity|].
  destruct (PropagateField_resolution_check Examples.tel7
              (Examples.flat7 1) (Examples.flat7 0) 1 7 H)
    as (_ & _ & _ & _ & _ & T6).
  assert (Hp : shape (pupil Examples.tel7) = [7; 7])
    by (vm_compute; reflexivity).
  destruct (T6 Hp eq_refl eq_refl ltac:(lia) ltac:(reflexivity))
    as [_ T].
  intro E.
  apply (proj1 (T reference_binning_divides 7 ltac:(lia))) in E.
  revert E. vm_compute. intro E. discriminate E.
Defined.

End PropagateFieldClaims.


(* ================================================================== *)
(** * Reasoning on method bodies *)
(* ================================================================== *)

Module MonFacts.
Import Py Mon.

Section Laws.
Context {S : Type}.

Lemma bind_inl {A B} (c : M S A) (k : A -> M S B) (s s' : S) (e : exn) :
  c s = (s', inl e) -> bind c k s = (s', inl e).
Proof. unfold bind. now intros ->. Qed.

Lemma bind_inr {A B} (c : M S A) (k : A -> M S B) (s s' : S) (a : A) :
  c s = (s', inr a) -> bind c k s = k a s'.
Proof. unfold bind. now intros ->. Qed.

(** A sequence raises as soon as its continuation always does. *)
Lemma raises_bind {A B} (c : M S A) (k : A -> M S B) :
  (forall a, raises (k a)) -> raises (bind c k).
Proof.
  intros H s. unfold bind. destruct (c s) as [s' [e|a]].
  - now exists e.
  - apply H.
Qed.

Lemma raises_raise {A B} (e : exn) (k : A -> M S B) :
  raises (bind (raise e) k).
Proof. intros s. now exists e. Qed.

(** Exceptions that a sequence cannot raise. *)
Lemma avoids_bind {A B} (bad : exn) (c : M S A) (k : A -> M S B) :
  avoids bad c -> (forall a, avoids bad (k a)) -> avoids bad (bind c k).
Proof.
  intros Hc Hk s e. unfold bind.
  destruct (c s) as [s' [e'|a]] eqn:E.
  - cbn. intros [= <-]. apply (Hc s). now rewrite E.
  - apply Hk.
Qed.

Lemma avoids_ret {A} (bad : exn) (a : A) : avoids bad (ret (S := S) a).
Proof. intros s e. discriminate. Qed.

Lemma avoids_get (bad : exn) : avoids bad (get (S := S)).
Proof. intros s e. discriminate. Qed.

Lemma avoids_modify (bad : exn) (f : S -> S) : avoids bad (modify f).
Proof. intros s e. discriminate. Qed.

Lemma avoids_put (bad : exn) (x : S) : avoids bad (put x).
Proof. intros s e. discriminate. Qed.

Lemma avoids_raise {A} (bad e : exn) :
  e <> bad -> avoids bad (raise (S := S) (A := A) e).
Proof. intros H s e'. cbn. now intros [= <-]. Qed.

Lemma avoids_lift {A} (bad : exn) (r : exn + A) :
  (forall e, r = inl e -> e <> bad) -> avoids bad (lift (S := S) r).
Proof. intros H s e. cbn. apply H. Qed.

Lemma avoids_for_each {A} (bad : exn) (xs : list A) (body : A -> M S unit) :
  (forall x, avoids bad (body x)) -> avoids bad (for_each xs body).
Proof.
  intros H. induction xs as [|x xs IH]; cbn [for_each].
  - apply avoids_ret.
  - apply avoids_bind; [apply H | intros _; exact IH].
Qed.

(** Parts of the state that a sequence leaves alone. *)
Lemma keeps_bind {A B X} (f : S -> X) (c : M S A) (k : A -> M S B) :
  keeps f c -> (forall a, keeps f (k a)) -> keeps f (bind c k).
Proof.
  intros Hc Hk s. unfold bind. specialize (Hc s).
  destruct (c s) as [s' [e|a]]; cbn in *; [exact Hc|].
  now rewrite Hk.
Qed.

Lemma keeps_ret {A X} (f : S -> X) (a : A) : keeps f (ret a).
Proof. intros s. reflexivity. Qed.

Lemma keeps_get {X} (f : S -> X) : keeps f get.
Proof. intros s. reflexivity. Qed.

Lemma keeps_raise {A X} (f : S -> X) (e : exn) :
  keeps f (raise (A := A) e).
Proof. intros s. reflexivity. Qed.

Lemma keeps_lift {A X} (f : S -> X) (r : exn + A) : keeps f (lift r).
Proof. intros s. reflexivity. Qed.

Lemma keeps_modify {X} (f : S -> X) (g : S -> S) :
  (forall s, f (g s) = f s) -> keeps f (modify g).
Proof. intros H s. apply H. Qed.

Lemma keeps_for_each {A X} (f : S -> X) (xs : list A)
    (body : A -> M S unit) :
  (forall x, keeps f (body x)) -> keeps f (for_each xs body).
Proof.
  intros H. induction xs as [|x xs IH]; cbn [for_each].
  - apply keeps_ret.
  - apply keeps_bind; [apply H | intros _; exact IH].
Qed.

End Laws.

End MonFacts.

(* ================================================================== *)
(** * ExtendedSource: photometry and the feasibility check *)
(* ================================================================== *)

Module ExtendedSourceClaims.
Import Py Np Mon ExtendedSource MonFacts.
Import Spec (builtin).

Section WithPlatform.
Context `{P : Platform}.

(** A name that is neither a band nor an attribute of every class, and
    every value that is not a string, get the value -1 and one line of
    output. *)
Theorem photometry_unknown_band (arg : pyobj) (self : ExtendedSourceData.t) :
  (forall s, arg = PyStr s -> lookup phot s = None /\ class_attr s = false) ->
  snd (photometry arg self) = inr (PhotInt (-1)) /\
  length (ExtendedSourceData.stdout (fst (photometry arg self)))
  = S (length (ExtendedSourceData.stdout self)).
Proof.
  intros H. unfold photometry.
  destruct arg as [s| | | |].
  1: destruct (H s eq_refl) as [-> ->].
  all: cbn; rewrite length_app; cbn; split; [reflexivity | lia].
Qed.

(** The three bands. *)
Lemma photometry_band (s : string) (band : phot_result)
    (self : ExtendedSourceData.t) :
  lookup phot s = Some band ->
  photometry (PyStr s) self = (self, inr band).
Proof. intros H. unfold photometry. now rewrite H. Qed.

(** A name of an attribute that every class has passes [hasattr]. *)
Lemma photometry_class_attr (s : string) (self : ExtendedSourceData.t) :
  lookup phot s = None -> class_attr s = true ->
  photometry (PyStr s) self = (self, inr (PhotClassAttr s)).
Proof. intros H1 H2. unfold photometry. now rewrite H1, H2. Qed.

Lemma builtin_avoids (e : exn) :
  builtin e -> e <> Spec.too_many_directions.
Proof. intros H ->. exact H. Qed.

Ltac pure_step :=
  match goal with
  | |- (match ?X with inl _ => _ | inr _ => _ end) = inl _ -> _ =>
      let E := fresh "E" in
      destruct X as [?|?] eqn:E;
      [intros [= <-]; first [solve [eauto] | revert E]|]
  | |- (match ?X with Some _ => _ | None => _ end) = inl _ -> _ =>
      destruct X
  | |- (match ?X with [] => _ | _ :: _ => _ end) = inl _ -> _ =>
      destruct X
  | |- (let (_, _) := ?X in _) = inl _ -> _ => destruct X
  | |- (if ?X then _ else _) = inl _ -> _ => destruct X
  | |- inl _ = inl _ -> _ => intros [= <-]; exact I
  | |- inr _ = inl _ -> _ => discriminate
  | |- _ = inl _ -> _ => solve [intro; eauto]
  end.

Lemma shape_at_builtin {A} (a : ndarray A) (k : nat) (e : exn) :
  shape_at a k = inl e -> builtin e.
Proof. unfold shape_at. repeat pure_step. Qed.

Lemma slice2_builtin {A} (a : ndarray A) (rs cs : slice) (e : exn) :
  slice2 a rs cs = inl e -> builtin e.
Proof. unfold slice2. repeat pure_step. Qed.

Lemma assign_tile_builtin (a : ndarray Q) (x y : Z) (b : ndarray Q)
    (e : exn) :
  assign_tile a x y b = inl e -> builtin e.
Proof. unfold assign_tile. repeat pure_step. Qed.

Lemma zeros_builtin (s : list Z) (e : exn) : zeros s = inl e -> builtin e.
Proof. unfold zeros. repeat pure_step. Qed.

Lemma iadd2_builtin (f : ndarray Q) (rs cs : slice) (g : ndarray Q)
    (rs' cs' : slice) (e : exn) :
  iadd2 f rs cs g rs' cs' = inl e -> builtin e.
Proof. unfold iadd2. repeat pure_step. Qed.

Lemma fill2_builtin (f : ndarray Q) (rs cs : slice) (v : Q) (e : exn) :
  fill2 f rs cs v = inl e -> builtin e.
Proof. unfold fill2. repeat pure_step. Qed.

Lemma max_builtin (a : ndarray Q) (e : exn) : max a = inl e -> builtin e.
Proof. unfold max. repeat pure_step. Qed.

#[local] Hint Resolve shape_at_builtin slice2_builtin assign_tile_builtin
  zeros_builtin iadd2_builtin fill2_builtin max_builtin : core.

Lemma filter_tile_builtin (template : ndarray Q) (w n x y : Z) (e : exn) :
  filter_tile template w n x y = inl e -> builtin e.
Proof. unfold filter_tile. repeat pure_step. Qed.

#[local] Hint Resolve filter_tile_builtin : core.

Lemma filter_loop_builtin (template : ndarray Q) (w n : Z)
    (tiles : list (Z * Z)) (f : ndarray Q) (e : exn) :
  filter_loop template w n tiles f = inl e -> builtin e.
Proof.
  revert f. induction tiles as [|[x y] tiles IH]; intros f; cbn [filter_loop].
  - discriminate.
  - repeat pure_step; eauto.
Qed.

#[local] Hint Resolve filter_loop_builtin : core.

Lemma build_filter_2D_builtin (w n : Z) (e : exn) :
  build_filter_2D w n = inl e -> builtin e.
Proof. unfold build_filter_2D. repeat pure_step. Qed.

Lemma get_subDirs_loop_builtin (self : ExtendedSourceData.t)
    (size tel_x tel_y : Q) (tiles : list (Z * Z)) (loc imgs : ndarray Q)
    (e : exn) :
  get_subDirs_loop self size tel_x tel_y tiles loc imgs = inl e -> builtin e.
Proof.
  revert loc imgs.
  induction tiles as [|[x y] tiles IH]; intros loc imgs;
    cbn [get_subDirs_loop].
  - discriminate.
  - repeat pure_step; eauto.
Qed.

Lemma subDirs_stars_loop_builtin (self : ExtendedSourceData.t)
    (tiles : list (Z * Z)) (stars : list Source.t) (e : exn) :
  subDirs_stars_loop self tiles stars = inl e -> builtin e.
Proof.
  revert stars.
  induction tiles as [|[x y] tiles IH]; intros stars;
    cbn [subDirs_stars_loop].
  - discriminate.
  - repeat pure_step; eauto.
Qed.

Lemma subscript_builtin (tmp : phot_result) (k : nat) (e : exn) :
  subscript tmp k = inl e -> builtin e.
Proof. unfold subscript. destruct tmp; repeat pure_step;
  destruct k as [|[|[|k]]]; try discriminate; intros [= <-]; exact I.
Qed.

#[local] Hint Resolve build_filter_2D_builtin get_subDirs_loop_builtin
  subDirs_stars_loop_builtin subscript_builtin : core.

(** The steps of a method body, one at a time. *)
Ltac avoid_step :=
  match goal with
  | |- avoids _ (bind _ _) => apply avoids_bind; [|intro]
  | |- avoids _ (ret _) => apply avoids_ret
  | |- avoids _ get => apply avoids_get
  | |- avoids _ (modify _) => apply avoids_modify
  | |- avoids _ (raise _) => apply avoids_raise; discriminate
  | |- avoids _ (lift _) =>
      apply avoids_lift; intros ? ?; apply builtin_avoids
  | |- avoids _ (if ?b then _ else _) => destruct b
  | |- avoids _ (match ?x with Some _ => _ | None => _ end) => destruct x
  | |- avoids _ (match ?x with PyStr _ => _ | _ => _ end) => destruct x
  end.

Lemma photometry_avoids (bad : exn) (arg : pyobj) :
  avoids bad (photometry arg).
Proof.
  unfold photometry, print.
  repeat first
    [ apply avoids_bind; [|intro] | apply avoids_ret | apply avoids_modify
    | match goal with
      | |- avoids _ (match ?x with _ => _ end) => destruct x
      | |- avoids _ (if ?b then _ else _) => destruct b
      end ].
Qed.

Lemma load_sun_img_avoids (fits_image : exn + ndarray Q) :
  (forall e, fits_image = inl e -> builtin e) ->
  avoids Spec.too_many_directions (load_sun_img fits_image).
Proof.
  intros H. unfold load_sun_img. repeat avoid_step; eauto.
Qed.

Lemma get_subDirs_avoids : avoids Spec.too_many_directions get_subDirs.
Proof. unfold get_subDirs. repeat avoid_step; eauto. Qed.

Lemma load_sun_img_returns (img : ndarray Q) (r c : Z)
    (self : ExtendedSourceData.t) :
  shape img = [r; c] -> ~ (ExtendedSourceData.img_PS self == 0)%Q ->
  exists imgs, load_sun_img (inr img) self = (self, inr imgs).
Proof.
  intros Hs Hps. unfold load_sun_img.
  unfold bind, get, lift, ret, raise, shape_at, slice2. rewrite Hs.
  cbn [nth_error]. destruct (Qeq_bool _ 0) eqn:E.
  - apply Qeq_bool_iff in E. contradiction.
  - eexists. reflexivity.
Qed.

Lemma keeps_raise_bind {S A B X} (f : S -> X) (e : exn) (k : A -> M S B) :
  keeps f (bind (raise e) k).
Proof. intros s. reflexivity. Qed.

Lemma photometry_keeps {X} (f : ExtendedSourceData.t -> X) (arg : pyobj) :
  (forall v s, f (ExtendedSourceData.with_stdout v s) = f s) ->
  keeps f (photometry arg).
Proof.
  intros H. unfold photometry, print.
  repeat first
    [ apply keeps_bind; [|intro] | apply keeps_ret
    | apply keeps_modify; intro; apply H
    | match goal with
      | |- keeps _ (match ?x with _ => _ end) => destruct x
      | |- keeps _ (if ?b then _ else _) => destruct b
      end ].
Qed.

Lemma load_sun_img_keeps {X} (f : ExtendedSourceData.t -> X)
    (fits_image : exn + ndarray Q) :
  keeps f (load_sun_img fits_image).
Proof.
  unfold load_sun_img.
  repeat first
    [ apply keeps_bind; [|intro] | apply keeps_ret | apply keeps_get
    | apply keeps_lift | apply keeps_raise
    | match goal with
      | |- keeps _ (if ?b then _ else _) => destruct b
      end ].
Qed.

(** C4.  With more than 7 sub-directions per side the constructor raises:
    the call yields an exception and no object, the object that [__init__]
    was filling being left uninitialised; the exception is the one of the
    feasibility check whenever the band is one of the three and the image
    is read.  With at most 7 the feasibility check does not raise. *)
Theorem ExtendedSource_feasibility_check (optBand : pyobj)
    (coordinates : Q * Q) (fov : Q) (display_properties : bool)
    (fits_image : exn + ndarray Q) (img_PS : Q) (nSubDirs : Z)
    (patch_padding subDir_margin : Q) :
  (forall e, fits_image = inl e -> builtin e) ->
  let init := __init__ optBand coordinates fov display_properties
                fits_image img_PS nSubDirs patch_padding subDir_margin in
  let made := new optBand coordinates fov display_properties fits_image
                img_PS nSubDirs patch_padding subDir_margin in
  (7 < nSubDirs ->
   (exists e, made = inl e) /\
   ExtendedSourceData.is_initialized (fst (init blank)) = false /\
   (forall s w b z img r c,
      optBand = PyStr s -> lookup phot s = Some (PhotBand w b z) ->
      fits_image = inr img -> shape img = [r; c] -> ~ (img_PS == 0)%Q ->
      made = inl Spec.too_many_directions)) /\
  (nSubDirs <= 7 -> made <> inl Spec.too_many_directions).
Proof.
  intros Himg init made. split.
  - intros Hn.
    assert (C : (7 <? nSubDirs) = true) by (apply Z.ltb_lt; lia).
    assert (R : raises init).
    { unfold init, __init__. rewrite C.
      repeat first [apply raises_raise | apply raises_bind; intro]. }
    split; [|split].
    + unfold made, new. fold init. destruct (R blank) as [e He].
      destruct (init blank) as [s [e'|u]]; [now exists e'|discriminate].
    + unfold init, __init__. rewrite C.
      rewrite (bind_inr _ _ blank
                 (ExtendedSourceData.with_is_initialized false blank) tt
                 eq_refl).
      match goal with
      | |- ExtendedSourceData.is_initialized (fst (?c ?s)) = _ =>
          enough (K : keeps ExtendedSourceData.is_initialized c)
            by (now rewrite K)
      end.
      unfold print_properties, print.
      repeat first
        [ apply keeps_raise_bind
        | apply photometry_keeps; reflexivity
        | apply load_sun_img_keeps
        | apply keeps_bind; [|intro]
        | apply keeps_lift
        | apply keeps_ret
        | apply keeps_modify; reflexivity
        | match goal with
          | |- keeps _ (if ?b then _ else _) => destruct b
          end ].
    + intros s w b z img r c -> Hband -> Hshape Hps.
      unfold made, new, __init__. rewrite C.
      repeat (erewrite bind_inr by
                first [reflexivity | apply photometry_band; exact Hband]).
      assert (Hdisp : forall st : ExtendedSourceData.t,
                 exists st',
                   (if display_properties then print_properties else ret tt)
                     st = (st', inr tt) /\
                   ExtendedSourceData.img_PS st'
                   = ExtendedSourceData.img_PS st).
      { intros st. destruct display_properties;
          eexists; split; reflexivity. }
      match goal with
      | |- context [bind (if display_properties then _ else _) ?k ?st] =>
          destruct (Hdisp st) as (st' & Ed & Eps);
          rewrite (bind_inr _ k st st' tt Ed)
      end.
      destruct (load_sun_img_returns img r c st' Hshape) as [imgs Ei].
      { rewrite Eps. exact Hps. }
      rewrite (bind_inr _ _ st' st' imgs Ei).
      repeat (erewrite bind_inr by reflexivity).
      reflexivity.
  - intros Hn.
    assert (C : (7 <? nSubDirs) = false) by (apply Z.ltb_ge; lia).
    assert (A : avoids Spec.too_many_directions init).
    { unfold init, __init__. rewrite C. unfold print_properties, print.
      repeat first
        [ apply photometry_avoids | apply load_sun_img_avoids
        | apply get_subDirs_avoids | avoid_step ]; eauto.
      match goal with H : _ = inl _ |- _ => revert H end.
      repeat pure_step. }
    unfold made, new. fold init.
    specialize (A blank). destruct (init blank) as [s [e|u]];
      [|discriminate].
    intros [= ->]. now apply (A _ eq_refl).
Qed.

End WithPlatform.

#[local] Existing Instance Reference.platform.

(** With 8 tiles per side, the band V and an image of 20 by 20 pixels the
    constructor raises the exception of the feasibility check. *)
Lemma ExtendedSource_feasibility_check_witness :
  new (PyStr "V") (0%Q, 0%Q) 5 false (inr Examples.image) 1 8 1 2
  = inl Spec.too_many_directions.
Proof.
  assert (Himg : forall e, inr Examples.image = inl e -> builtin e)
    by (intros e; discriminate).
  destruct (ExtendedSource_feasibility_check (PyStr "V") (0%Q, 0%Q) 5 false
              (inr Examples.image) 1 8 1 2 Himg) as [H1 _].
  destruct (H1 ltac:(lia)) as (_ & _ & H3).
  refine (H3 "V"%string _ _ _ Examples.image 20 20 eq_refl eq_refl eq_refl
            eq_refl _).
  intro H. discriminate H.
Defined.

(** C10, at the name of an attribute that every class has.  For the string
    ["__doc__"], [hasattr(phot, arg)] holds, and [photometry] returns the
    value of that attribute instead of -1, without a line of output. *)
Theorem photometry_dunder_name :
  photometry (PyStr "__doc__") blank = (blank, inr (PhotClassAttr "__doc__")) /\
  snd (photometry (PyStr "__doc__") blank) <> inr (PhotInt (-1)).
Proof.
  split; [reflexivity|]. cbn. discriminate.
Qed.

End ExtendedSourceClaims.


(* ================================================================== *)
(** * The blending filters *)
(* ================================================================== *)

Module FilterFacts.
Import Py Np ExtendedSource NumFacts Mosaic.

Lemma inject_Z_le_pred (k h : Z) :
  k < h -> (inject_Z k <= inject_Z h - 1)%Q.
Proof.
  intros L. apply Qle_trans with (inject_Z (h + -1)).
  - rewrite <- Zle_Qle. lia.
  - rewrite inject_Z_plus. apply Qle_refl.
Qed.

Section Window.
Variable h : Z.
Hypothesis h_pos : 1 <= h.

Let H : Q := inject_Z h.
Let c : Q := ((2 * H - 1) / 2)%Q.

Lemma H_ge_1 : (1 <= H)%Q.
Proof. unfold H. change 1%Q with (inject_Z 1). now rewrite <- Zle_Qle. Qed.

Lemma c_val : (c == H - (1 # 2))%Q.
Proof. unfold c. field. Qed.

Lemma c_pos : (0 < c)%Q.
Proof. pose proof H_ge_1. pose proof c_val. lra. Qed.

Lemma c_neq : ~ (c == 0)%Q.
Proof. pose proof c_pos. intro E. rewrite E in H0. discriminate. Qed.

Lemma lin_c (k : Z) :
  (lin (2 * h) k == 1 - Qabs (inject_Z k - c) / c)%Q.
Proof.
  unfold lin. rewrite inject_Z_mult. change (inject_Z 2) with 2%Q.
  fold H. fold c. reflexivity.
Qed.

Lemma lin_low (k : Z) :
  k < h -> (lin (2 * h) k == inject_Z k / c)%Q.
Proof.
  intros Hk. rewrite lin_c.
  assert (L : (inject_Z k <= H - 1)%Q) by now apply inject_Z_le_pred.
  assert (N : (inject_Z k - c <= 0)%Q) by (pose proof c_val; lra).
  rewrite (Qabs_neg _ N). field. exact c_neq.
Qed.

Lemma lin_high (k : Z) :
  h <= k -> (lin (2 * h) k == (2 * c - inject_Z k) / c)%Q.
Proof.
  intros Hk. rewrite lin_c.
  assert (L : (H <= inject_Z k)%Q) by (unfold H; now rewrite <- Zle_Qle).
  assert (N : (0 <= inject_Z k - c)%Q) by (pose proof c_val; lra).
  rewrite (Qabs_pos _ N). field. exact c_neq.
Qed.

Lemma plateau_c : (plateau h == (H - 1) / c)%Q.
Proof. reflexivity. Qed.

(** Two windows that overlap by half add up to the plateau. *)
Lemma lin_overlap (k : Z) :
  0 <= k < h -> (lin (2 * h) k + lin (2 * h) (k + h) == plateau h)%Q.
Proof.
  intros Hk. rewrite lin_low, lin_high by lia.
  rewrite plateau_c, inject_Z_plus. fold H. unfold c. field.
  pose proof H_ge_1. lra.
Qed.

Lemma lin_middle : (lin (2 * h) h == plateau h)%Q.
Proof.
  rewrite lin_high by lia. rewrite plateau_c. fold H. unfold c. field.
  pose proof H_ge_1. lra.
Qed.

Lemma plateau_nonneg : (0 <= plateau h)%Q.
Proof.
  rewrite plateau_c. pose proof H_ge_1. pose proof c_pos.
  apply Qle_shift_div_l; [assumption|]. lra.
Qed.

(** Inside the window the weights lie between 0 and the plateau. *)
Lemma lin_bounds (k : Z) :
  0 <= k < 2 * h -> (0 <= lin (2 * h) k <= plateau h)%Q.
Proof.
  intros Hk. pose proof c_pos as Hc. pose proof H_ge_1 as H1.
  assert (K0 : (0 <= inject_Z k)%Q)
    by (change 0%Q with (inject_Z 0); rewrite <- Zle_Qle; lia).
  destruct (Z_lt_le_dec k h) as [L|L].
  - rewrite lin_low by exact L. rewrite plateau_c.
    assert (K1 : (inject_Z k <= H - 1)%Q) by now apply inject_Z_le_pred.
    split.
    + apply Qle_shift_div_l; [assumption|]. lra.
    + unfold Qdiv. apply Qmult_le_compat_r; [exact K1|].
      apply Qinv_le_0_compat, Qlt_le_weak, Hc.
  - rewrite lin_high by exact L. rewrite plateau_c.
    assert (K1 : (H <= inject_Z k)%Q) by (unfold H; now rewrite <- Zle_Qle).
    assert (K2 : (inject_Z k <= 2 * H - 1)%Q).
    { apply Qle_trans with (inject_Z (2 * h) - 1)%Q.
      - apply inject_Z_le_pred. lia.
      - rewrite inject_Z_mult. apply Qle_refl. }
    split.
    + apply Qle_shift_div_l; [assumption|]. pose proof c_val. lra.
    + unfold Qdiv. apply Qmult_le_compat_r.
      * pose proof c_val. lra.
      * apply Qinv_le_0_compat, Qlt_le_weak, Hc.
Qed.

End Window.
End FilterFacts.


Module TileFacts.
Import Py Np ExtendedSource NumFacts FilterFacts Mosaic.

Lemma adjust_neg (len i : Z) : - len <= i < 0 -> adjust len i = i + len.
Proof.
  intros H. unfold adjust.
  destruct (i <? 0) eqn:E; [|apply Z.ltb_ge in E; lia]. lia.
Qed.

Section Slices.
Variable h : Z.
Hypothesis h_pos : 1 <= h.

Lemma floordiv_even : floordiv (2 * h) 2 = h.
Proof. unfold floordiv. Z.div_mod_to_equations. lia. Qed.

Lemma floordiv_even_neg : floordiv (- (2 * h)) 2 = - h.
Proof. unfold floordiv. Z.div_mod_to_equations. lia. Qed.

Lemma start_low : sl_start (2 * h) (sl 0 h) = 0.
Proof. unfold sl_start, sl; cbn [fst]. apply adjust_in. lia. Qed.

Lemma len_low : sl_len (2 * h) (sl 0 h) = h.
Proof.
  unfold sl_len, sl_stop, sl_start, sl; cbn [fst snd].
  rewrite !adjust_in by lia. lia.
Qed.

Lemma start_high : sl_start (2 * h) (sl_from (- h)) = h.
Proof.
  unfold sl_start, sl_from; cbn [fst]. rewrite adjust_neg by lia. lia.
Qed.

Lemma len_high : sl_len (2 * h) (sl_from (- h)) = h.
Proof.
  unfold sl_len, sl_stop, sl_start, sl_from; cbn [fst snd].
  rewrite adjust_neg by lia. lia.
Qed.

Lemma start_all (w : Z) : sl_start w sl_all = 0.
Proof. reflexivity. Qed.

Lemma len_all (w : Z) : 0 <= w -> sl_len w sl_all = w.
Proof. intros. unfold sl_len, sl_stop, sl_start, sl_all; cbn [fst snd]. lia. Qed.

End Slices.

Lemma fits_same (r c : Z) : fits r c r c = true.
Proof. unfold fits. now rewrite !Z.eqb_refl. Qed.

Lemma bcast_ix (r d : Z) : 0 <= d < r -> (if r =? 1 then 0 else d) = d.
Proof. intros H. destruct (Z.eqb_spec r 1); lia. Qed.

Ltac decide_cmp :=
  repeat match goal with
  | |- context [?a <=? ?b] =>
      first [ rewrite (proj2 (Z.leb_le a b)) by lia
            | rewrite (proj2 (Z.leb_gt a b)) by lia ]
  | |- context [?a <? ?b] =>
      first [ rewrite (proj2 (Z.ltb_lt a b)) by lia
            | rewrite (proj2 (Z.ltb_ge a b)) by lia ]
  | |- context [?a =? ?b] =>
      first [ rewrite (proj2 (Z.eqb_eq a b)) by lia
            | rewrite (proj2 (Z.eqb_neq a b)) by lia ]
  end.

Lemma iadd2_if (b : bool) (f g : ndarray Q) (rs cs rs' cs' : slice)
    (nr nc mr mc : Z) :
  shape f = [nr; nc] -> shape g = [mr; mc] ->
  sl_len mr rs' = sl_len nr rs -> sl_len mc cs' = sl_len nc cs ->
  exists f',
    (if b then iadd2 f rs cs g rs' cs' else inr f) = inr f' /\
    shape f' = [nr; nc] /\
    forall i j,
      item f' [i; j] =
      if b && (inside (sl_start nr rs) (sl_len nr rs) i
               && inside (sl_start nc cs) (sl_len nc cs) j)
      then Qplus (item f [i; j])
             (item g [sl_start mr rs'
                      + (if sl_len nr rs =? 1 then 0 else i - sl_start nr rs);
                      sl_start mc cs'
                      + (if sl_len nc cs =? 1 then 0 else j - sl_start nc cs)])
      else item f [i; j].
Proof.
  intros Sf Sg Er Ec. destruct b.
  - unfold iadd2. rewrite Sf, Sg, Er, Ec, fits_same.
    eexists. split; [reflexivity|]. split; [reflexivity|].
    intros i j. cbn [item andb]. unfold inside.
    rewrite <- !andb_assoc. reflexivity.
  - exists f. repeat split; auto.
Qed.

Lemma fill2_if (b : bool) (f : ndarray Q) (rs cs : slice) (v : Q)
    (nr nc : Z) :
  shape f = [nr; nc] ->
  exists f',
    (if b then fill2 f rs cs v else inr f) = inr f' /\
    shape f' = [nr; nc] /\
    forall i j,
      item f' [i; j] =
      if b && (inside (sl_start nr rs) (sl_len nr rs) i
               && inside (sl_start nc cs) (sl_len nc cs) j)
      then v else item f [i; j].
Proof.
  intros Sf. destruct b.
  - unfold fill2. rewrite Sf.
    eexists. split; [reflexivity|]. split; [reflexivity|].
    intros i j. cbn [item andb]. unfold inside.
    rewrite <- !andb_assoc. reflexivity.
  - exists f. repeat split; auto.
Qed.

Section Tile.
Variable h n : Z.
Hypothesis h_pos : 1 <= h.

Let T := filter_2D_template (2 * h).

Lemma filter_tile_value (m : Q) (dirX dirY : Z) :
  max T = inr m ->
  (m == plateau h * plateau h)%Q ->
  exists F,
    filter_tile T (2 * h) n dirX dirY = inr F /\
    shape F = [2 * h; 2 * h] /\
    forall i j, 0 <= i < 2 * h -> 0 <= j < 2 * h ->
      (item F [i; j]
       == edge_profile h n dirX i * edge_profile h n dirY j)%Q.
Proof.
  intros Hmax Hm. unfold filter_tile.
  rewrite floordiv_even, floordiv_even_neg by exact h_pos.
  rewrite Hmax.
  assert (ST : shape T = [2 * h; 2 * h]) by reflexivity.
  assert (L1 := len_low h h_pos). assert (L2 := len_high h h_pos).
  assert (L3 : sl_len (2 * h) sl_all = 2 * h) by (apply len_all; lia).
  destruct (iadd2_if (dirX =? 0) T T (sl 0 h) sl_all (sl_from (- h)) sl_all
              (2 * h) (2 * h) (2 * h) (2 * h) ST ST)
    as (f1 & E1 & S1 & I1); [congruence | congruence |].
  rewrite E1; cbn beta iota.
  destruct (iadd2_if (dirX =? n - 1) f1 T (sl_from (- h)) sl_all (sl 0 h)
              sl_all (2 * h) (2 * h) (2 * h) (2 * h) S1 ST)
    as (f2 & E2 & S2 & I2); [congruence | congruence |].
  rewrite E2; cbn beta iota.
  destruct (iadd2_if (dirY =? 0) f2 T sl_all (sl 0 h) sl_all (sl_from (- h))
              (2 * h) (2 * h) (2 * h) (2 * h) S2 ST)
    as (f3 & E3 & S3 & I3); [congruence | congruence |].
  rewrite E3; cbn beta iota.
  destruct (iadd2_if (dirY =? n - 1) f3 T sl_all (sl_from (- h)) sl_all
              (sl 0 h) (2 * h) (2 * h) (2 * h) (2 * h) S3 ST)
    as (f4 & E4 & S4 & I4); [congruence | congruence |].
  rewrite E4; cbn beta iota.
  destruct (fill2_if ((dirX =? 0) && (dirY =? 0)) f4 (sl 0 h) (sl 0 h) m
              (2 * h) (2 * h) S4) as (f5 & E5 & S5 & I5).
  rewrite E5; cbn beta iota.
  destruct (fill2_if ((dirX =? 0) && (dirY =? n - 1)) f5 (sl 0 h)
              (sl_from (- h)) m (2 * h) (2 * h) S5) as (f6 & E6 & S6 & I6).
  rewrite E6; cbn beta iota.
  destruct (fill2_if ((dirX =? n - 1) && (dirY =? 0)) f6 (sl_from (- h))
              (sl 0 h) m (2 * h) (2 * h) S6) as (f7 & E7 & S7 & I7).
  rewrite E7; cbn beta iota.
  destruct (fill2_if ((dirX =? n - 1) && (dirY =? n - 1)) f7 (sl_from (- h))
              (sl_from (- h)) m (2 * h) (2 * h) S7) as (f8 & E8 & S8 & I8).
  rewrite E8; cbn beta iota.
  exists f8. split; [reflexivity|]. split; [exact S8|].
  intros i j Hi Hj.
  rewrite I8, I7, I6, I5, I4, I3, I2, I1.
  rewrite L1, L2, L3, (start_low h h_pos), (start_high h h_pos), !start_all.
  unfold inside, edge_profile. subst T. cbn [item filter_2D_template].
  assert (Hw : (2 * h =? 1) = false) by (apply Z.eqb_neq; lia).
  rewrite Hw.
  clear E1 E2 E3 E4 E5 E6 E7 E8 I1 I2 I3 I4 I5 I6 I7 I8 S1 S2 S3 S4 S5 S6 S7
    S8 f1 f2 f3 f4 f5 f6 f7 f8 ST L1 L2 L3 Hmax Hw.
  assert (Lo : forall k, 0 <= k < h ->
            (lin (2 * h) k + lin (2 * h) (h + k) == plateau h)%Q).
  { intros k Hk. rewrite (Z.add_comm h k). now apply lin_overlap. }
  assert (Hi' : forall k, h <= k < 2 * h ->
            (lin (2 * h) (k - h) + lin (2 * h) k == plateau h)%Q).
  { intros k Hk. rewrite <- (Lo (k - h)) by lia.
    replace (h + (k - h)) with k by lia. reflexivity. }
  destruct (Z.eqb_spec dirX 0) as [X0 | X0];
    destruct (Z.eqb_spec dirX (n - 1)) as [Xn | Xn];
    destruct (Z.eqb_spec dirY 0) as [Y0 | Y0];
    destruct (Z.eqb_spec dirY (n - 1)) as [Yn | Yn];
    try (exfalso; lia);
    cbn [andb orb];
    destruct (Z.ltb_spec i h) as [Hih | Hih];
    destruct (Z.ltb_spec j h) as [Hjh | Hjh];
    decide_cmp; cbn [andb orb];
    rewrite ?bcast_ix by lia; rewrite ?Z.add_0_l, ?Z.sub_0_r;
    first [ rewrite Hm; reflexivity
          | reflexivity
          | rewrite <- (Lo i) by lia; ring
          | rewrite <- (Lo j) by lia; ring
          | rewrite <- (Hi' i) by lia; ring
          | rewrite <- (Hi' j) by lia; ring
          | ring ].
Qed.

End Tile.

(** [np.max] returns an element of the array that no element exceeds. *)
Lemma fold_max_in (xs : list Q) (x : Q) :
  In (fold_left Qmaxb xs x) (x :: xs).
Proof.
  revert x. induction xs as [|y xs IH]; intros x; cbn [fold_left].
  - now left.
  - specialize (IH (Qmaxb x y)).
    set (r := fold_left Qmaxb xs (Qmaxb x y)) in *.
    destruct IH as [E | I].
    + unfold Qmaxb in E. destruct (Qle_bool x y).
      * right. left. exact E.
      * left. exact E.
    + right. right. exact I.
Qed.

Lemma fold_max_acc (xs : list Q) (x : Q) :
  (x <= fold_left Qmaxb xs x)%Q.
Proof.
  revert x. induction xs as [|y xs IH]; intros x; cbn [fold_left].
  - apply Qle_refl.
  - eapply Qle_trans; [|apply IH]. unfold Qmaxb.
    destruct (Qle_bool x y) eqn:E.
    + now apply Qle_bool_iff.
    + apply Qle_refl.
Qed.

Lemma Qmaxb_l (x y : Q) : (x <= Qmaxb x y)%Q.
Proof.
  unfold Qmaxb. destruct (Qle_bool x y) eqn:E.
  - now apply Qle_bool_iff.
  - apply Qle_refl.
Qed.

Lemma Qmaxb_r (x y : Q) : (y <= Qmaxb x y)%Q.
Proof.
  unfold Qmaxb. destruct (Qle_bool x y) eqn:E.
  - apply Qle_refl.
  - apply Qlt_le_weak, Qnot_le_lt. intro L.
    apply Qle_bool_iff in L. congruence.
Qed.

Lemma fold_max_ge (xs : list Q) (x y : Q) :
  In y (x :: xs) -> (y <= fold_left Qmaxb xs x)%Q.
Proof.
  revert x. induction xs as [|z xs IH]; intros x I.
  - destruct I as [E | []]. subst. apply Qle_refl.
  - cbn [fold_left]. destruct I as [E | [E | I]].
    + subst. eapply Qle_trans; [apply (Qmaxb_l _ z)|apply fold_max_acc].
    + subst. eapply Qle_trans; [apply (Qmaxb_r x)|apply fold_max_acc].
    + apply IH. now right.
Qed.

Lemma max_of (a : ndarray Q) (M y : Q) :
  In y (elements2 a) -> (y == M)%Q ->
  (forall x, In x (elements2 a) -> (x <= M)%Q) ->
  exists m, max a = inr m /\ (m == M)%Q.
Proof.
  intros Iy Ey Hle. unfold max.
  destruct (elements2 a) as [|x xs]; [destruct Iy|].
  eexists. split; [reflexivity|].
  apply Qle_antisym.
  - apply Hle, fold_max_in.
  - rewrite <- Ey. now apply fold_max_ge.
Qed.

Lemma in_range_iff (n i : Z) : In i (range n) <-> 0 <= i < n.
Proof.
  unfold range. rewrite in_map_iff. split.
  - intros (k & <- & I). apply in_seq in I. lia.
  - intros H. exists (Z.to_nat i). split; [lia|]. apply in_seq. lia.
Qed.

Lemma in_elements2 (a : ndarray Q) (r c : Z) (x : Q) :
  shape a = [r; c] ->
  In x (elements2 a) <->
  exists i j, 0 <= i < r /\ 0 <= j < c /\ x = item a [i; j].
Proof.
  intros Sa. unfold elements2. rewrite Sa. rewrite in_map_iff. split.
  - intros ((i, j) & <- & I). apply in_flat_map in I.
    destruct I as (i' & Ii & I). apply in_map_iff in I.
    destruct I as (j' & E & Ij). inversion E; subst.
    exists i, j. rewrite <- !in_range_iff. auto.
  - intros (i & j & Hi & Hj & ->). exists (i, j). split; [reflexivity|].
    apply in_flat_map. exists i. split; [now apply in_range_iff|].
    apply in_map_iff. exists j. split; [reflexivity|now apply in_range_iff].
Qed.

(** The peak of the template is the square of the plateau. *)
Lemma template_peak (h : Z) :
  1 <= h ->
  exists m, max (filter_2D_template (2 * h)) = inr m
            /\ (m == plateau h * plateau h)%Q.
Proof.
  intros Hh.
  apply max_of with (y := item (filter_2D_template (2 * h)) [h; h]).
  - apply (in_elements2 _ (2 * h) (2 * h)); [reflexivity|].
    exists h, h. repeat split; lia.
  - cbn [item filter_2D_template]. now rewrite (lin_middle h Hh).
  - intros x I. apply (in_elements2 _ (2 * h) (2 * h)) in I; [|reflexivity].
    destruct I as (i & j & Hi & Hj & ->). cbn [item filter_2D_template].
    pose proof (lin_bounds h Hh i Hi) as [? ?].
    pose proof (lin_bounds h Hh j Hj) as [? ?].
    pose proof (plateau_nonneg h Hh).
    nra.
Qed.

End TileFacts.


Module BuildFacts.
Import Py Np ExtendedSource NumFacts FilterFacts TileFacts Mosaic.

Lemma in_range2_iff (n x y : Z) :
  In (x, y) (range2 n) <-> 0 <= x < n /\ 0 <= y < n.
Proof.
  unfold range2. rewrite in_flat_map. split.
  - intros (x' & Ix & I). apply in_map_iff in I.
    destruct I as (y' & E & Iy). inversion E; subst.
    rewrite <- !in_range_iff. auto.
  - intros [Hx Hy]. exists x. split; [now apply in_range_iff|].
    apply in_map_iff. exists y. split; [reflexivity|now apply in_range_iff].
Qed.

Section Build.
Variable h n : Z.
Hypothesis h_pos : 1 <= h.

Lemma filter_loop_value (tiles : list (Z * Z)) :
  forall F0,
    shape F0 = [2 * h; 2 * h; n; n] ->
    (forall t, In t tiles -> 0 <= fst t < n /\ 0 <= snd t < n) ->
    exists F,
      filter_loop (filter_2D_template (2 * h)) (2 * h) n tiles F0 = inr F /\
      shape F = [2 * h; 2 * h; n; n] /\
      forall X Y,
        (In (X, Y) tiles -> tile_done h n F X Y) /\
        (tile_done h n F0 X Y -> tile_done h n F X Y).
Proof.
  induction tiles as [|[dirX dirY] tiles IH]; intros F0 S0 Hin.
  - exists F0. split; [reflexivity|]. split; [assumption|].
    intros X Y. split; [intros []|auto].
  - destruct (template_peak h h_pos) as (m & Hmax & Hm).
    destruct (filter_tile_value h n h_pos m dirX dirY Hmax Hm)
      as (f & Ef & Sf & If).
    cbn [filter_loop]. rewrite Ef. cbn beta iota.
    destruct (Hin (dirX, dirY) (or_introl eq_refl)) as [HX HY].
    cbn [fst snd] in HX, HY.
    unfold assign_tile. rewrite S0, Sf.
    replace ((0 <=? dirX) && (dirX <? n) && (0 <=? dirY) && (dirY <? n))
      with true by (symmetry; decide_cmp; reflexivity).
    cbn [negb]. rewrite fits_same.
    assert (Hw : (2 * h =? 1) = false) by (apply Z.eqb_neq; lia).
    rewrite Hw.
    match goal with
    | |- context [filter_loop _ _ _ _ ?F1] => set (F1' := F1)
    end.
    destruct (IH F1') as (F & EF & SF & HF).
    + reflexivity.
    + intros t It. apply Hin. now right.
    + exists F. cbn beta iota. split; [exact EF|]. split; [exact SF|].
      assert (D1 : tile_done h n F1' dirX dirY).
      { intros i j Hi Hj. unfold F1'. cbn [item].
        rewrite !Z.eqb_refl. cbn [andb]. now apply If. }
      intros X Y. split.
      * intros [E | I].
        -- inversion E; subst. now apply (proj2 (HF _ _)).
        -- now apply (proj1 (HF _ _)).
      * intros D0. apply (proj2 (HF _ _)).
        destruct ((X =? dirX) && (Y =? dirY)) eqn:E.
        -- apply andb_true_iff in E. destruct E as [E1 E2].
           apply Z.eqb_eq in E1, E2. subst. exact D1.
        -- intros i j Hi Hj. unfold F1'. cbn [item]. rewrite E.
           now apply D0.
Qed.

Lemma build_filter_2D_value :
  0 <= n ->
  exists F,
    build_filter_2D (2 * h) n = inr F /\
    shape F = [2 * h; 2 * h; n; n] /\
    forall X Y, 0 <= X < n -> 0 <= Y < n -> tile_done h n F X Y.
Proof.
  intros Hn. unfold build_filter_2D, zeros. cbn [forallb].
  replace ((0 <=? 2 * h) && ((0 <=? 2 * h) && ((0 <=? n) && ((0 <=? n) && true))))
    with true by (symmetry; decide_cmp; reflexivity).
  cbn beta iota.
  match goal with
  | |- context [filter_loop _ _ _ _ ?F0] =>
      destruct (filter_loop_value (range2 n) F0) as (F & EF & SF & HF)
  end.
  - reflexivity.
  - intros [x y] I. now apply in_range2_iff.
  - exists F. split; [exact EF|]. split; [exact SF|].
    intros X Y HX HY. apply (proj1 (HF _ _)). now apply in_range2_iff.
Qed.

End Build.
End BuildFacts.


Module SumFacts.
Import Py Np.

Lemma range_succ (n : nat) :
  range (Z.of_nat (S n)) = range (Z.of_nat n) ++ [Z.of_nat n].
Proof.
  unfold range. rewrite !Nat2Z.id. rewrite seq_S, map_app. reflexivity.
Qed.

Lemma sum_list_app (f : Z -> Q) (l1 l2 : list Z) :
  (fold_right (fun i acc => f i + acc) 0 (l1 ++ l2)
   == fold_right (fun i acc => f i + acc) 0 l1
      + fold_right (fun i acc => f i + acc) 0 l2)%Q.
Proof.
  induction l1 as [|x l1 IH]; cbn [fold_right app].
  - ring.
  - rewrite IH. ring.
Qed.

Lemma sum_range_succ (n : nat) (f : Z -> Q) :
  (sum_range (Z.of_nat (S n)) f
   == sum_range (Z.of_nat n) f + f (Z.of_nat n))%Q.
Proof.
  unfold sum_range. rewrite range_succ, sum_list_app.
  cbn [fold_right]. ring.
Qed.

Lemma sum_range_0 (f : Z -> Q) : sum_range 0 f = 0%Q.
Proof. reflexivity. Qed.

Lemma sum_range_ext (n : Z) (f g : Z -> Q) :
  (forall i, 0 <= i < n -> (f i == g i)%Q) ->
  (sum_range n f == sum_range n g)%Q.
Proof.
  intros E. unfold sum_range.
  assert (H : forall i, In i (range n) -> (f i == g i)%Q).
  { intros i I. apply E. now apply TileFacts.in_range_iff. }
  clear E. induction (range n) as [|x l IH]; cbn [fold_right].
  - reflexivity.
  - rewrite (H x) by now left. rewrite IH; [reflexivity|].
    intros i I. apply H. now right.
Qed.

Lemma sum_range_plus (n : Z) (f g : Z -> Q) :
  (sum_range n (fun i => f i + g i)
   == sum_range n f + sum_range n g)%Q.
Proof.
  unfold sum_range. induction (range n) as [|x l IH]; cbn [fold_right].
  - ring.
  - rewrite IH. ring.
Qed.

Lemma sum_range_delta_nat (n : nat) (k : Z) (a : Q) :
  (sum_range (Z.of_nat n) (fun X => if X =? k then a else 0)
   == if (0 <=? k) && (k <? Z.of_nat n) then a else 0)%Q.
Proof.
  induction n as [|n IH].
  - cbn [Z.of_nat]. rewrite sum_range_0.
    destruct (0 <=? k) eqn:E1; destruct (k <? 0) eqn:E2; cbn [andb];
      try reflexivity.
    apply Z.leb_le in E1. apply Z.ltb_lt in E2. lia.
  - rewrite sum_range_succ, IH.
    destruct (Z.leb_spec 0 k); destruct (Z.ltb_spec k (Z.of_nat n));
      destruct (Z.ltb_spec k (Z.of_nat (S n)));
      destruct (Z.eqb_spec (Z.of_nat n) k); cbn [andb]; try lia; ring.
Qed.

Lemma sum_range_delta (n k : Z) (a : Q) :
  0 <= n ->
  (sum_range n (fun X => if X =? k then a else 0)
   == if (0 <=? k) && (k <? n) then a else 0)%Q.
Proof.
  intros Hn. rewrite <- (Z2Nat.id n Hn). apply sum_range_delta_nat.
Qed.

Lemma sum_pairs_app (g : Z * Z -> Q) (l l' : list (Z * Z)) :
  (fold_right (fun t acc => g t + acc) 0 (l ++ l')
   == fold_right (fun t acc => g t + acc) 0 l
      + fold_right (fun t acc => g t + acc) 0 l')%Q.
Proof.
  induction l as [|y l IHl]; cbn [fold_right app].
  - ring.
  - rewrite IHl. ring.
Qed.

Lemma sum_pairs_product (a b : Z -> Q) (l1 l2 : list Z) :
  (fold_right (fun t acc => a (fst t) * b (snd t) + acc) 0
     (flat_map (fun x => map (fun y => (x, y)) l2) l1)
   == fold_right (fun i acc => a i + acc) 0 l1
      * fold_right (fun i acc => b i + acc) 0 l2)%Q.
Proof.
  induction l1 as [|x l1 IH]; cbn [flat_map fold_right].
  - ring.
  - rewrite (sum_pairs_app (fun t => a (fst t) * b (snd t))%Q), IH.
    assert (B : (fold_right (fun t acc => a (fst t) * b (snd t) + acc) 0
                   (map (fun y => (x, y)) l2)
                 == a x * fold_right (fun i acc => b i + acc) 0 l2)%Q).
    { clear IH. induction l2 as [|y l IHl]; cbn [fold_right map fst snd].
      - ring.
      - rewrite IHl. ring. }
    rewrite B. ring.
Qed.

(** A sum over the pairs of the double loop is the product of two sums. *)
Lemma sum_range2 (n : Z) (a b : Z -> Q) :
  (fold_right (fun t acc => a (fst t) * b (snd t) + acc) 0 (range2 n)
   == sum_range n a * sum_range n b)%Q.
Proof. apply sum_pairs_product. Qed.

End SumFacts.

Module MosaicFacts.
Import Py Np ExtendedSource NumFacts FilterFacts TileFacts BuildFacts SumFacts.
Import Mosaic (plateau, inside, edge_profile, placed_profile, tile_done).

Section Mosaic.
Variable h n : Z.
Hypothesis h_pos : 1 <= h.
Hypothesis n_pos : 1 <= n.

Let W := (n + 1) * h.

Lemma profile_split (p X : Z) :
  0 <= p ->
  (placed_profile h n X p
   == (if X =? p / h then edge_profile h n (p / h) (p mod h) else 0)
      + (if X =? p / h - 1
         then edge_profile h n (p / h - 1) (p mod h + h) else 0))%Q.
Proof.
  intros Hp. unfold placed_profile, inside.
  pose proof (Z.div_mod p h ltac:(lia)) as Dm.
  pose proof (Z.mod_pos_bound p h ltac:(lia)) as Mb.
  set (k := p / h) in *. set (r := p mod h) in *.
  destruct (Z.eqb_spec X k) as [E1 | E1];
    destruct (Z.eqb_spec X (k - 1)) as [E2 | E2]; try lia.
  - subst X. replace (p - k * h) with r by lia.
    replace ((0 <=? r) && (r <? 2 * h)) with true
      by (symmetry; decide_cmp; reflexivity).
    ring.
  - subst X. replace (p - (k - 1) * h) with (r + h) by lia.
    replace ((0 <=? r + h) && (r + h <? 2 * h)) with true
      by (symmetry; decide_cmp; reflexivity).
    ring.
  - assert (O : X <= k - 2 \/ k + 1 <= X) by lia.
    destruct O as [O | O].
    + assert (2 * h <= p - X * h) by nia.
      replace (p - X * h <? 2 * h) with false
        by (symmetry; apply Z.ltb_ge; lia).
      rewrite andb_false_r. ring.
    + assert (p - X * h < 0) by nia.
      replace (0 <=? p - X * h) with false
        by (symmetry; apply Z.leb_gt; lia).
      cbn [andb]. ring.
Qed.

(** Along one axis the profiles of the tiles add up to the plateau. *)
Lemma profile_sum (p : Z) :
  0 <= p < W ->
  (sum_range n (fun X => placed_profile h n X p) == plateau h)%Q.
Proof.
  intros Hp. unfold W in Hp.
  rewrite (sum_range_ext n _ _ (fun X _ => profile_split p X (proj1 Hp))).
  rewrite sum_range_plus, !sum_range_delta by lia.
  pose proof (Z.div_mod p h ltac:(lia)) as Dm.
  pose proof (Z.mod_pos_bound p h ltac:(lia)) as Mb.
  set (k := p / h) in *. set (r := p mod h) in *.
  assert (Hk : 0 <= k <= n) by nia.
  unfold edge_profile.
  destruct (Z.eqb_spec k 0) as [K0 | K0].
  - decide_cmp. cbn [andb orb]. apply Qplus_0_r.
  - destruct (Z.eqb_spec k n) as [Kn | Kn].
    + decide_cmp. rewrite ?andb_false_r. cbn [andb orb]. apply Qplus_0_l.
    + decide_cmp. rewrite ?andb_false_r. cbn [andb orb].
      apply (lin_overlap h h_pos). lia.
Qed.

Variable F : ndarray Q.
Hypothesis F_shape : shape F = [2 * h; 2 * h; n; n].
Hypothesis F_done :
  forall X Y, 0 <= X < n -> 0 <= Y < n -> tile_done h n F X Y.

Lemma place_value (X Y : Z) :
  0 <= X < n -> 0 <= Y < n ->
  exists L,
    Telescope.place W (X * h) (Y * h) (2 * h) (tile F X Y) = inr L /\
    forall p q,
      (item L [p; q] == placed_profile h n X p * placed_profile h n Y q)%Q.
Proof.
  intros HX HY. unfold Telescope.place, tile. rewrite F_shape.
  cbn [firstn shape].
  destruct (slice_in W (X * h) (X * h + 2 * h)) as [SX LX];
    [nia | lia | unfold W; nia |].
  destruct (slice_in W (Y * h) (Y * h + 2 * h)) as [SY LY];
    [nia | lia | unfold W; nia |].
  rewrite SX, SY, LX, LY.
  replace (X * h + 2 * h - X * h) with (2 * h) by lia.
  replace (Y * h + 2 * h - Y * h) with (2 * h) by lia.
  rewrite fits_same.
  assert (Hw : (2 * h =? 1) = false) by (apply Z.eqb_neq; lia).
  rewrite Hw.
  eexists. split; [reflexivity|].
  intros p q. cbn [item]. unfold placed_profile, inside.
  rewrite <- andb_assoc.
  destruct ((0 <=? p - X * h) && (p - X * h <? 2 * h)) eqn:Ep;
    destruct ((0 <=? q - Y * h) && (q - Y * h <? 2 * h)) eqn:Eq;
    cbn [andb]; try ring.
  apply andb_true_iff in Ep, Eq. destruct Ep as [P1 P2], Eq as [Q1 Q2].
  apply Z.leb_le in P1, Q1. apply Z.ltb_lt in P2, Q2.
  apply F_done; lia.
Qed.

Lemma filter_layers_value (tiles : list (Z * Z)) :
  (forall t, In t tiles -> 0 <= fst t < n /\ 0 <= snd t < n) ->
  exists layers,
    Mosaic.filter_layers F W (2 * h) (fun d => d * h) tiles = inr layers /\
    forall p q,
      (fold_right (fun l acc => Qplus (item l [p; q]) acc) 0 layers
       == fold_right
            (fun t acc => placed_profile h n (fst t) p
                          * placed_profile h n (snd t) q + acc) 0 tiles)%Q.
Proof.
  induction tiles as [|[X Y] tiles IH]; intros Hin.
  - exists []. split; reflexivity.
  - destruct (Hin (X, Y) (or_introl eq_refl)) as [HX HY].
    cbn [fst snd] in HX, HY.
    destruct (place_value X Y HX HY) as (L & EL & IL).
    destruct IH as (layers & El & Il).
    { intros t It. apply Hin. now right. }
    exists (L :: layers). split.
    + cbn [Mosaic.filter_layers]. rewrite EL. cbn beta iota.
      rewrite El. reflexivity.
    + intros p q. cbn [fold_right fst snd]. rewrite IL, Il. reflexivity.
Qed.

Lemma filter_sum_value :
  exists S,
    Mosaic.filter_sum F W (2 * h) n (fun d => d * h) = inr S /\
    shape S = [W; W] /\
    forall p q, 0 <= p < W -> 0 <= q < W ->
      (item S [p; q] == plateau h * plateau h)%Q.
Proof.
  destruct (filter_layers_value (range2 n)) as (layers & El & Il).
  { intros [x y] I. now apply in_range2_iff. }
  unfold Mosaic.filter_sum. rewrite El. cbn beta iota.
  eexists. split; [reflexivity|]. split; [reflexivity|].
  intros p q Hp Hq. unfold Telescope.sum_layers. cbn [item].
  rewrite Il.
  rewrite (sum_range2 n (fun X => placed_profile h n X p)
             (fun Y => placed_profile h n Y q)).
  rewrite !profile_sum by assumption. reflexivity.
Qed.

End Mosaic.
End MosaicFacts.


Module InitFacts.
Import Py Np Mon ExtendedSource MonFacts.

Lemma bind_returns {S A B} (c : M S A) (k : A -> M S B) (s s' : S) (b : B) :
  bind c k s = (s', inr b) ->
  exists s1 a, c s = (s1, inr a) /\ k a s1 = (s', inr b).
Proof.
  unfold bind. destruct (c s) as [s1 [e|a]]; [discriminate|].
  intros H. now exists s1, a.
Qed.

Ltac returns_step H :=
  let s1 := fresh "s" in
  let a := fresh "a" in
  let E := fresh "E" in
  apply bind_returns in H; destruct H as (s1 & a & E & H).

Section WithPlatform.
Context `{P : Platform}.

Lemma photometry_state (arg : pyobj) (s s' : ExtendedSourceData.t)
    (r : phot_result) (X : Type) (f : ExtendedSourceData.t -> X) :
  (forall v o, f (ExtendedSourceData.with_stdout v o) = f o) ->
  photometry arg s = (s', inr r) -> f s' = f s.
Proof.
  intros Hf E. pose proof (ExtendedSourceClaims.photometry_keeps f arg Hf s) as K.
  now rewrite E in K.
Qed.

Lemma load_sun_img_state (fits_image : exn + ndarray Q)
    (s s' : ExtendedSourceData.t) r :
  load_sun_img fits_image s = (s', r) -> s' = s.
Proof.
  intros E.
  pose proof (ExtendedSourceClaims.load_sun_img_keeps (fun o => o)
                fits_image s) as K.
  now rewrite E in K.
Qed.

Lemma get_subDirs_state (s s' : ExtendedSourceData.t) r :
  get_subDirs s = (s', r) -> s' = s.
Proof.
  intros E.
  assert (K : keeps (fun o : ExtendedSourceData.t => o) get_subDirs).
  { unfold get_subDirs.
    repeat first [ apply keeps_bind; [|intro] | apply keeps_get
                 | apply keeps_lift ]. }
  specialize (K s). now rewrite E in K.
Qed.

Ltac state_step H :=
  let s1 := fresh "s" in
  let a := fresh "a" in
  let E := fresh "E" in
  apply bind_returns in H; destruct H as (s1 & a & E & H);
  first
    [ apply load_sun_img_state in E; subst s1
    | lazymatch type of E with
      | get_subDirs _ = _ =>
          pose proof (get_subDirs_state _ _ _ E); subst s1
      | photometry _ _ = _ => idtac
      | modify _ _ = _ => cbv [modify] in E; inversion E; subst; clear E
      | get _ = _ => cbv [get] in E; inversion E; subst; clear E
      | lift _ _ = _ => cbv [lift] in E; inversion E; subst; clear E
      | (if ?b then _ else _) _ = _ =>
          destruct b eqn:?; cbv [raise ret print_properties print modify] in E;
          inversion E; subst; clear E
      end ].

(** What a successful construction has done. *)
Lemma init_returns (optBand : pyobj) (coordinates : Q * Q) (fov : Q)
    (display_properties : bool) (fits_image : exn + ndarray Q) (img_PS : Q)
    (nSubDirs : Z) (patch_padding subDir_margin : Q)
    (sun : ExtendedSourceData.t) :
  new optBand coordinates fov display_properties fits_image img_PS nSubDirs
    patch_padding subDir_margin = inr sun ->
  0 < nSubDirs <= 7 /\
  ExtendedSourceData.nSubDirs sun = nSubDirs /\
  ExtendedSourceData.img_PS sun = img_PS /\
  build_filter_2D (Telescope.tile_width sun) nSubDirs
  = inr (ExtendedSourceData.filter_2D sun) /\
  exists self stars,
    subDirs_stars_loop self (range2 nSubDirs) [] = inr stars /\
    ExtendedSourceData.sun_subDir_ast sun = Asterism.new stars /\
    ExtendedSourceData.nPhoton self = ExtendedSourceData.nPhoton sun /\
    ExtendedSourceData.nSubDirs self = nSubDirs.
Proof.
  unfold new.
  destruct (__init__ _ _ _ _ _ _ _ _ _ blank) as [self [e|[]]] eqn:H;
    [discriminate|].
  intros [= ->]. unfold __init__ in H.
  repeat state_step H.
  all: cbv [modify] in H; inversion H; subst; clear H.
  all: destruct (Z.ltb_spec 0 nSubDirs) as [Hn|Hn]; [|discriminate].
  all: match goal with
       | H : inr _ = inr _ |- _ => inversion H; subst; clear H
       end.
  all: match goal with
       | H : (7 <? _) = false |- _ => apply Z.ltb_ge in H
       end.
  all: split; [lia|]; split; [reflexivity|]; split; [reflexivity|].
  all: split; [assumption|].
  all: eexists; eexists; split; [eassumption|].
  all: repeat split.
Qed.

End WithPlatform.
End InitFacts.


Module WidthFacts.
Import Py Np ExtendedSource NumFacts FilterFacts TileFacts BuildFacts.

Lemma filter_loop_fails (T : ndarray Q) (w n : Z) (t : Z * Z) (e : exn)
    (tiles : list (Z * Z)) :
  In t tiles -> filter_tile T w n (fst t) (snd t) = inl e ->
  forall F0, exists e', filter_loop T w n tiles F0 = inl e'.
Proof.
  intros I Ht. induction tiles as [|[x y] tiles IH]; [destruct I|].
  intros F0. cbn [filter_loop].
  destruct (filter_tile T w n x y) as [e1|f] eqn:E1; [now exists e1|].
  destruct (assign_tile F0 x y f) as [e2|F1] eqn:E2; [now exists e2|].
  cbn beta iota. destruct I as [<- | I].
  - cbn [fst snd] in Ht. congruence.
  - now apply IH.
Qed.

Lemma build_fails (w n : Z) (t : Z * Z) (e : exn) :
  In t (range2 n) ->
  filter_tile (filter_2D_template w) w n (fst t) (snd t) = inl e ->
  exists e', build_filter_2D w n = inl e'.
Proof.
  intros I Ht. unfold build_filter_2D.
  destruct (zeros [w; w; n; n]) as [e0|F0]; [now exists e0|].
  cbn beta iota. now apply (filter_loop_fails _ w n t e).
Qed.

Lemma tile_fails_odd (h n : Z) :
  1 <= h ->
  exists e,
    filter_tile (filter_2D_template (2 * h + 1)) (2 * h + 1) n 0 0 = inl e.
Proof.
  intros Hh. unfold filter_tile.
  replace (floordiv (2 * h + 1) 2) with h
    by (unfold floordiv; Z.div_mod_to_equations; lia).
  replace (floordiv (- (2 * h + 1)) 2) with (- h - 1)
    by (unfold floordiv; Z.div_mod_to_equations; lia).
  cbn [Z.eqb].
  assert (E : iadd2 (filter_2D_template (2 * h + 1)) (sl 0 h) sl_all
                (filter_2D_template (2 * h + 1)) (sl_from (- h - 1)) sl_all
              = inl (ValueError "operands could not be broadcast together")).
  { unfold iadd2. cbn [shape filter_2D_template].
    replace (sl_len (2 * h + 1) (sl 0 h)) with h.
    2:{ unfold sl_len, sl_stop, sl_start, sl; cbn [fst snd].
        rewrite !adjust_in by lia. lia. }
    replace (sl_len (2 * h + 1) (sl_from (- h - 1))) with (h + 1).
    2:{ unfold sl_len, sl_stop, sl_start, sl_from; cbn [fst snd].
        rewrite adjust_neg by lia. lia. }
    unfold fits.
    replace (h + 1 =? h) with false by (symmetry; apply Z.eqb_neq; lia).
    replace (h + 1 =? 1) with false by (symmetry; apply Z.eqb_neq; lia).
    reflexivity. }
  rewrite E. eexists. reflexivity.
Qed.

Lemma tile_fails_0 (n : Z) :
  exists e, filter_tile (filter_2D_template 0) 0 n 0 0 = inl e.
Proof.
  unfold filter_tile. destruct (0 =? n - 1); eexists; reflexivity.
Qed.

Lemma tile_fails_1 (n : Z) :
  1 <= n ->
  exists e, filter_tile (filter_2D_template 1) 1 n 0 (n - 1) = inl e.
Proof.
  intros Hn. unfold filter_tile. rewrite (Z.eqb_refl (n - 1)).
  destruct (0 =? n - 1); destruct (n - 1 =? 0); eexists; reflexivity.
Qed.

(** The filters are built only for an even width of at least two pixels:
    with an odd width the two halves of the window that are added have
    different sizes. *)
Lemma build_even (w n : Z) (F : ndarray Q) :
  1 <= n -> build_filter_2D w n = inr F -> exists h, 1 <= h /\ w = 2 * h.
Proof.
  intros Hn HF.
  assert (I0 : In (0, 0) (range2 n)) by (apply in_range2_iff; lia).
  assert (I1 : In (0, n - 1) (range2 n)) by (apply in_range2_iff; lia).
  destruct (Z.ltb_spec w 0) as [Wn | Wn].
  { unfold build_filter_2D, zeros in HF. cbn [forallb] in HF.
    replace (0 <=? w) with false in HF
      by (symmetry; apply Z.leb_gt; lia).
    discriminate. }
  destruct (Z.eq_dec w 0) as [-> | W0].
  { destruct (tile_fails_0 n) as [e He].
    destruct (build_fails 0 n (0, 0) e I0 He) as [e' He']. congruence. }
  destruct (Z.eq_dec w 1) as [-> | W1].
  { destruct (tile_fails_1 n Hn) as [e He].
    destruct (build_fails 1 n (0, n - 1) e I1 He) as [e' He']. congruence. }
  destruct (Z.eq_dec (w mod 2) 0) as [Ev | Od].
  - exists (w / 2). split; Z.div_mod_to_equations; lia.
  - assert (Ew : w = 2 * (w / 2) + 1) by (Z.div_mod_to_equations; lia).
    destruct (tile_fails_odd (w / 2) n) as [e He];
      [Z.div_mod_to_equations; lia|].
    rewrite <- Ew in He.
    destruct (build_fails w n (0, 0) e I0 He) as [e' He']. congruence.
Qed.

End WidthFacts.

Module FilterClaims.
Import Py Np ExtendedSource NumFacts FilterFacts TileFacts BuildFacts
  SumFacts MosaicFacts WidthFacts InitFacts.

Section WithPlatform.
Context `{P : Platform}.

(** C3.  The blending filters of an extended source that has been
    constructed, each placed on the mosaic at its tile index times half the
    tile width along each axis and added up, give the peak of the single
    tile filter at every pixel of the mosaic, its border included.  The
    number of tiles per side of such an object is between 1 and 7. *)
Theorem filter_2D_partition_of_unity (optBand : pyobj)
    (coordinates : Q * Q) (fov : Q) (display_properties : bool)
    (fits_image : exn + ndarray Q) (img_PS : Q) (nSubDirs : Z)
    (patch_padding subDir_margin : Q) (sun : ExtendedSourceData.t) :
  new optBand coordinates fov display_properties fits_image img_PS nSubDirs
    patch_padding subDir_margin = inr sun ->
  let n := ExtendedSourceData.nSubDirs sun in
  let w := Telescope.tile_width sun in
  let half := floordiv w 2 in
  let W := (n + 1) * half in
  1 <= n <= 7 /\
  exists peak total,
    max (filter_2D_template w) = inr peak /\
    Mosaic.filter_sum (ExtendedSourceData.filter_2D sun) W w n
      (fun dir => dir * half) = inr total /\
    shape total = [W; W] /\
    forall p q, 0 <= p < W -> 0 <= q < W -> (item total [p; q] == peak)%Q.
Proof.
  intros Hnew. cbv zeta.
  destruct (init_returns _ _ _ _ _ _ _ _ _ _ Hnew)
    as (Hn & En & _ & HF & _).
  rewrite En. clear En.
  split; [lia|].
  destruct (build_even _ nSubDirs _ ltac:(lia) HF) as (h & Hh & Ew).
  rewrite Ew in *. rewrite (floordiv_even h).
  destruct (template_peak h Hh) as (peak & Hmax & Hpeak).
  destruct (build_filter_2D_value h nSubDirs Hh ltac:(lia))
    as (F & EF & SF & DF).
  assert (F = ExtendedSourceData.filter_2D sun) by congruence. subst F.
  destruct (filter_sum_value h nSubDirs Hh ltac:(lia) _ SF DF)
    as (total & Et & St & It).
  exists peak, total. split; [exact Hmax|]. split; [exact Et|].
  split; [exact St|].
  intros p q Hp Hq. rewrite Hpeak. now apply It.
Qed.

End WithPlatform.

#[local] Existing Instance Reference.platform.

Lemma filter_2D_partition_of_unity_witness :
  exists sun,
    new (PyStr "V") (0%Q, 0%Q) 5 false (inr Examples.image) 1 2 1 2 = inr sun
    /\ 1 <= ExtendedSourceData.nSubDirs sun <= 7.
Proof.
  assert (R : match new (PyStr "V") (0%Q, 0%Q) 5 false (inr Examples.image)
                      1 2 1 2 with
              | inr _ => True
              | inl _ => False
              end) by (vm_compute; exact I).
  destruct (new (PyStr "V") (0%Q, 0%Q) 5 false (inr Examples.image) 1 2 1 2)
    as [e|sun] eqn:E; [destruct R|].
  exists sun. split; [reflexivity|].
  exact (proj1 (filter_2D_partition_of_unity _ _ _ _ _ _ _ _ _ _ E)).
Defined.

End FilterClaims.


(* ================================================================== *)
(** * Telescope: the pupil and its reflectivity *)
(* ================================================================== *)

Module PupilFacts.
Import Py Np Mon TelescopeData Telescope MonFacts ArrayFacts.

Lemma ensures_bind {S A B} (c : M S A) (k : A -> M S B) (post : S -> Prop) :
  (forall a, ensures (k a) post) -> ensures (bind c k) post.
Proof.
  intros H s s' b E. unfold bind in E.
  destruct (c s) as [s1 [e|a]]; [discriminate|].
  exact (H a s1 s' b E).
Qed.

Lemma ensures_if {S A} (b : bool) (c1 c2 : M S A) (post : S -> Prop) :
  ensures c1 post -> ensures c2 post ->
  ensures (if b then c1 else c2) post.
Proof. now destruct b. Qed.

(** An index in range is its own index into an operand of that shape. *)
Lemma bindex_in_range (s ix : list Z) :
  Spec.in_range s ix -> bindex s ix = ix.
Proof.
  intros H. unfold bindex.
  assert (L : length ix = length s).
  { clear - H. induction H; cbn [length]; congruence. }
  rewrite L, Nat.sub_diag. cbn [skipn].
  induction H as [|n i s ix Hi H IH]; [reflexivity|].
  cbn [combine map fst snd]. rewrite IH by (clear - H; induction H; cbn [length]; congruence).
  destruct (Z.eqb_spec n 1); [|reflexivity]. f_equal. lia.
Qed.

Ltac ensures_step :=
  match goal with
  | |- ensures (bind _ _) _ => apply ensures_bind; intro
  end.

Section WithPlatform.
Context `{P : Platform}.

Lemma pupil_setter_returns (val : ndarray Q) (s s' : t) (u : unit) :
  pupil_setter val s = (s', inr u) ->
  _pupil s' = to_int val /\
  pupilReflectivity s' = Refl_map (to_float (to_int val)) /\
  resolution s' = resolution s /\
  user_defined_pupil s' = user_defined_pupil s /\
  centralObstruction s' = centralObstruction s /\
  D s' = D s.
Proof.
  unfold pupil_setter, bind, modify, get, raise, ret, print, Telescope.pupil.
  cbn [fst snd _pupil with__pupil with_pixelArea].
  destruct (size (to_int val) =? _) eqn:E; [|discriminate].
  destruct (isInitialized _); intros [= <-]; repeat split.
Qed.

(** After the setter of [pupil] the reflectivity is the mask itself. *)
Lemma pupil_setter_uniform (val : ndarray Q) :
  ensures (pupil_setter val)
    (fun s => pupilReflectivity s = Refl_map (to_float (_pupil s))).
Proof.
  intros s s' u E. destruct (pupil_setter_returns val s s' u E) as (E1 & E2 & _).
  now rewrite E1, E2.
Qed.

Lemma uniform_masked (s : t) :
  pupilReflectivity s = Refl_map (to_float (_pupil s)) ->
  Spec.reflectivity_masked s.
Proof.
  intros E. exists (to_float (_pupil s)). split; [exact E|].
  split; [reflexivity|].
  intros ix _ Z0. unfold Telescope.pupil in Z0. cbn [to_float map_nd item].
  now rewrite Z0.
Qed.

Lemma pupil_setter_masked (val : ndarray Q) :
  ensures (pupil_setter val) Spec.reflectivity_masked.
Proof.
  intros s s' u E. apply uniform_masked.
  exact (pupil_setter_uniform val s s' u E).
Qed.

Lemma set_pupil_masked : ensures set_pupil Spec.reflectivity_masked.
Proof.
  intros s s' u H. unfold set_pupil in H.
  apply InitFacts.bind_returns in H. destruct H as (s0 & self & E & H).
  cbv [get] in E. inversion E; subst; clear E.
  apply InitFacts.bind_returns in H. destruct H as (s1 & [] & E1 & H).
  assert (U : pupilReflectivity s1 = Refl_map (to_float (_pupil s1))).
  { match type of E1 with
    | ?c self = _ =>
        assert (En : ensures c
                  (fun o => pupilReflectivity o
                            = Refl_map (to_float (_pupil o))))
    end.
    { destruct (user_defined_pupil self);
        repeat ensures_step; apply pupil_setter_uniform. }
    exact (En _ _ _ E1). }
  clear E1.
  apply InitFacts.bind_returns in H. destruct H as (s2 & self1 & E & H).
  cbv [get] in E. inversion E; subst; clear E.
  apply InitFacts.bind_returns in H. destruct H as (s2 & refl & E & H).
  cbv [lift] in E. inversion E as [[E1 E2]]; subst s2; clear E.
  rewrite U in E2. unfold times_reflectivity, Telescope.pupil in E2.
  rewrite mul_same_shape in E2 by reflexivity.
  inversion E2; subst refl; clear E2.
  unfold bind, modify, raise, ret in H. cbn [fst snd] in H.
  destruct (size (Telescope.pupil self1) =? _); [|discriminate].
  inversion H; subst; clear H.
  eexists. split; [reflexivity|]. split; [reflexivity|].
  intros ix R Z0. cbn [item to_float map_nd shape].
  cbn [Telescope.pupil _pupil with_pupilLogical with_pixelArea
         with_pupilReflectivity] in R, Z0.
  rewrite (bindex_in_range _ _ R). rewrite Z0. reflexivity.
Qed.

Lemma apply_spiders_masked (angle : list Q) (thickness_spider : Q)
    (offset_X offset_Y : option (list Q)) :
  ensures (apply_spiders angle thickness_spider offset_X offset_Y)
    Spec.reflectivity_masked.
Proof.
  unfold apply_spiders. apply ensures_bind. intros _.
  apply ensures_if.
  - repeat ensures_step. apply pupil_setter_masked.
  - apply ensures_bind. intros _. apply set_pupil_masked.
Qed.

Lemma masked_ext (s s' : t) :
  _pupil s' = _pupil s -> pupilReflectivity s' = pupilReflectivity s ->
  Spec.reflectivity_masked s -> Spec.reflectivity_masked s'.
Proof.
  intros E1 E2 (a & Ha & Sa & Za). exists a.
  unfold Telescope.pupil in *. rewrite E1, E2. auto.
Qed.

Lemma new_masked (resolution : Z) (diameter samplingTime : Q)
    (centralObstruction fov : Q) (pupil : option (ndarray Q))
    (pupilReflectivity : reflectivity) (tel : t) :
  new resolution diameter samplingTime centralObstruction fov pupil
    pupilReflectivity = inr tel ->
  Spec.reflectivity_masked tel.
Proof.
  unfold new.
  match goal with
  | |- match ?c ?b with _ => _ end = _ -> _ =>
      destruct (c b) as [self [e|[]]] eqn:H; [discriminate|]
  end.
  intros [= ->]. unfold __init__ in H.
  apply InitFacts.bind_returns in H. destruct H as (s0 & [] & E & H).
  cbv [put] in E. inversion E; subst s0; clear E.
  apply InitFacts.bind_returns in H. destruct H as (s0 & [] & E & H).
  destruct (resolution =? 0); cbv [raise ret] in E; inversion E; subst s0;
    clear E.
  apply InitFacts.bind_returns in H. destruct H as (s1 & [] & E & H).
  apply set_pupil_masked in E.
  revert H. generalize dependent s1. intros s1 M H.
  unfold bind, modify, get, OPD_setter, OPD_no_pupil_setter, ret, print in H.
  cbn [fst snd src with_src with__OPD with__OPD_no_pupil] in H.
  inversion H; subst tel; clear H.
  revert M. apply masked_ext; reflexivity.
Qed.

End WithPlatform.
End PupilFacts.

Module PupilClaims.
Import Py Np Mon TelescopeData Telescope PupilFacts.

Section WithPlatform.
Context `{P : Platform}.

(** C9.  The reflectivity map is zero at every pixel where the pupil mask
    is zero: in the object that the constructor returns, and in the object
    that [set_pupil], an assignment to [pupil] and [apply_spiders] leave
    when they return. *)
Theorem pupilReflectivity_masked :
  (forall resolution diameter samplingTime centralObstruction fov pupil
          pupilReflectivity tel,
      new resolution diameter samplingTime centralObstruction fov pupil
        pupilReflectivity = inr tel ->
      Spec.reflectivity_masked tel) /\
  ensures set_pupil Spec.reflectivity_masked /\
  (forall val, ensures (pupil_setter val) Spec.reflectivity_masked) /\
  (forall angle thickness_spider offset_X offset_Y,
      ensures (apply_spiders angle thickness_spider offset_X offset_Y)
        Spec.reflectivity_masked).
Proof.
  split; [|split; [|split]].
  - intros. eapply new_masked; eassumption.
  - exact set_pupil_masked.
  - exact pupil_setter_masked.
  - exact apply_spiders_masked.
Qed.

End WithPlatform.

#[local] Existing Instance Reference.platform.

(** The four operations return on the telescope of 7 by 7 pixels. *)
Lemma pupilReflectivity_masked_witness :
  Spec.reflectivity_masked Examples.tel7 /\
  Spec.reflectivity_masked (fst (set_pupil Examples.tel7)) /\
  Spec.reflectivity_masked
    (fst (pupil_setter (Examples.flat7 1) Examples.tel7)) /\
  Spec.reflectivity_masked
    (fst (apply_spiders [0%Q; 90%Q] 1 None None Examples.tel7)).
Proof.
  destruct pupilReflectivity_masked as (H1 & H2 & H3 & H4).
  split; [|split; [|split]].
  - assert (R : match new 7 8 0.001 0 0 None (Refl_scalar 1) with
                | inr _ => True
                | inl _ => False
                end) by (vm_compute; exact I).
    unfold Examples.tel7, Examples.or_else.
    destruct (new 7 8 0.001 0 0 None (Refl_scalar 1)) as [e|tel] eqn:E;
      [destruct R|].
    exact (H1 _ _ _ _ _ _ _ _ E).
  - assert (R : snd (set_pupil Examples.tel7) = inr tt)
      by (vm_compute; reflexivity).
    destruct (set_pupil Examples.tel7) as [s r] eqn:E. cbn [fst snd] in *.
    subst r. exact (H2 _ _ _ E).
  - assert (R : snd (pupil_setter (Examples.flat7 1) Examples.tel7) = inr tt)
      by (vm_compute; reflexivity).
    destruct (pupil_setter (Examples.flat7 1) Examples.tel7) as [s r] eqn:E.
    cbn [fst snd] in *. subst r. exact (H3 _ _ _ _ E).
  - assert (R : snd (apply_spiders [0%Q; 90%Q] 1 None None Examples.tel7)
                = inr tt) by (vm_compute; reflexivity).
    destruct (apply_spiders [0%Q; 90%Q] 1 None None Examples.tel7)
      as [s r] eqn:E.
    cbn [fst snd] in *. subst r. exact (H4 _ _ _ _ _ _ _ E).
Defined.

End PupilClaims.


(* ================================================================== *)
(** * Telescope: the setters of OPD and OPD_no_pupil *)
(* ================================================================== *)

Module OPDClaims.
Import Py Np Mon TelescopeData Telescope.

Section WithPlatform.
Context `{P : Platform}.

(** The setter of [OPD_no_pupil] does check the length of a list against
    the number of sources of an asterism and of sub-directions of a sun: it
    raises a [TypeError], and the coupled object is as before. *)
Lemma OPD_no_pupil_list_length_checked (self : t) (c : coupled)
    (l : list (ndarray Q)) :
  src self = Some c ->
  (exists a, c = CAsterism a /\ Asterism.tag a = "asterism"%string) \/
  (exists e, c = CSun e /\ ExtendedSourceData.tag e = "sun"%string) ->
  Z.of_nat (length l) <> Z.of_nat (length (members c)) ->
  exists msg,
    OPD_no_pupil_setter (OPD_list l) self
    = (with__OPD_no_pupil (OPD_list l) self, inl (TypeError msg)).
Proof.
  intros Hsrc Hc Hlen.
  unfold OPD_no_pupil_setter, bind, modify, get, lift, raise.
  cbn [fst snd src with__OPD_no_pupil]. rewrite Hsrc.
  destruct Hc as [(a & -> & T) | (e & -> & T)];
    cbn [coupled_tag members] in *; rewrite T;
    cbn [String.eqb Ascii.eqb Bool.eqb asterism_of sun_of];
    unfold Asterism.n_source; apply Z.eqb_neq in Hlen; rewrite Hlen;
    eexists; reflexivity.
Qed.

(** C7, for the setter of [OPD] on a telescope coupled to an asterism.  A
    list whose length is not the number of sources is stored in [_OPD] and
    the assignment returns: no exception is raised, and nothing else of the
    object changes. *)
Theorem OPD_list_length_not_checked (self : t) (a : Asterism.t)
    (l : list (ndarray Q)) :
  src self = Some (CAsterism a) ->
  Asterism.tag a = "asterism"%string ->
  Z.of_nat (length l) <> Asterism.n_source a ->
  OPD_setter (OPD_list l) self = (with__OPD (OPD_list l) self, inr tt).
Proof.
  intros Hsrc Htag Hlen.
  unfold OPD_setter, bind, modify, get, lift, ret.
  cbn [fst snd src with__OPD]. rewrite Hsrc. cbn [coupled_tag].
  rewrite Htag. cbn [String.eqb Ascii.eqb Bool.eqb asterism_of].
  apply Z.eqb_neq in Hlen. rewrite Hlen. reflexivity.
Qed.

End WithPlatform.

#[local] Existing Instance Reference.platform.

Lemma OPD_list_length_not_checked_witness :
  OPD_setter (OPD_list [Examples.flat7 0]) (Examples.tel7_with Examples.ast2)
  = (with__OPD (OPD_list [Examples.flat7 0])
       (Examples.tel7_with Examples.ast2), inr tt).
Proof.
  apply (OPD_list_length_not_checked _ Examples.ast2).
  - reflexivity.
  - reflexivity.
  - cbn. lia.
Defined.

End OPDClaims.


(* ================================================================== *)
(** * Telescope: what the methods leave as it is *)
(* ================================================================== *)

Module KeepFacts.
Import Py Np Mon TelescopeData Telescope MonFacts.

Ltac keeps_step :=
  lazymatch goal with
  | |- keeps _ (bind _ _) => apply keeps_bind; [|intro]
  | |- keeps _ (ret _) => apply keeps_ret
  | |- keeps _ get => apply keeps_get
  | |- keeps _ (lift _) => apply keeps_lift
  | |- keeps _ (raise _) => apply keeps_raise
  | |- keeps _ (modify _) =>
      apply keeps_modify; intro; cbv beta; solve [auto | reflexivity]
  | |- keeps _ (for_each _ _) => apply keeps_for_each; intro
  | |- keeps _ (if ?b then _ else _) => destruct b
  | |- keeps _ (match ?x with _ => _ end) => destruct x
  end.

Section WithPlatform.
Context `{P : Platform}.

Section Keeps.
Context {X : Type} (f : t -> X).
Hypothesis f__OPD : forall v s, f (with__OPD v s) = f s.
Hypothesis f__OPD_no_pupil : forall v s, f (with__OPD_no_pupil v s) = f s.
Hypothesis f_src : forall v s, f (with_src v s) = f s.
Hypothesis f_mean_removed_OPD :
  forall v s, f (with_mean_removed_OPD v s) = f s.
Hypothesis f_optical_path : forall v s, f (with_optical_path v s) = f s.
Hypothesis f_PSF_sun : forall v s, f (with_PSF_sun v s) = f s.
Hypothesis f_PSF_sun_norma : forall v s, f (with_PSF_sun_norma v s) = f s.
Hypothesis f_focal_EMF : forall v s, f (with_focal_EMF v s) = f s.
Hypothesis f_PSF : forall v s, f (with_PSF v s) = f s.
Hypothesis f_PSF_norma : forall v s, f (with_PSF_norma v s) = f s.
Hypothesis f_xPSF_arcsec : forall v s, f (with_xPSF_arcsec v s) = f s.
Hypothesis f_yPSF_arcsec : forall v s, f (with_yPSF_arcsec v s) = f s.
Hypothesis f__pupil : forall v s, f (with__pupil v s) = f s.
Hypothesis f_pixelArea : forall v s, f (with_pixelArea v s) = f s.
Hypothesis f_pupilLogical : forall v s, f (with_pupilLogical v s) = f s.
Hypothesis f_pupilReflectivity :
  forall v s, f (with_pupilReflectivity v s) = f s.
Hypothesis f_isInitialized : forall v s, f (with_isInitialized v s) = f s.
Hypothesis f_print :
  forall msg s, f (with_stdout (stdout s ++ [Printed msg]) s) = f s.

Lemma print_keeps (msg : string) : keeps f (print msg).
Proof. unfold print. keeps_step. Qed.

Lemma set_member_phase_keeps (i : Z) (ph : ndarray Q) :
  keeps f (set_member_phase i ph).
Proof. unfold set_member_phase. repeat keeps_step. Qed.

Lemma set_member_phase_no_pupil_keeps (i : Z) (ph : ndarray Q) :
  keeps f (set_member_phase_no_pupil i ph).
Proof. unfold set_member_phase_no_pupil. repeat keeps_step. Qed.

Lemma update_mean_removed_keeps (i : Z) : keeps f (update_mean_removed i).
Proof. unfold update_mean_removed. repeat keeps_step. Qed.

Ltac keeps_call :=
  lazymatch goal with
  | |- keeps _ (set_member_phase _ _) => apply set_member_phase_keeps
  | |- keeps _ (set_member_phase_no_pupil _ _) =>
      apply set_member_phase_no_pupil_keeps
  | |- keeps _ (update_mean_removed _) => apply update_mean_removed_keeps
  | |- keeps _ (print _) => apply print_keeps
  | |- _ => keeps_step
  end.

Lemma OPD_setter_keeps (val : pyopd) : keeps f (OPD_setter val).
Proof. unfold OPD_setter. repeat keeps_call. Qed.

Lemma OPD_no_pupil_setter_keeps (val : pyopd) :
  keeps f (OPD_no_pupil_setter val).
Proof. unfold OPD_no_pupil_setter. repeat keeps_call. Qed.

Lemma resetOPD_keeps : keeps f Coupling.resetOPD.
Proof.
  unfold Coupling.resetOPD.
  repeat lazymatch goal with
         | |- keeps _ (OPD_setter _) => apply OPD_setter_keeps
         | |- keeps _ (OPD_no_pupil_setter _) =>
             apply OPD_no_pupil_setter_keeps
         | |- _ => keeps_call
         end.
Qed.

Lemma mul_step_keeps (self : ExtendedSourceData.t) (i : Z) :
  keeps f (Coupling.mul_step self i).
Proof. unfold Coupling.mul_step. repeat keeps_call. Qed.

Lemma mul_loop_keeps (idx : list Z) :
  forall self, keeps f (Coupling.mul_loop self idx).
Proof.
  induction idx as [|i idx IH]; intros self; cbn [Coupling.mul_loop].
  - apply keeps_ret.
  - apply keeps_bind; [apply mul_step_keeps|]. intro. apply IH.
Qed.

Lemma ExtendedSource__mul___keeps (self : ExtendedSourceData.t) :
  keeps f (Coupling.ExtendedSource__mul__ self).
Proof.
  unfold Coupling.ExtendedSource__mul__.
  repeat lazymatch goal with
         | |- keeps _ (OPD_setter _) => apply OPD_setter_keeps
         | |- keeps _ (OPD_no_pupil_setter _) =>
             apply OPD_no_pupil_setter_keeps
         | |- keeps _ Coupling.resetOPD => apply resetOPD_keeps
         | |- keeps _ (Coupling.mul_loop _ _) => apply mul_loop_keeps
         | |- _ => keeps_call
         end.
Qed.

Lemma PropagateField_keeps (amplitude phase : ndarray Q) (zpf : Q)
    (img : option Q) :
  keeps f (PropagateField amplitude phase zpf img).
Proof. unfold PropagateField. repeat keeps_call. Qed.

Lemma pupil_setter_keeps (val : ndarray Q) : keeps f (pupil_setter val).
Proof. unfold pupil_setter. repeat keeps_call. Qed.

Lemma set_pupil_keeps : keeps f set_pupil.
Proof.
  unfold set_pupil.
  repeat lazymatch goal with
         | |- keeps _ (pupil_setter _) => apply pupil_setter_keeps
         | |- _ => keeps_call
         end.
Qed.

Lemma apply_spiders_keeps (angle : list Q) (thickness_spider : Q)
    (offset_X offset_Y : option (list Q)) :
  keeps f (apply_spiders angle thickness_spider offset_X offset_Y).
Proof.
  unfold apply_spiders.
  repeat lazymatch goal with
         | |- keeps _ (pupil_setter _) => apply pupil_setter_keeps
         | |- keeps _ set_pupil => apply set_pupil_keeps
         | |- _ => keeps_call
         end.
Qed.

Lemma sync_phase_keeps : keeps f sync_phase.
Proof. unfold sync_phase. repeat keeps_call. Qed.

End Keeps.
End WithPlatform.
End KeepFacts.


(* ================================================================== *)
(** * ExtendedSource: the flux of the sub-directions *)
(* ================================================================== *)

Module FluxFacts.
Import Py Np Mon MonFacts.

Lemma list_get_nth {A} (l : list A) (i : Z) (x : A) :
  list_get l i = inr x -> 0 <= i /\ nth_error l (Z.to_nat i) = Some x.
Proof.
  unfold list_get. destruct (Z.ltb_spec i 0); [discriminate|].
  destruct (nth_error l (Z.to_nat i)); [|discriminate].
  intros [= ->]. split; [lia|reflexivity].
Qed.

Lemma nth_replace_same {A} (l : list A) (k : nat) (v x : A) :
  nth_error (replace_nth l k v) k = Some x -> (k < length l)%nat -> x = v.
Proof.
  revert k. induction l as [|y l IH]; intros [|k] H L; cbn in *;
    try lia; try congruence.
  apply (IH k H). lia.
Qed.

Lemma nth_replace_other {A} (l : list A) (k j : nat) (v : A) :
  j <> k -> nth_error (replace_nth l k v) j = nth_error l j.
Proof.
  revert k j. induction l as [|y l IH]; intros [|k] [|j] H; cbn;
    try reflexivity; try congruence.
  apply IH. congruence.
Qed.

Lemma length_replace_nth {A} (l : list A) (k : nat) (v : A) :
  length (replace_nth l k v) = length l.
Proof.
  revert k. induction l as [|y l IH]; intros [|k]; cbn; auto.
Qed.

Lemma length_range (n : Z) : length (range n) = Z.to_nat n.
Proof. unfold range. now rewrite length_map, length_seq. Qed.

Lemma length_range2 (n : Z) :
  length (range2 n) = (Z.to_nat n * Z.to_nat n)%nat.
Proof.
  unfold range2.
  assert (H : forall l : list Z,
             length (flat_map (fun x => map (fun y => (x, y)) (range n)) l)
             = (length l * Z.to_nat n)%nat).
  { induction l as [|x l IH]; [reflexivity|].
    cbn [flat_map]. rewrite length_app, length_map, length_range, IH.
    cbn [length]. lia. }
  now rewrite H, length_range.
Qed.

Section WithPlatform.
Context `{P : Platform}.

(** The flux of a tile, as the constructor sets it. *)
Lemma subDirs_stars_loop_value (self : ExtendedSourceData.t)
    (tiles : list (Z * Z)) :
  forall acc stars,
    ExtendedSource.subDirs_stars_loop self tiles acc = inr stars ->
    length stars = (length acc + length tiles)%nat /\
    forall s, In s stars ->
      In s acc \/
      Source.nPhoton s
      = inject_Z
          (round (ExtendedSourceData.nPhoton self
                  / inject_Z (ExtendedSourceData.nSubDirs self
                              * ExtendedSourceData.nSubDirs self))).
Proof.
  induction tiles as [|[x y] tiles IH]; intros acc stars H;
    cbn [ExtendedSource.subDirs_stars_loop] in H.
  - inversion H; subst. split; [cbn; lia|]. auto.
  - destruct (Source_photometry (ExtendedSourceData.optBand self))
      as [band|]; [|discriminate].
    cbn beta iota in H. apply IH in H. destruct H as [L H].
    rewrite length_app in L. cbn [length] in *. split; [lia|].
    intros s I. destruct (H s I) as [Ia | E]; [|now right].
    apply in_app_or in Ia. destruct Ia as [Ia | [<- | []]]; [now left|].
    right. reflexivity.
Qed.

Ltac run_step H :=
  let s1 := fresh "s" in
  let a := fresh "a" in
  let E := fresh "E" in
  apply InitFacts.bind_returns in H; destruct H as (s1 & a & E & H);
  lazymatch type of E with
  | modify _ _ = _ => cbv [modify] in E; inversion E; subst; clear E
  | get _ = _ => cbv [get] in E; inversion E; subst; clear E
  | lift _ _ = _ => cbv [lift] in E; inversion E; subst; clear E
  | (if ?b then _ else _) _ = _ =>
      destruct b eqn:?; cbv [raise ret] in E; inversion E; subst; clear E
  end.

Lemma mul_step_returns (self self' : ExtendedSourceData.t) (i : Z)
    (obj obj' : TelescopeData.t) :
  Coupling.mul_step self i obj = (obj', inr self') ->
  let stars := Asterism.src (ExtendedSourceData.sun_subDir_ast self) in
  exists star star',
    nth_error stars (Z.to_nat i) = Some star /\
    0 <= i < Z.of_nat (length stars) /\
    ExtendedSourceData.nSubDirs self' = ExtendedSourceData.nSubDirs self /\
    Asterism.src (ExtendedSourceData.sun_subDir_ast self')
    = replace_nth stars (Z.to_nat i) star' /\
    Source.nPhoton star' = Source.nPhoton star /\
    Source.fluxMap star'
    = Some (Coupling.sun_fluxMap obj (ExtendedSourceData.nSubDirs self)
              (Source.nPhoton star)).
Proof.
  intros H stars. unfold Coupling.mul_step in H.
  repeat run_step H.
  apply InitFacts.bind_returns in H. destruct H as (s1 & u & _ & H).
  cbv [ret] in H. inversion H; subst; clear H. subst stars.
  repeat match goal with
         | H : list_get _ _ = inr _ |- _ => apply list_get_nth in H
         end.
  match goal with
  | H : list_set _ _ _ = inr _ |- _ =>
      unfold list_set in H;
      destruct ((0 <=? i) && _) eqn:B;
      [|discriminate]; inversion H; subst; clear H
  end.
  apply andb_true_iff in B. destruct B as [B1 B2].
  apply Z.leb_le in B1. apply Z.ltb_lt in B2.
  eexists. eexists. split; [intuition eassumption|]. split; [lia|].
  split; [reflexivity|]. split; [reflexivity|]. split; reflexivity.
Qed.

(** The part of the telescope that the flux map is computed from. *)
Let frame (obj : TelescopeData.t) :=
  (TelescopeData.pupilReflectivity obj, TelescopeData.samplingTime obj,
   TelescopeData.D obj, TelescopeData.resolution obj).

Lemma sun_fluxMap_frame (obj obj' : TelescopeData.t) (n : Z) (q : Q) :
  frame obj' = frame obj ->
  Coupling.sun_fluxMap obj' n q = Coupling.sun_fluxMap obj n q.
Proof.
  unfold frame, Coupling.sun_fluxMap. intros [= -> -> -> ->]. reflexivity.
Qed.

Lemma mul_step_frame (self : ExtendedSourceData.t) (i : Z) :
  keeps frame (Coupling.mul_step self i).
Proof. apply KeepFacts.mul_step_keeps; intros; reflexivity. Qed.

(** The members after the loop of the coupling over the indices [idx]:
    each has the flux it had; one whose index was met has the flux map of
    the formula; one whose index was not met is as it was. *)
Lemma mul_loop_returns (idx : list Z) :
  forall (self self' : ExtendedSourceData.t) (obj obj' : TelescopeData.t),
    Coupling.mul_loop self idx obj = (obj', inr self') ->
    let l0 := Asterism.src (ExtendedSourceData.sun_subDir_ast self) in
    let l := Asterism.src (ExtendedSourceData.sun_subDir_ast self') in
    frame obj' = frame obj /\
    ExtendedSourceData.nSubDirs self' = ExtendedSourceData.nSubDirs self /\
    length l = length l0 /\
    forall k s, nth_error l k = Some s ->
      exists s0,
        nth_error l0 k = Some s0 /\
        Source.nPhoton s = Source.nPhoton s0 /\
        (In (Z.of_nat k) idx ->
         Source.fluxMap s
         = Some (Coupling.sun_fluxMap obj (ExtendedSourceData.nSubDirs self)
                   (Source.nPhoton s0))) /\
        (~ In (Z.of_nat k) idx -> s = s0).
Proof.
  induction idx as [|i idx IH]; intros self self' obj obj' H;
    cbn [Coupling.mul_loop] in H.
  - cbv [ret] in H. inversion H; subst. cbv zeta.
    repeat split. intros k s E. exists s. repeat split; auto.
    intros [].
  - apply InitFacts.bind_returns in H. destruct H as (obj1 & self1 & E1 & H).
    pose proof (mul_step_frame self i obj) as F1. rewrite E1 in F1.
    cbn [fst] in F1.
    apply mul_step_returns in E1. cbv zeta in E1.
    destruct E1 as (star & star' & Hs & Hi & Hn & Hl & Hp & Hf).
    apply IH in H. cbv zeta in H. destruct H as (F2 & Hn2 & Hlen & H).
    split; [congruence|]. split; [congruence|].
    split; [rewrite Hlen, Hl; apply length_replace_nth|].
    intros k s E. destruct (H k s E) as (s1 & E1 & P1 & In1 & Out1).
    rewrite Hl in E1.
    destruct (Nat.eq_dec k (Z.to_nat i)) as [-> | Hk].
    + apply nth_replace_same in E1; [|lia]. subst s1.
      exists star. split; [exact Hs|]. split; [congruence|]. split.
      * intros _.
        destruct (in_dec Z.eq_dec (Z.of_nat (Z.to_nat i)) idx) as [I | I].
        -- rewrite (In1 I), Hn, Hp. f_equal. now apply sun_fluxMap_frame.
        -- rewrite (Out1 I). exact Hf.
      * intros N. exfalso. apply N. left. lia.
    + rewrite nth_replace_other in E1 by exact Hk.
      exists s1. split; [exact E1|]. split; [exact P1|]. split.
      * intros [I | I]; [lia|]. rewrite (In1 I), Hn. f_equal.
        now apply sun_fluxMap_frame.
      * intros N. apply Out1. intro I. apply N. now right.
Qed.

(** The coupling of an extended source to a telescope, when it returns. *)
Lemma coupling_returns (self : ExtendedSourceData.t)
    (obj obj' : TelescopeData.t) (u : unit) :
  Coupling.ExtendedSource__mul__ self obj = (obj', inr u) ->
  let n := ExtendedSourceData.nSubDirs self in
  let l0 := Asterism.src (ExtendedSourceData.sun_subDir_ast self) in
  frame obj' = frame obj /\
  exists self',
    TelescopeData.src obj' = Some (CSun self') /\
    ExtendedSourceData.nSubDirs self' = n /\
    let l := Asterism.src (ExtendedSourceData.sun_subDir_ast self') in
    length l = length l0 /\
    forall k s, nth_error l k = Some s ->
      exists s0,
        nth_error l0 k = Some s0 /\
        Source.nPhoton s = Source.nPhoton s0 /\
        (Z.of_nat k < n * n ->
         Source.fluxMap s
         = Some (Coupling.sun_fluxMap obj' n (Source.nPhoton s0))).
Proof.
  intros H. unfold Coupling.ExtendedSource__mul__ in H.
  apply InitFacts.bind_returns in H. destruct H as (s0 & obj0 & E & H).
  cbv [get] in E. inversion E; subst; clear E.
  apply InitFacts.bind_returns in H. destruct H as (s1 & [] & E1 & H).
  assert (F1 : frame s1 = frame obj0).
  { match type of E1 with
    | ?c _ = _ => assert (K : keeps frame c)
    end.
    { repeat lazymatch goal with
             | |- keeps _ (Telescope.OPD_setter _) =>
                 apply KeepFacts.OPD_setter_keeps; intros; reflexivity
             | |- keeps _ (Telescope.OPD_no_pupil_setter _) =>
                 apply KeepFacts.OPD_no_pupil_setter_keeps; intros;
                 reflexivity
             | |- keeps _ Coupling.resetOPD =>
                 apply KeepFacts.resetOPD_keeps; intros; reflexivity
             | |- keeps _ (modify _) =>
                 apply keeps_modify; intro; reflexivity
             | |- _ => KeepFacts.keeps_step
             end. }
    specialize (K obj0). now rewrite E1 in K. }
  clear E1.
  apply InitFacts.bind_returns in H. destruct H as (s2 & self' & E2 & H).
  cbv [modify] in H. inversion H; subst; clear H.
  apply mul_loop_returns in E2. cbv zeta in E2.
  destruct E2 as (F2 & Hn & Hlen & Hm). cbv zeta.
  split; [unfold frame in *; cbn; congruence|].
  exists self'. split; [reflexivity|]. split; [exact Hn|].
  split; [exact Hlen|].
  intros k s E. destruct (Hm k s E) as (s0 & E0 & P0 & I0 & _).
  exists s0. split; [exact E0|]. split; [exact P0|].
  intros Hk. rewrite I0.
  - f_equal. symmetry. apply sun_fluxMap_frame.
    unfold frame in *. cbn. congruence.
  - apply TileFacts.in_range_iff. lia.
Qed.

(** With 2 by 2 tiles the flux map of the first sub-direction is a quarter
    of the undivided one, at a pixel where that one is not zero. *)
Lemma coupling_divides_again (self : ExtendedSourceData.t)
    (obj obj' : TelescopeData.t) (s0 : Source.t) (a : ndarray Q)
    (ix : list Z) :
  Coupling.ExtendedSource__mul__ self obj = (obj', inr tt) ->
  ExtendedSourceData.nSubDirs self = 2 ->
  nth_error (Asterism.src (ExtendedSourceData.sun_subDir_ast self)) 0
  = Some s0 ->
  TelescopeData.pupilReflectivity obj = Refl_map a ->
  Spec.in_range (shape a) ix ->
  ~ (item a ix * Source.nPhoton s0 * TelescopeData.samplingTime obj
     * (TelescopeData.D obj / inject_Z (TelescopeData.resolution obj)) ^ 2
     == 0)%Q ->
  exists sun' s,
    TelescopeData.src obj' = Some (CSun sun') /\
    In s (Asterism.src (ExtendedSourceData.sun_subDir_ast sun')) /\
    ~ Spec.undivided_fluxMap obj' s.
Proof.
  intros E N2 E0 Ha Hix Hnz.
  destruct (coupling_returns self obj obj' tt E)
    as (Fr & sun' & Hsrc & _ & Hlen & Hm).
  cbv zeta in Hlen, Hm. unfold frame in Fr.
  assert (F1 : TelescopeData.pupilReflectivity obj'
               = TelescopeData.pupilReflectivity obj) by congruence.
  assert (F2 : TelescopeData.samplingTime obj'
               = TelescopeData.samplingTime obj) by congruence.
  assert (F3 : TelescopeData.D obj' = TelescopeData.D obj) by congruence.
  assert (F4 : TelescopeData.resolution obj' = TelescopeData.resolution obj)
    by congruence.
  clear Fr.
  destruct (Asterism.src (ExtendedSourceData.sun_subDir_ast sun'))
    as [|s l] eqn:El.
  { assert (L : (0 < length (Asterism.src
                                (ExtendedSourceData.sun_subDir_ast self)))%nat)
      by (apply nth_error_Some; congruence).
    cbn [length] in Hlen. lia. }
  exists sun', s. split; [exact Hsrc|]. rewrite El. split; [now left|].
  destruct (Hm 0%nat s eq_refl) as (s1 & E1 & P1 & Fm).
  rewrite E0 in E1. injection E1 as <-.
  rewrite N2 in Fm. specialize (Fm ltac:(cbn; lia)).
  intros (F & b & HF & Hb & Hall).
  rewrite Fm in HF. injection HF as <-.
  rewrite F1, Ha in Hb. injection Hb as <-.
  specialize (Hall ix Hix).
  unfold Coupling.sun_fluxMap in Hall. rewrite F1, Ha in Hall.
  cbn [item map_nd] in Hall. rewrite P1, F2, F3, F4 in Hall.
  change (inject_Z (2 ^ 2)) with 4%Q in Hall.
  set (y := (item a ix * Source.nPhoton s0 * TelescopeData.samplingTime obj
             * (TelescopeData.D obj
                / inject_Z (TelescopeData.resolution obj)) ^ 2)%Q) in *.
  assert (Hy : (item a ix * (1 / 4) * Source.nPhoton s0
                * TelescopeData.samplingTime obj
                * (TelescopeData.D obj
                   / inject_Z (TelescopeData.resolution obj)) ^ 2
                == y * (1 / 4))%Q) by (unfold y; ring).
  rewrite Hy in Hall. apply Hnz. clearbody y. clear - Hall.
  change (1 / 4)%Q with (1 # 4)%Q in Hall. lra.
Qed.

End WithPlatform.
End FluxFacts.


Module FluxClaims.
Import Py Np Mon MonFacts FluxFacts.

Section WithPlatform.
Context `{P : Platform}.

(** The members of an extended source that has been constructed: there are
    [nSubDirs * nSubDirs] of them, each with the flux of the parent divided
    by their number and rounded. *)
Lemma new_members (optBand : pyobj) (coordinates : Q * Q) (fov : Q)
    (display_properties : bool) (fits_image : exn + ndarray Q) (img_PS : Q)
    (nSubDirs : Z) (patch_padding subDir_margin : Q)
    (sun : ExtendedSourceData.t) :
  ExtendedSource.new optBand coordinates fov display_properties fits_image
    img_PS nSubDirs patch_padding subDir_margin = inr sun ->
  let n := ExtendedSourceData.nSubDirs sun in
  let stars := Asterism.src (ExtendedSourceData.sun_subDir_ast sun) in
  0 < n /\
  Z.of_nat (length stars) = n * n /\
  forall s, In s stars ->
    Source.nPhoton s
    = inject_Z (round (ExtendedSourceData.nPhoton sun / inject_Z (n * n))).
Proof.
  intros H. cbv zeta.
  destruct (InitFacts.init_returns _ _ _ _ _ _ _ _ _ _ H)
    as (Hn & En & _ & _ & self & stars & Hl & Ha & Hp & Hs).
  rewrite En, Ha. cbn [Asterism.src Asterism.new].
  destruct (subDirs_stars_loop_value self (range2 nSubDirs) [] stars Hl)
    as [L V].
  split; [lia|]. split.
  - rewrite L, length_range2. cbn [length]. lia.
  - intros s I. destruct (V s I) as [[] | E]. rewrite E, Hp, Hs.
    reflexivity.
Qed.

(** C6, with the factor that the code has.  Each sub-direction of an
    extended source that has been constructed carries the flux of the
    parent divided by the number of tiles and rounded.  The flux map that
    the coupling to a telescope assigns to it is the reflectivity times
    [1 / nSubDirs ** 2] times that flux of the tile, times the sampling
    time and the area of a pixel: the flux of the parent is divided by the
    number of tiles a second time. *)
Theorem sub_direction_fluxMap (optBand : pyobj) (coordinates : Q * Q)
    (fov : Q) (display_properties : bool) (fits_image : exn + ndarray Q)
    (img_PS : Q) (nSubDirs : Z) (patch_padding subDir_margin : Q)
    (sun : ExtendedSourceData.t) (tel tel' : TelescopeData.t) :
  ExtendedSource.new optBand coordinates fov display_properties fits_image
    img_PS nSubDirs patch_padding subDir_margin = inr sun ->
  Coupling.ExtendedSource__mul__ sun tel = (tel', inr tt) ->
  let n := ExtendedSourceData.nSubDirs sun in
  let per_tile :=
    inject_Z (round (ExtendedSourceData.nPhoton sun / inject_Z (n * n))) in
  (forall s, In s (Asterism.src (ExtendedSourceData.sun_subDir_ast sun)) ->
     Source.nPhoton s = per_tile) /\
  exists sun',
    TelescopeData.src tel' = Some (CSun sun') /\
    forall s, In s (Asterism.src (ExtendedSourceData.sun_subDir_ast sun')) ->
      Source.nPhoton s = per_tile /\
      exists F,
        Source.fluxMap s = Some F /\
        forall a, TelescopeData.pupilReflectivity tel' = Refl_map a ->
          shape F = shape a /\
          forall ix,
            item F ix
            = (item a ix * (1 / inject_Z (n ^ 2)) * per_tile
               * TelescopeData.samplingTime tel'
               * (TelescopeData.D tel'
                  / inject_Z (TelescopeData.resolution tel')) ^ 2)%Q.
Proof.
  intros Hnew Hmul. cbv zeta.
  destruct (new_members _ _ _ _ _ _ _ _ _ _ Hnew) as (Hn & Hlen & Hflux).
  cbv zeta in Hflux. split; [exact Hflux|].
  destruct (coupling_returns sun tel tel' tt Hmul)
    as (_ & sun' & Hsrc & _ & Hl & Hm).
  cbv zeta in Hl, Hm. exists sun'. split; [exact Hsrc|].
  intros s I. apply In_nth_error in I. destruct I as [k Ek].
  destruct (Hm k s Ek) as (s0 & E0 & P0 & F0).
  assert (I0 : In s0 (Asterism.src (ExtendedSourceData.sun_subDir_ast sun)))
    by (eapply nth_error_In; eassumption).
  assert (Hk : Z.of_nat k
               < ExtendedSourceData.nSubDirs sun
                 * ExtendedSourceData.nSubDirs sun).
  { rewrite <- Hlen. apply Nat2Z.inj_lt. apply nth_error_Some. congruence. }
  split; [rewrite P0; now apply Hflux|].
  eexists. split; [exact (F0 Hk)|].
  intros a Ha. unfold Coupling.sun_fluxMap. rewrite Ha.
  rewrite (Hflux s0 I0). split; reflexivity.
Qed.

End WithPlatform.

#[local] Existing Instance Reference.platform.

Lemma sun2_constructed :
  ExtendedSource.new (PyStr "V") (0%Q, 0%Q) 5 false (inr Examples.image)
    1 2 1 2 = inr Examples.sun2.
Proof.
  assert (R : match ExtendedSource.new (PyStr "V") (0%Q, 0%Q) 5 false
                      (inr Examples.image) 1 2 1 2 with
              | inr _ => True
              | inl _ => False
              end) by (vm_compute; exact I).
  unfold Examples.sun2, Examples.or_else.
  destruct (ExtendedSource.new (PyStr "V") (0%Q, 0%Q) 5 false
              (inr Examples.image) 1 2 1 2) as [e|sun]; [destruct R|].
  reflexivity.
Qed.

Lemma sun2_coupled :
  snd (Coupling.ExtendedSource__mul__ Examples.sun2 Examples.tel7) = inr tt.
Proof. vm_compute. reflexivity. Qed.

Lemma sub_direction_fluxMap_witness :
  let tel' := fst (Coupling.ExtendedSource__mul__ Examples.sun2 Examples.tel7)
  in
  exists sun',
    TelescopeData.src tel' = Some (CSun sun') /\
    forall s, In s (Asterism.src (ExtendedSourceData.sun_subDir_ast sun')) ->
      Source.nPhoton s
      = inject_Z
          (round (ExtendedSourceData.nPhoton Examples.sun2
                  / inject_Z (ExtendedSourceData.nSubDirs Examples.sun2
                              * ExtendedSourceData.nSubDirs Examples.sun2))).
Proof.
  pose proof sun2_coupled as R.
  destruct (Coupling.ExtendedSource__mul__ Examples.sun2 Examples.tel7)
    as [tel' r] eqn:E.
  cbn [fst snd] in *. subst r.
  destruct (proj2 (sub_direction_fluxMap _ _ _ _ _ _ _ _ _ _ _ _
                     sun2_constructed E)) as (sun' & Hsrc & H).
  exists sun'. split; [exact Hsrc|]. intros s I. exact (proj1 (H s I)).
Defined.

(** C6 as stated, at the first sub-direction of the extended source of 2
    by 2 tiles coupled to the telescope of 7 by 7 pixels: at the central
    pixel its flux map is a quarter of the reflectivity times the flux of
    the tile, the sampling time and the area of a pixel. *)
Lemma fluxMap_divided_again :
  exists tel' sun' s,
    Coupling.ExtendedSource__mul__ Examples.sun2 Examples.tel7
    = (tel', inr tt) /\
    TelescopeData.src tel' = Some (CSun sun') /\
    In s (Asterism.src (ExtendedSourceData.sun_subDir_ast sun')) /\
    ~ Spec.undivided_fluxMap tel' s.
Proof.
  pose proof sun2_coupled as R.
  destruct (Coupling.ExtendedSource__mul__ Examples.sun2 Examples.tel7)
    as [tel' r] eqn:E.
  cbn [fst snd] in R. subst r.
  assert (N2 : ExtendedSourceData.nSubDirs Examples.sun2 = 2)
    by (vm_compute; reflexivity).
  assert (B : match
                nth_error
                  (Asterism.src
                     (ExtendedSourceData.sun_subDir_ast Examples.sun2)) 0,
                TelescopeData.pupilReflectivity Examples.tel7
              with
              | Some s0, Refl_map a =>
                  negb
                    (Qeq_bool
                       (item a [3; 3] * Source.nPhoton s0
                        * TelescopeData.samplingTime Examples.tel7
                        * (TelescopeData.D Examples.tel7
                           / inject_Z
                               (TelescopeData.resolution Examples.tel7))
                          ^ 2) 0)
                  && (if list_eq_dec Z.eq_dec (shape a) [7; 7]
                      then true else false)
              | _, _ => false
              end = true) by (vm_compute; reflexivity).
  destruct (nth_error
              (Asterism.src
                 (ExtendedSourceData.sun_subDir_ast Examples.sun2)) 0)
    as [s0|] eqn:E0; [|discriminate].
  destruct (TelescopeData.pupilReflectivity Examples.tel7)
    as [q|a] eqn:Ea; [discriminate|].
  apply andb_true_iff in B. destruct B as [B1 B2].
  destruct (list_eq_dec Z.eq_dec (shape a) [7; 7]) as [Sa|]; [|discriminate].
  apply negb_true_iff in B1.
  destruct (coupling_divides_again Examples.sun2 Examples.tel7 tel' s0 a
              [3; 3] E N2 E0 Ea) as (sun' & s & H1 & H2 & H3).
  - rewrite Sa. repeat constructor; lia.
  - intro Z0. apply Qeq_bool_iff in Z0. congruence.
  - exists tel', sun', s. auto.
Qed.

End FluxClaims.


(* ================================================================== *)
(** * Telescope: the loop of computePSF over the sources *)
(* ================================================================== *)

Module WavelengthFacts.
Import Py Np Mon TelescopeData Telescope MonFacts.
Import Spec (not_attribute_error, wavelength_error).

Lemma not_attribute_wavelength (e : exn) :
  not_attribute_error e -> ~ wavelength_error e.
Proof. intros H [-> | ->]; exact H. Qed.

Lemma map2_attr {A B C} (f : A -> B -> C) (a : ndarray A) (b : ndarray B)
    (e : exn) :
  map2 f a b = inl e -> not_attribute_error e.
Proof.
  unfold map2. destruct (broadcast (shape a) (shape b)); [discriminate|].
  intros [= <-]. exact I.
Qed.

Lemma mul_attr (a b : ndarray Q) (e : exn) :
  mul a b = inl e -> not_attribute_error e.
Proof.
  unfold mul. destruct (broadcast (shape a) (shape b)); [discriminate|].
  intros [= <-]. exact I.
Qed.

Lemma add_attr (a b : ndarray Q) (e : exn) :
  add a b = inl e -> not_attribute_error e.
Proof.
  unfold add. destruct (broadcast (shape a) (shape b)); [discriminate|].
  intros [= <-]. exact I.
Qed.

Lemma pad2_attr {A} (zero : A) (a : ndarray A) (p q : Z) (e : exn) :
  pad2 zero a p q = inl e -> not_attribute_error e.
Proof.
  unfold pad2. destruct (shape a) as [|? [|? [|? ?]]];
    try (intros [= <-]; exact I).
  destruct ((p <? 0) || (q <? 0)); [|discriminate].
  intros [= <-]. exact I.
Qed.

Lemma slice2_attr {A} (a : ndarray A) (rs cs : slice) (e : exn) :
  slice2 a rs cs = inl e -> not_attribute_error e.
Proof.
  unfold slice2. destruct (shape a) as [|? [|? [|? ?]]];
    try (intros [= <-]; exact I); discriminate.
Qed.

Lemma shape_at_attr {A} (a : ndarray A) (k : nat) (e : exn) :
  shape_at a k = inl e -> not_attribute_error e.
Proof.
  unfold shape_at. destruct (nth_error (shape a) k); [discriminate|].
  intros [= <-]. exact I.
Qed.

Lemma oversampling_attr (zpf : Q) (ov : Z) (e : exn) :
  integer_oversampling zpf ov = inl e -> not_attribute_error e.
Proof.
  unfold integer_oversampling.
  destruct (Qltb (zpf * inject_Z ov) 2); [|discriminate].
  destruct (Qeq_bool zpf 0); [|discriminate].
  intros [= <-]. exact I.
Qed.

Create HintDb attr_err.
#[local] Hint Resolve map2_attr mul_attr add_attr pad2_attr slice2_attr
  shape_at_attr oversampling_attr : attr_err.

Ltac attr_step :=
  match goal with
  | |- (match ?X with inl _ => _ | inr _ => _ end) = inl _ -> _ =>
      let E := fresh "E" in
      destruct X as [?|?] eqn:E;
      [intros [= <-]; first [solve [eauto with attr_err] | revert E]|]
  | |- (match ?X with Some _ => _ | None => _ end) = inl _ -> _ =>
      destruct X
  | |- (let (_, _) := ?X in _) = inl _ -> _ => destruct X
  | |- (if ?X then _ else _) = inl _ -> _ => destruct X
  | |- inr _ = inl _ -> _ => discriminate
  | |- inl _ = inl _ -> _ => intros [= <-]; exact I
  | |- _ = inl _ -> _ => solve [intro; eauto with attr_err]
  end.

Section WithPlatform.
Context `{P : Platform}.

Lemma propagate_attr (self : t) (amplitude phase : ndarray Q) (zpf : Q)
    (img : option Q) (e : exn) :
  propagate self amplitude phase zpf img = inl e -> not_attribute_error e.
Proof. unfold propagate. repeat attr_step. Qed.

Lemma member_amp_attr (self : t) (s : Source.t) (e : exn) :
  member_amp self s = inl e -> not_attribute_error e.
Proof. unfold member_amp. repeat attr_step. Qed.

Lemma member_delta_TT_attr (self : t) (s : Source.t) (e : exn) :
  member_delta_TT self s = inl e -> not_attribute_error e.
Proof. unfold member_delta_TT. repeat attr_step. Qed.

Lemma member_phase_attr (phase : option (ndarray Q)) (d : ndarray Q)
    (e : exn) :
  member_phase phase d = inl e -> not_attribute_error e.
Proof. unfold member_phase. repeat attr_step. Qed.

(** The part of the telescope that the propagation of a source reads. *)
Let core (st : t) :=
  (_pupil st, spatialFilter st, resolution st, coronagraph_diameter st).

Lemma member_PSF_core (st st' : t) (zpf res : Q) (s : Source.t) :
  core st' = core st ->
  Spec.member_PSF st' zpf res s = Spec.member_PSF st zpf res s.
Proof.
  unfold core. intros [= H1 H2 H3 H4].
  unfold Spec.member_PSF, member_amp, member_delta_TT, propagate, pupil.
  rewrite H1, H2, H3, H4. reflexivity.
Qed.

Lemma propagate_core (st st' : t) (a ph : ndarray Q) (zpf : Q)
    (img : option Q) :
  core st' = core st ->
  propagate st' a ph zpf img = propagate st a ph zpf img.
Proof.
  unfold core. intros [= H1 H2 H3 H4].
  unfold propagate, pupil. rewrite H1, H3, H4. reflexivity.
Qed.

(** A source of another wavelength stops the loop at its turn: the turn
    raises one of the two errors of the test and changes nothing. *)
Lemma computePSF_step_mismatch (c : coupled) (lambda zpf res : Q)
    (s : Source.t) (st : t) :
  Qeq_bool lambda (Source.wavelength s) = false ->
  exists e,
    computePSF_step c lambda zpf res s st = (st, inl e) /\ wavelength_error e.
Proof.
  intros H. unfold computePSF_step. rewrite H.
  destruct (String.eqb (coupled_tag c) "asterism");
    eexists; (split; [reflexivity|]); [left | right]; reflexivity.
Qed.

Lemma computePSF_step_core (c : coupled) (lambda zpf res : Q)
    (s : Source.t) :
  keeps core (computePSF_step c lambda zpf res s).
Proof.
  unfold computePSF_step, fov_warning, warn_outside_fov.
  repeat lazymatch goal with
         | |- keeps _ (PropagateField _ _ _ _) =>
             apply KeepFacts.PropagateField_keeps; intros; reflexivity
         | |- keeps _ (modify _) =>
             apply keeps_modify; intro; reflexivity
         | |- _ => KeepFacts.keeps_step
         end.
Qed.

(** A turn that returns has computed the point-spread function of its
    source. *)
Lemma computePSF_step_returns (c : coupled) (lambda zpf res : Q)
    (s : Source.t) (st st1 : t) (r : ndarray Q * ndarray Q) :
  computePSF_step c lambda zpf res s st = (st1, inr r) ->
  Spec.member_PSF st zpf res s = inr (fst r).
Proof.
  intros H. unfold computePSF_step in H.
  apply InitFacts.bind_returns in H. destruct H as (s0 & [] & E & H).
  destruct (Qeq_bool lambda (Source.wavelength s)).
  2:{ destruct (String.eqb (coupled_tag c) "asterism"); discriminate E. }
  cbv [ret] in E. inversion E; subst s0; clear E.
  apply InitFacts.bind_returns in H. destruct H as (s0 & self & E & H).
  cbv [get] in E. inversion E; subst; clear E.
  apply InitFacts.bind_returns in H. destruct H as (s0 & amp & E & H).
  cbv [lift] in E. inversion E as [[E1 Eamp]]; subst s0; clear E.
  apply InitFacts.bind_returns in H. destruct H as (s0 & delta & E & H).
  cbv [lift] in E. inversion E as [[E1 Edelta]]; subst s0; clear E.
  apply InitFacts.bind_returns in H. destruct H as (s0 & axes & E & H).
  assert (s0 = self).
  { match type of E with
    | ?blk _ = _ => assert (K : keeps (fun o : t => o) blk)
    end.
    { repeat KeepFacts.keeps_step. }
    specialize (K self). now rewrite E in K. }
  subst s0. clear E.
  apply InitFacts.bind_returns in H. destruct H as (s0 & [] & E & H).
  cbv [modify] in E. inversion E; subst s0; clear E.
  apply InitFacts.bind_returns in H. destruct H as (s0 & [] & E & H).
  cbv [modify] in E. inversion E; subst s0; clear E.
  apply InitFacts.bind_returns in H. destruct H as (s3 & [] & E & H).
  assert (C3 : core s3 = core self).
  { match type of E with
    | ?blk _ = _ => assert (K : keeps core blk)
    end.
    { unfold fov_warning, warn_outside_fov.
      repeat lazymatch goal with
             | |- keeps _ (modify _) =>
                 apply keeps_modify; intro; reflexivity
             | |- _ => KeepFacts.keeps_step
             end. }
    specialize (K (with_yPSF_arcsec (Some (snd axes))
                     (with_xPSF_arcsec (Some (fst axes)) self))).
    rewrite E in K. exact K. }
  clear E.
  apply InitFacts.bind_returns in H. destruct H as (s0 & phase & E & H).
  cbv [lift] in E. inversion E as [[E1 Ephase]]; subst s0; clear E.
  apply InitFacts.bind_returns in H. destruct H as (s4 & ov & E & H).
  unfold PropagateField in E.
  apply InitFacts.bind_returns in E. destruct E as (s0 & self3 & E0 & E).
  cbv [get] in E0. inversion E0; subst s0 self3; clear E0.
  apply InitFacts.bind_returns in E. destruct E as (s0 & pr & E0 & E).
  cbv [lift] in E0. inversion E0 as [[E1 Eprop]]; subst s0; clear E0.
  apply InitFacts.bind_returns in E. destruct E as (s0 & [] & E0 & E).
  cbv [modify] in E0. inversion E0; subst s0; clear E0.
  apply InitFacts.bind_returns in E. destruct E as (s0 & psf & E0 & E).
  cbv [lift] in E0. inversion E0 as [[E1 Epsf]]; subst s0; clear E0.
  cbv [bind modify ret] in E. inversion E; subst s4 ov; clear E.
  apply InitFacts.bind_returns in H. destruct H as (s0 & self4 & E & H).
  cbv [get] in E. inversion E; subst s0 self4; clear E.
  cbn [PSF with_PSF] in H.
  cbv [bind modify ret] in H. inversion H; subst; clear H.
  cbn [fst]. unfold Spec.member_PSF.
  rewrite Eamp, Edelta. cbn beta iota. rewrite Ephase. cbn beta iota.
  rewrite <- (propagate_core self s3) by exact C3.
  rewrite Eprop. exact Epsf.
Qed.

Lemma wavelength_error_attr (bad e : exn) :
  wavelength_error bad -> not_attribute_error e -> e <> bad.
Proof. intros [-> | ->] H ->; exact H. Qed.

(** A turn whose source has the wavelength of the first one raises neither
    of the two errors of the test. *)
Lemma computePSF_step_avoids (bad : exn) (c : coupled) (lambda zpf res : Q)
    (s : Source.t) :
  wavelength_error bad -> ~ Spec.binning_error bad ->
  Qeq_bool lambda (Source.wavelength s) = true ->
  avoids bad (computePSF_step c lambda zpf res s).
Proof.
  intros Hbad Hbin H.
  unfold computePSF_step, PropagateField, fov_warning, warn_outside_fov.
  rewrite H.
  repeat lazymatch goal with
         | |- avoids _ (lift (focal_PSF ?r)) =>
             apply avoids_lift; intros e0 He0 ->; apply Hbin;
             destruct (PropagateFacts.focal_PSF_error r _ He0) as [_ B];
             red; eauto
         | |- avoids _ (bind _ _) => apply avoids_bind; [|intro]
         | |- avoids _ (ret _) => apply avoids_ret
         | |- avoids _ get => apply avoids_get
         | |- avoids _ (modify _) => apply avoids_modify
         | |- avoids _ (raise _) =>
             apply avoids_raise; destruct Hbad as [-> | ->]; discriminate
         | |- avoids _ (lift (sun_of ?c)) =>
             apply avoids_lift; destruct c; intros e0 [= <-];
             destruct Hbad as [-> | ->]; discriminate
         | |- avoids _ (lift _) =>
             apply avoids_lift; intros e0 He0;
             apply (wavelength_error_attr _ _ Hbad);
             eauto using propagate_attr, member_amp_attr,
               member_delta_TT_attr, member_phase_attr
         | |- avoids _ (if ?b then _ else _) => destruct b
         | |- avoids _ (match ?x with _ => _ end) => destruct x
         end.
Qed.

Lemma computePSF_loop_core (c : coupled) (lambda zpf res : Q)
    (l : list Source.t) :
  forall acc accn, keeps core (computePSF_loop c lambda zpf res l acc accn).
Proof.
  induction l as [|s l IH]; intros acc accn; cbn [computePSF_loop].
  - apply keeps_ret.
  - apply keeps_bind; [apply computePSF_step_core|]. intro. apply IH.
Qed.

(** The loop, when it returns, has appended the point-spread functions of
    the sources in their order. *)
Lemma computePSF_loop_returns (c : coupled) (lambda zpf res : Q)
    (l : list Source.t) :
  forall acc accn st st' out,
    computePSF_loop c lambda zpf res l acc accn st = (st', inr out) ->
    exists ps,
      fst out = acc ++ ps /\
      Forall2 (fun s p => Spec.member_PSF st zpf res s = inr p) l ps.
Proof.
  induction l as [|s l IH]; intros acc accn st st' out H;
    cbn [computePSF_loop] in H.
  - cbv [ret] in H. inversion H; subst. exists []. cbn [fst].
    rewrite app_nil_r. split; [reflexivity|constructor].
  - apply InitFacts.bind_returns in H. destruct H as (st1 & r & E & H).
    pose proof (computePSF_step_core c lambda zpf res s st) as C1.
    rewrite E in C1. cbn [fst] in C1.
    apply computePSF_step_returns in E.
    apply IH in H. destruct H as (ps & Hout & Hall).
    exists (fst r :: ps). split.
    + rewrite Hout, <- app_assoc. reflexivity.
    + constructor; [exact E|].
      eapply Forall2_impl; [|exact Hall].
      intros s' p Hp. cbv beta in Hp.
      rewrite <- Hp. symmetry. now apply member_PSF_core.
Qed.

(** The loop raises when one of the sources has another wavelength. *)
Lemma computePSF_loop_mismatch (c : coupled) (lambda zpf res : Q)
    (l : list Source.t) :
  (exists s, In s l /\ Qeq_bool lambda (Source.wavelength s) = false) ->
  forall acc accn st,
    exists e, snd (computePSF_loop c lambda zpf res l acc accn st) = inl e.
Proof.
  intros (s & I & Hs). induction l as [|s0 l IH]; [destruct I|].
  intros acc accn st. cbn [computePSF_loop]. unfold bind.
  destruct (computePSF_step c lambda zpf res s0 st) as [st1 [e|r]] eqn:E.
  - exists e. reflexivity.
  - destruct I as [-> | I].
    + destruct (computePSF_step_mismatch c lambda zpf res s st Hs)
        as (e & E' & _). congruence.
    + apply IH. exact I.
Qed.

(** With one wavelength for all sources the loop does not raise the errors
    of the test. *)
Lemma computePSF_loop_avoids (bad : exn) (c : coupled) (lambda zpf res : Q)
    (l : list Source.t) :
  wavelength_error bad -> ~ Spec.binning_error bad ->
  (forall s, In s l -> Qeq_bool lambda (Source.wavelength s) = true) ->
  forall acc accn, avoids bad (computePSF_loop c lambda zpf res l acc accn).
Proof.
  intros Hbad Hbin. induction l as [|s l IH]; intros Hall acc accn;
    cbn [computePSF_loop].
  - apply avoids_ret.
  - apply avoids_bind.
    + apply computePSF_step_avoids; [exact Hbad|exact Hbin|].
      apply Hall. now left.
    + intro r. apply IH. intros s' I. apply Hall. now right.
Qed.

(** The tag and the wavelengths of the coupled object, in the order of
    its members. *)
Let wavelengths (st : t) : option (string * (exn + list Q)) :=
  option_map
    (fun c =>
       (coupled_tag c,
        match input_source_of c with
        | inl e => inl e
        | inr l => inr (map Source.wavelength l)
        end))
    (src st).

Lemma map_replace_nth {A B} (f : A -> B) (l : list A) (k : nat) (x y : A) :
  nth_error l k = Some x -> f y = f x ->
  map f (replace_nth l k y) = map f l.
Proof.
  revert k. induction l as [|z l IH]; intros [|k] H E; cbn in *;
    try congruence.
  f_equal. now apply IH.
Qed.

Lemma update_member_wavelengths (i : Z) (ph : option (ndarray Q))
    (c c' : coupled) (st : t) :
  update_member i (Source.with_phase ph) c = inr c' ->
  wavelengths (with_src (Some c') st) = wavelengths (with_src (Some c) st).
Proof.
  unfold wavelengths. cbn [src with_src option_map].
  unfold update_member, input_source_of.
  destruct c as [s | a | e].
  - discriminate.
  - destruct (list_get (Asterism.src a) i) as [e1|s] eqn:G; [discriminate|].
    cbn beta iota. unfold list_set.
    destruct ((0 <=? i) && _); [|discriminate]. intros [= <-].
    apply FluxFacts.list_get_nth in G. destruct G as [_ G].
    cbn [coupled_tag Asterism.tag Asterism.with_src asterism_of sun_of
           Asterism.src].
    destruct (String.eqb (Asterism.tag a) "asterism");
      [|destruct (String.eqb (Asterism.tag a) "sun"); reflexivity].
    cbn beta iota.
    rewrite (map_replace_nth Source.wavelength _ _ s) by (auto; reflexivity).
    reflexivity.
  - destruct (list_get
                (Asterism.src (ExtendedSourceData.sun_subDir_ast e)) i)
      as [e1|s] eqn:G; [discriminate|].
    cbn beta iota. unfold list_set.
    destruct ((0 <=? i) && _); [|discriminate]. intros [= <-].
    apply FluxFacts.list_get_nth in G. destruct G as [_ G].
    cbn [coupled_tag ExtendedSourceData.tag
           ExtendedSourceData.with_sun_subDir_ast
           ExtendedSourceData.sun_subDir_ast Asterism.with_src asterism_of
           sun_of Asterism.src].
    destruct (String.eqb (ExtendedSourceData.tag e) "asterism");
      [reflexivity|].
    destruct (String.eqb (ExtendedSourceData.tag e) "sun"); [|reflexivity].
    cbn beta iota.
    rewrite (map_replace_nth Source.wavelength _ _ s) by (auto; reflexivity).
    reflexivity.
Qed.

Lemma set_member_phase_wavelengths (i : Z) (ph : ndarray Q) :
  keeps wavelengths (set_member_phase i ph).
Proof.
  intros st. unfold set_member_phase, bind, get, lift, modify, raise.
  cbn [fst snd]. destruct (src st) as [c|] eqn:Hs; [|reflexivity].
  destruct (update_member i (Source.with_phase (Some ph)) c) as [e|c'] eqn:U;
    [reflexivity|].
  cbn [fst]. rewrite (update_member_wavelengths i _ c c' st U).
  unfold wavelengths. cbn [src with_src]. now rewrite Hs.
Qed.

Lemma sync_phase_wavelengths : keeps wavelengths sync_phase.
Proof.
  intros st. unfold sync_phase. unfold bind at 1. unfold get at 1.
  destruct (src st) as [c|] eqn:Hs; [|reflexivity].
  destruct (String.eqb (coupled_tag c) "sun").
  { match goal with
    | |- wavelengths (fst (?blk st)) = _ =>
        enough (K : keeps wavelengths blk) by apply K
    end.
    repeat lazymatch goal with
           | |- keeps _ (set_member_phase _ _) =>
               apply set_member_phase_wavelengths
           | |- _ => KeepFacts.keeps_step
           end. }
  destruct (String.eqb (coupled_tag c) "asterism").
  { match goal with
    | |- wavelengths (fst (?blk st)) = _ =>
        enough (K : keeps wavelengths blk) by apply K
    end.
    repeat lazymatch goal with
           | |- keeps _ (set_member_phase _ _) =>
               apply set_member_phase_wavelengths
           | |- _ => KeepFacts.keeps_step
           end. }
  destruct c as [s | a | e]; try reflexivity.
  destruct (_OPD st); unfold bind, raise, ret, modify;
    destruct (Qeq_bool (Source.wavelength s) 0); cbn [fst snd];
    try reflexivity.
  unfold wavelengths. cbn [src with_src]. rewrite Hs.
  unfold input_source_of.
  cbn [option_map coupled_tag Source.tag Source.with_phase
         Source.wavelength map].
  destruct (String.eqb (Source.tag s) "asterism"); [reflexivity|].
  destruct (String.eqb (Source.tag s) "sun"); reflexivity.
Qed.

(** [computePSF] raises when a member of the coupled object has another
    wavelength than the first one. *)
Lemma computePSF_mismatch (zpf : Q) (detector : option (Q * option Q))
    (img : option Q) (st : t) (c : coupled) (l : list Source.t)
    (first s : Source.t) :
  src st = Some c -> input_source_of c = inr l ->
  hd_error l = Some first -> In s l ->
  Qeq_bool (Source.wavelength first) (Source.wavelength s) = false ->
  exists e, snd (computePSF zpf detector img st) = inl e.
Proof.
  intros Hsrc Hl Hfirst Hin Hne.
  destruct (computePSF zpf detector img st) as [st' [e|u]] eqn:E;
    [now exists e|exfalso].
  unfold computePSF in E.
  apply InitFacts.bind_returns in E. destruct E as (s0 & self & E0 & E).
  cbv [get] in E0. inversion E0; subst s0 self; clear E0.
  apply InitFacts.bind_returns in E. destruct E as (st1 & [] & E0 & E).
  pose proof (sync_phase_wavelengths st) as W. rewrite E0 in W.
  cbn [fst] in W. clear E0.
  apply InitFacts.bind_returns in E. destruct E as (s0 & self & E0 & E).
  cbv [get] in E0. inversion E0; subst s0 self; clear E0.
  apply InitFacts.bind_returns in E. destruct E as (s0 & c1 & E0 & E).
  destruct (src st1) as [c1'|] eqn:Hsrc1; [|discriminate E0].
  cbv [ret] in E0. inversion E0; subst s0 c1'; clear E0.
  apply InitFacts.bind_returns in E. destruct E as (s0 & l1 & E0 & E).
  cbv [lift] in E0. inversion E0 as [[E1 Hl1]]; subst s0; clear E0.
  apply InitFacts.bind_returns in E. destruct E as (s0 & first1 & E0 & E).
  cbv [lift] in E0. inversion E0 as [[E1 Hf1]]; subst s0; clear E0.
  apply InitFacts.bind_returns in E. destruct E as (s2 & out & E0 & _).
  unfold wavelengths in W. rewrite Hsrc, Hsrc1 in W.
  cbn [option_map] in W. rewrite Hl, Hl1 in W. cbn beta iota in W.
  injection W as _ W.
  apply FluxFacts.list_get_nth in Hf1. destruct Hf1 as [_ Hf1].
  cbn [Z.to_nat] in Hf1.
  destruct l as [|f l']; [discriminate|]. cbn [hd_error] in Hfirst.
  injection Hfirst as ->.
  destruct l1 as [|f1 l1']; [discriminate|]. cbn [nth_error] in Hf1.
  injection Hf1 as ->.
  cbn [map] in W. injection W as Wf Wl.
  assert (I1 : In (Source.wavelength s)
                 (map Source.wavelength (first1 :: l1'))).
  { cbn [map]. rewrite Wf, Wl. change (In (Source.wavelength s)
                                         (map Source.wavelength (first :: l'))).
    now apply in_map. }
  apply in_map_iff in I1. destruct I1 as (s1 & Ws1 & I1).
  assert (M : exists s', In s' (first1 :: l1') /\
                 Qeq_bool (Source.wavelength first1) (Source.wavelength s')
                 = false).
  { exists s1. split; [exact I1|]. rewrite Ws1, Wf. exact Hne. }
  match type of E0 with
  | computePSF_loop ?c ?lam ?z ?r ?ls ?a ?b ?st0 = _ =>
      destruct (computePSF_loop_mismatch c lam z r ls M a b st0) as [e He]
  end.
  rewrite E0 in He. discriminate He.
Qed.

End WithPlatform.
End WavelengthFacts.

Module WavelengthClaims.
Import Py Np Mon TelescopeData Telescope WavelengthFacts.

Section WithPlatform.
Context `{P : Platform}.


End WithPlatform.

#[local] Existing Instance Reference.platform.


End WavelengthClaims.


(* ================================================================== *)
(** * Telescope: the warning on sources outside of the field of view *)
(* ================================================================== *)

Module WarningFacts.
Import Py Np Mon TelescopeData Telescope MonFacts.
Import Lifetime (fov_warnings, warned_as_flagged).

Lemma fov_warnings_printed (out : list event) (msg : string) :
  fov_warnings (out ++ [Printed msg]) = fov_warnings out.
Proof.
  unfold fov_warnings. rewrite filter_app, length_app. cbn. lia.
Qed.

Lemma fov_warnings_outside (out : list event) (msg : string) :
  fov_warnings (out ++ [OutsideFov msg]) = S (fov_warnings out).
Proof.
  unfold fov_warnings. rewrite filter_app, length_app. cbn. lia.
Qed.

Section Laws.
Context {S : Type}.

Lemma preserves_bind {A B} (inv : S -> Prop) (c : M S A) (k : A -> M S B) :
  preserves inv c -> (forall a, preserves inv (k a)) ->
  preserves inv (bind c k).
Proof.
  intros Hc Hk s Hs. unfold bind. specialize (Hc s Hs).
  destruct (c s) as [s' [e|a]]; cbn [fst] in *; [exact Hc|].
  now apply Hk.
Qed.

Lemma keeps_preserves {A X} (f : S -> X) (inv : S -> Prop) (c : M S A) :
  (forall s s', f s' = f s -> inv s -> inv s') ->
  keeps f c -> preserves inv c.
Proof. intros H K s Hs. exact (H s _ (K s) Hs). Qed.

End Laws.

Section WithPlatform.
Context `{P : Platform}.

(** The flag and the number of warnings written. *)
Let account (st : t) := (warning_src st, fov_warnings (stdout st)).

Lemma account_flagged (st st' : t) :
  account st' = account st -> warned_as_flagged st -> warned_as_flagged st'.
Proof.
  unfold account, warned_as_flagged. intros [= -> ->]. auto.
Qed.

Lemma account_print (msg : string) (s : t) :
  account (with_stdout (stdout s ++ [Printed msg]) s) = account s.
Proof.
  unfold account. cbn [warning_src with_stdout stdout].
  now rewrite fov_warnings_printed.
Qed.

(** The methods that do not write the warning leave the account. *)
Ltac account_keeps lem :=
  apply lem; intros; first [reflexivity | apply account_print].

Lemma fov_warning_returns (c : coupled) (s : Source.t) (x y : Q * Q)
    (st : t) :
  snd (fov_warning c s x y st) = inr tt.
Proof.
  unfold fov_warning, warn_outside_fov, bind, get, modify, ret.
  destruct (outside_fov st c s x y); [|reflexivity].
  destruct (warning_src st); reflexivity.
Qed.

(** The warning is written when the source is outside and the flag is
    down; the flag is then up. *)
Lemma fov_warning_writes (c : coupled) (s : Source.t) (x y : Q * Q)
    (st : t) :
  outside_fov st c s x y = true -> warning_src st = false ->
  warning_src (fst (fov_warning c s x y st)) = true /\
  fov_warnings (stdout (fst (fov_warning c s x y st)))
  = S (fov_warnings (stdout st)).
Proof.
  intros Ho Hw.
  unfold fov_warning, warn_outside_fov, bind, get, modify, ret.
  rewrite Ho, Hw. cbn [negb fst snd warning_src with_warning_src stdout
                         with_stdout].
  split; [reflexivity|]. apply fov_warnings_outside.
Qed.

(** Otherwise nothing is written. *)
Lemma fov_warning_silent (c : coupled) (s : Source.t) (x y : Q * Q)
    (st : t) :
  outside_fov st c s x y = false \/ warning_src st = true ->
  fst (fov_warning c s x y st) = st.
Proof.
  unfold fov_warning, warn_outside_fov, bind, get, modify, ret.
  intros [-> | ->]; [reflexivity|].
  destruct (outside_fov st c s x y); reflexivity.
Qed.

Lemma fov_warning_preserves (c : coupled) (s : Source.t) (x y : Q * Q) :
  preserves warned_as_flagged (fov_warning c s x y).
Proof.
  intros st H.
  destruct (outside_fov st c s x y) eqn:Ho;
    [|rewrite fov_warning_silent by (now left); exact H].
  destruct (warning_src st) eqn:Hw;
    [rewrite fov_warning_silent by (now right); exact H|].
  destruct (fov_warning_writes c s x y st Ho Hw) as [F W].
  unfold warned_as_flagged in *. rewrite F, W. rewrite Hw in H. lia.
Qed.

Ltac pres_keeps :=
  apply (keeps_preserves account); [exact account_flagged|].

Ltac pres_step :=
  lazymatch goal with
  | |- preserves _ (bind _ _) => apply preserves_bind; [|intro]
  | |- preserves _ (fov_warning _ _ _ _) => apply fov_warning_preserves
  | |- preserves _ (PropagateField _ _ _ _) =>
      pres_keeps; account_keeps KeepFacts.PropagateField_keeps
  | |- preserves _ sync_phase =>
      pres_keeps; account_keeps KeepFacts.sync_phase_keeps
  | |- preserves _ (if ?b then _ else _) => destruct b
  | |- preserves _ (match ?x with _ => _ end) => destruct x
  | |- preserves _ (ret _) => pres_keeps; apply keeps_ret
  | |- preserves _ get => pres_keeps; apply keeps_get
  | |- preserves _ (lift _) => pres_keeps; apply keeps_lift
  | |- preserves _ (raise _) => pres_keeps; apply keeps_raise
  | |- preserves _ (modify _) =>
      pres_keeps; apply keeps_modify; intro; reflexivity
  end.

Lemma computePSF_step_preserves (c : coupled) (lambda zpf res : Q)
    (s : Source.t) :
  preserves warned_as_flagged (computePSF_step c lambda zpf res s).
Proof. unfold computePSF_step. repeat pres_step. Qed.

Lemma computePSF_loop_preserves (c : coupled) (lambda zpf res : Q)
    (l : list Source.t) :
  forall acc accn,
    preserves warned_as_flagged (computePSF_loop c lambda zpf res l acc accn).
Proof.
  induction l as [|s l IH]; intros acc accn; cbn [computePSF_loop].
  - pres_step.
  - apply preserves_bind; [apply computePSF_step_preserves|].
    intro. apply IH.
Qed.

Lemma computePSF_preserves (zpf : Q) (detector : option (Q * option Q))
    (img : option Q) :
  preserves warned_as_flagged (computePSF zpf detector img).
Proof.
  unfold computePSF.
  repeat lazymatch goal with
         | |- preserves _ (computePSF_loop _ _ _ _ _ _ _) =>
             apply computePSF_loop_preserves
         | |- _ => pres_step
         end.
Qed.

(** Every call on a telescope keeps the account. *)
Lemma perform_preserves (call : Lifetime.call) :
  preserves warned_as_flagged (Lifetime.perform call).
Proof.
  destruct call; cbn [Lifetime.perform].
  - apply computePSF_preserves.
  - repeat pres_step.
  - pres_keeps. account_keeps (KeepFacts.OPD_setter_keeps account).
  - pres_keeps. account_keeps (KeepFacts.OPD_no_pupil_setter_keeps account).
  - pres_keeps. account_keeps (KeepFacts.pupil_setter_keeps account).
  - pres_step.
  - pres_keeps. account_keeps (KeepFacts.set_pupil_keeps account).
  - pres_keeps. account_keeps (KeepFacts.apply_spiders_keeps account).
  - pres_keeps. account_keeps (KeepFacts.resetOPD_keeps account).
  - pres_keeps. account_keeps (KeepFacts.ExtendedSource__mul___keeps account).
Qed.

Lemma after_preserves (calls : list Lifetime.call) :
  forall tel, warned_as_flagged tel ->
              warned_as_flagged (Lifetime.after calls tel).
Proof.
  induction calls as [|c calls IH]; intros tel H; cbn [Lifetime.after].
  - exact H.
  - apply IH. now apply perform_preserves.
Qed.

(** The constructor returns an object with the flag down and no warning
    written. *)
Lemma new_flagged (resolution : Z) (diameter samplingTime : Q)
    (centralObstruction fov : Q) (pupil : option (ndarray Q))
    (pupilReflectivity : reflectivity) (tel : t) :
  new resolution diameter samplingTime centralObstruction fov pupil
    pupilReflectivity = inr tel ->
  warning_src tel = false /\ fov_warnings (stdout tel) = 0%nat.
Proof.
  unfold new.
  match goal with
  | |- match __init__ _ _ _ _ _ _ _ ?b with _ => _ end = _ -> _ =>
      set (blank := b)
  end.
  destruct (__init__ resolution diameter samplingTime centralObstruction fov
              pupil pupilReflectivity blank) as [self [e|[]]] eqn:E;
    [discriminate|].
  intros [= ->]. split.
  - assert (En : ensures
                   (__init__ resolution diameter samplingTime
                      centralObstruction fov pupil pupilReflectivity)
                   (fun st => warning_src st = false)).
    { unfold __init__.
      repeat lazymatch goal with
             | |- ensures (bind _ _) _ =>
                 apply PupilFacts.ensures_bind; intros ?
             end.
      intros s1 s2 u H. cbv [modify] in H. inversion H. reflexivity. }
    exact (En _ _ _ E).
  - unfold __init__ in E.
    apply InitFacts.bind_returns in E. destruct E as (s0 & [] & E0 & E).
    cbv [put] in E0. inversion E0; subst s0; clear E0.
    match type of E with
    | ?k ?s0 = _ =>
        assert (K : keeps (fun st => fov_warnings (stdout st)) k)
    end.
    { repeat lazymatch goal with
             | |- keeps _ set_pupil =>
                 apply KeepFacts.set_pupil_keeps; intros;
                 first [reflexivity | apply fov_warnings_printed]
             | |- keeps _ (OPD_setter _) =>
                 apply KeepFacts.OPD_setter_keeps; intros;
                 first [reflexivity | apply fov_warnings_printed]
             | |- keeps _ (OPD_no_pupil_setter _) =>
                 apply KeepFacts.OPD_no_pupil_setter_keeps; intros;
                 first [reflexivity | apply fov_warnings_printed]
             | |- keeps _ (print _) =>
                 apply KeepFacts.print_keeps; intros;
                 first [reflexivity | apply fov_warnings_printed]
             | |- keeps _ (modify _) =>
                 apply keeps_modify; intro; reflexivity
             | |- _ => KeepFacts.keeps_step
             end. }
    match type of E with
    | ?k ?s0 = _ => specialize (K s0)
    end.
    rewrite E in K. cbn [fst] in K. rewrite K. reflexivity.
Qed.

(** A turn of the loop computes the point-spread function of its source,
    whether the source is inside of the field of view or not. *)
Lemma computePSF_step_computes (c : coupled) (lambda zpf res : Q)
    (s : Source.t) (st : t) (p : ndarray Q) :
  Qeq_bool lambda (Source.wavelength s) = true ->
  (String.eqb (coupled_tag c) "sun" = true -> exists e, sun_of c = inr e) ->
  (String.eqb (coupled_tag c) "sun" = false ->
   Qeq_bool (D st) 0 || Qeq_bool zpf 0 = false) ->
  Spec.member_PSF st zpf res s = inr p ->
  exists st',
    computePSF_step c lambda zpf res s st = (st', inr (p, normalised p)).
Proof.
  intros Hl Hsun Hax Hp. unfold Spec.member_PSF in Hp.
  destruct (member_amp st s) as [|amp] eqn:Ea; [discriminate|].
  destruct (member_delta_TT st s) as [|d] eqn:Ed; [discriminate|].
  cbn beta iota in Hp.
  destruct (member_phase (snd amp) d) as [|ph] eqn:Eph; [discriminate|].
  cbn beta iota in Hp.
  destruct (propagate st (fst amp) ph zpf (Some res)) as [|r] eqn:Er;
    [discriminate|].
  cbn beta iota in Hp.
  unfold computePSF_step. rewrite Hl.
  rewrite (bind_inr _ _ st st tt eq_refl).
  rewrite (bind_inr _ _ st st st eq_refl).
  rewrite Ea. rewrite (bind_inr _ _ st st amp eq_refl).
  rewrite Ed. rewrite (bind_inr _ _ st st d eq_refl).
  assert (Hx : exists axes,
             (if String.eqb (coupled_tag c) "sun"
              then
                bind (lift (sun_of c))
                  (fun sun =>
                     let half := (ExtendedSourceData.fov sun / 2)%Q in
                     ret ((- half, half)%Q, (- half, half)%Q))
              else
                bind (if Qeq_bool (D st) 0 || Qeq_bool zpf 0
                      then raise ZeroDivisionError else ret tt)
                  (fun _ =>
                     let half :=
                       (conversion_constant * (Source.wavelength s / D st)
                        * (res / 2 / zpf))%Q in
                     ret ((- half, half)%Q, (- half, half)%Q))) st
             = (st, inr axes)).
  { destruct (String.eqb (coupled_tag c) "sun").
    - destruct (Hsun eq_refl) as [e ->]. eexists.
      cbv [bind lift ret]. reflexivity.
    - rewrite (Hax eq_refl). eexists. cbv [bind ret]. reflexivity. }
  destruct Hx as [axes Hx].
  rewrite (bind_inr _ _ st st axes Hx).
  rewrite (bind_inr (modify (with_xPSF_arcsec (Some (fst axes)))) _ st _ tt
             eq_refl).
  rewrite (bind_inr (modify (with_yPSF_arcsec (Some (snd axes)))) _ _ _ tt
             eq_refl).
  match goal with
  | |- context [bind (fov_warning c s ?x ?y) _ ?s2] =>
      pose proof (fov_warning_returns c s x y s2) as Hw;
      assert (Hc : (_pupil (fst (fov_warning c s x y s2)),
                    spatialFilter (fst (fov_warning c s x y s2)),
                    resolution (fst (fov_warning c s x y s2)),
                    coronagraph_diameter (fst (fov_warning c s x y s2)))
                   = (_pupil st, spatialFilter st, resolution st,
                      coronagraph_diameter st));
      [|destruct (fov_warning c s x y s2) as [s3 w] eqn:Ew]
  end.
  { unfold fov_warning, warn_outside_fov, bind, get, modify, ret.
    match goal with
    | |- context [if ?b then _ else _] => destruct b; [|reflexivity]
    end.
    match goal with
    | |- context [if ?b then _ else _] => destruct b; reflexivity
    end. }
  cbn [fst snd] in Hw, Hc. subst w.
  rewrite (bind_inr _ _ _ s3 tt Ew).
  rewrite Eph. rewrite (bind_inr _ _ s3 s3 ph eq_refl).
  assert (Hrun : PropagateField (fst amp) ph zpf (Some res) s3
                 = (with_PSF (Some (PSF_nd p))
                      (with_focal_EMF (Some (p_focal_EMF r)) s3),
                    inr (p_oversampling r))).
  { rewrite PropagateFacts.PropagateField_run.
    rewrite (WavelengthFacts.propagate_core st s3) by exact Hc.
    rewrite Er. cbv zeta. rewrite Hp. reflexivity. }
  rewrite (bind_inr _ _ s3 _ _ Hrun).
  rewrite (bind_inr get _ _ _ _ eq_refl).
  cbn [PSF with_PSF]. eexists. reflexivity.
Qed.

End WithPlatform.
End WarningFacts.

Module WarningClaims.
Import Py Np Mon TelescopeData Telescope WarningFacts.
Import Lifetime (fov_warnings).

Section WithPlatform.
Context `{P : Platform}.


End WithPlatform.

#[local] Existing Instance Reference.platform.


End WarningClaims.
